(** * Tbeti TEI parser: a shallow embedding of [tbeti_parser.py]

    The development follows the Python module function by function.
    A Python [str] is a sequence of Unicode code points, so it is a
    [list N] here; dictionaries with a fixed set of optional keys are
    records with [option] fields; the statistics sets are [gset]s; an
    exception is a value of [exn] carried by the [res] monad, and a
    [try/except Exception] block turns it into [None]. *)

From Stdlib Require Import NArith ZArith List String Ascii Bool Lia.
From stdpp Require Import base decidable countable gmap list.
Import ListNotations.

Set Warnings "-register-all".

Local Open Scope N_scope.

(** ** Python strings *)

Module Py.

(** String literals are written as UTF-8 text and decoded to code points. *)
Fixpoint decode (s : string) : list N :=
  match s with
  | EmptyString => []
  | String a s1 =>
    let b0 := N_of_ascii a in
    if b0 <? 128 then b0 :: decode s1
    else if b0 <? 224 then
      match s1 with
      | String b s2 => ((b0 - 192) * 64 + (N_of_ascii b - 128)) :: decode s2
      | _ => []
      end
    else if b0 <? 240 then
      match s1 with
      | String b (String c s3) =>
        ((b0 - 224) * 4096 + (N_of_ascii b - 128) * 64 + (N_of_ascii c - 128))
          :: decode s3
      | _ => []
      end
    else
      match s1 with
      | String b (String c (String d s4)) =>
        ((b0 - 240) * 262144 + (N_of_ascii b - 128) * 4096
         + (N_of_ascii c - 128) * 64 + (N_of_ascii d - 128)) :: decode s4
      | _ => []
      end
  end.

Definition py (s : string) : list N := decode s.
Arguments py s%_string.

(** [a == b] on strings. *)
Fixpoint str_eqb (a b : list N) : bool :=
  match a, b with
  | [], [] => true
  | x :: a', y :: b' => (x =? y) && str_eqb a' b'
  | _, _ => false
  end.

(** [s.startswith(p)]. *)
Fixpoint startswith (s p : list N) {struct p} : bool :=
  match p, s with
  | [], _ => true
  | x :: p', y :: s' => (x =? y) && startswith s' p'
  | _ :: _, [] => false
  end.

(** [s.endswith(e)]. *)
Definition endswith (s e : list N) : bool := startswith (rev s) (rev e).

(** [x in l] for a list of strings. *)
Definition str_in (x : list N) (l : list (list N)) : bool :=
  existsb (str_eqb x) l.

(** [p in s] for strings: substring search. *)
Fixpoint contains (s p : list N) : bool :=
  startswith s p ||
  match s with
  | [] => false
  | _ :: s' => contains s' p
  end.

(** [str.isspace] on one code point; [\s] of [re] is the same class
    (Unicode 14.0, as shipped with CPython 3.11). *)
Definition isspace (c : N) : bool :=
  ((9 <=? c) && (c <=? 13)) || ((28 <=? c) && (c <=? 32))
  || (c =? 133) || (c =? 160) || (c =? 5760)
  || ((8192 <=? c) && (c <=? 8202))
  || (c =? 8232) || (c =? 8233) || (c =? 8239) || (c =? 8287) || (c =? 12288).

(** Code points of general category Nd come in blocks of ten, one per
    script; the table lists the code point of each block's zero. *)
Definition nd_zeros : list N :=
  [0x30; 0x660; 0x6f0; 0x7c0; 0x966; 0x9e6; 0xa66; 0xae6; 0xb66; 0xbe6;
   0xc66; 0xce6; 0xd66; 0xde6; 0xe50; 0xed0; 0xf20; 0x1040; 0x1090; 0x17e0;
   0x1810; 0x1946; 0x19d0; 0x1a80; 0x1a90; 0x1b50; 0x1bb0; 0x1c40; 0x1c50;
   0xa620; 0xa8d0; 0xa900; 0xa9d0; 0xa9f0; 0xaa50; 0xabf0; 0xff10; 0x104a0;
   0x10d30; 0x11066; 0x110f0; 0x11136; 0x111d0; 0x112f0; 0x11450; 0x114d0;
   0x11650; 0x116c0; 0x11730; 0x118e0; 0x11950; 0x11c50; 0x11d50; 0x11da0;
   0x16a60; 0x16ac0; 0x16b50; 0x1d7ce; 0x1d7d8; 0x1d7e2; 0x1d7ec; 0x1d7f6;
   0x1e140; 0x1e2f0; 0x1e950; 0x1fbf0].

(** [unicodedata.decimal(c)], when defined. *)
Definition decimal_value (c : N) : option N :=
  match find (fun z => (z <=? c) && (c <=? z + 9)) nd_zeros with
  | Some z => Some (c - z)
  | None => None
  end.

(** [\d] of [re], and [str.isdecimal] on one code point. *)
Definition isdecimal (c : N) : bool :=
  match decimal_value c with Some _ => true | None => false end.

(** Code points with Numeric_Type=Digit that are not decimal. *)
Definition digit_only_ranges : list (N * N) :=
  [(0xb2, 0xb3); (0xb9, 0xb9); (0x1369, 0x1371); (0x19da, 0x19da);
   (0x2070, 0x2070); (0x2074, 0x2079); (0x2080, 0x2089); (0x2460, 0x2468);
   (0x2474, 0x247c); (0x2488, 0x2490); (0x24ea, 0x24ea); (0x24f5, 0x24fd);
   (0x24ff, 0x24ff); (0x2776, 0x277e); (0x2780, 0x2788); (0x278a, 0x2792);
   (0x10a40, 0x10a43); (0x10e60, 0x10e68); (0x11052, 0x1105a);
   (0x1f100, 0x1f10a)].

(** [str.isdigit] on one code point. *)
Definition isdigit_char (c : N) : bool :=
  isdecimal c
  || existsb (fun r => (fst r <=? c) && (c <=? snd r)) digit_only_ranges.

(** [s.isdigit()]: non-empty and every code point is a digit. *)
Definition isdigit (s : list N) : bool :=
  match s with
  | [] => false
  | _ => forallb isdigit_char s
  end.

(** [str.lower] on one code point, for the ASCII letters and the two
    Georgian bicameral pairs.  No other case mapping yields a code point
    of the block U+10A0..U+10FF, which is all the keyword searches of
    [determine_person_type] can observe. *)
Definition lower_char (c : N) : N :=
  if (65 <=? c) && (c <=? 90) then c + 32
  else if ((0x1c90 <=? c) && (c <=? 0x1cba))
          || ((0x1cbd <=? c) && (c <=? 0x1cbf)) then c - 0x1c90 + 0x10d0
  else if ((0x10a0 <=? c) && (c <=? 0x10c5)) || (c =? 0x10c7) || (c =? 0x10cd)
       then c - 0x10a0 + 0x2d00
  else c.

Definition lower (s : list N) : list N := map lower_char s.

(** [str(n)] for a non-negative integer: decimal digits, most
    significant first. *)
Fixpoint digits_fuel (fuel : nat) (n : N) (acc : list N) : list N :=
  match fuel with
  | O => acc
  | S f =>
    let acc' := (48 + n mod 10) :: acc in
    if n <? 10 then acc' else digits_fuel f (n / 10) acc'
  end.

Definition str_of_N (n : N) : list N := digits_fuel (S (N.to_nat (N.log2 n))) n [].

(** [str(z)] for an integer. *)
Definition str_of_int (z : Z) : list N :=
  match z with
  | Zneg p => 45 :: str_of_N (Npos p)
  | _ => str_of_N (Z.to_N z)
  end.

(** [format(z, '03d')]: sign first, then zero padding to width three. *)
Definition format_03d (z : Z) : list N :=
  let pad (w : nat) (d : list N) := repeat 48 (w - List.length d) ++ d in
  match z with
  | Zneg p => 45 :: pad 2%nat (str_of_N (Npos p))
  | _ => pad 3%nat (str_of_N (Z.to_N z))
  end.

End Py.

Import Py.

(** ** Exceptions *)

Inductive exn := ValueError.

Inductive res (A : Type) :=
| Ok (a : A)
| Raise (e : exn).
Arguments Ok {A} a.
Arguments Raise {A} e.

#[global] Instance res_ret : MRet res := fun A a => Ok a.
#[global] Instance res_bind : MBind res := fun A B f m =>
  match m with
  | Ok a => f a
  | Raise e => Raise e
  end.

(** [try: ... except Exception: return None]. *)
Definition try_except {A} (body : res A) : option A :=
  match body with
  | Ok a => Some a
  | Raise _ => None
  end.

(** [int(s)] for a string that passed [s.isdigit()]: such a string has no
    sign, blank or underscore, so the conversion succeeds exactly when
    every code point is a decimal digit.  (The interpreter's configurable
    limit on the number of digits is not modelled.) *)
Fixpoint int_digits (s : list N) (acc : Z) : res Z :=
  match s with
  | [] => Ok acc
  | c :: s' =>
    match decimal_value c with
    | Some d => int_digits s' (10 * acc + Z.of_N d)%Z
    | None => Raise ValueError
    end
  end.

Definition int_of_str (s : list N) : res Z :=
  match s with
  | [] => Raise ValueError
  | _ => int_digits s 0%Z
  end.

(** [format(s, '03d')] for a [str] argument: the format code [d] is not
    defined for strings and the call raises [ValueError]. *)
Definition format_03d_str (s : list N) : res (list N) := Raise ValueError.

(** ** Regular expressions

    The fragment of [re] the parser uses, with Python's backtracking
    semantics: alternatives are tried left to right, a greedy repetition
    tries the longest run first, a lazy one the shortest.  Repetition is
    only ever applied to a character class in this code base. *)

Module Re.

Inductive re :=
| Cls (p : N -> bool)
| Lit (l : list N)
| Cat (a b : re)
| Alt (a b : re)
| Opt (a : re)
| Rep (p : N -> bool) (min : nat) (greedy : bool)
| Grp (i : nat) (a : re).

(** Captured groups, most recent first. *)
Definition caps := list (nat * list N).

(** The continuation receives the remaining text, the number of code
    points consumed since the start of the match, and the groups. *)
Definition cont := list N -> nat -> caps -> option (nat * caps).

Fixpoint rep_greedy (p : N -> bool) (min : nat) (k : list N -> nat -> option (nat * caps))
    (n : nat) (s : list N) (pos : nat) : option (nat * caps) :=
  let here := if (min <=? n)%nat then k s pos else None in
  match s with
  | c :: s' =>
    if p c then
      match rep_greedy p min k (S n) s' (S pos) with
      | Some r => Some r
      | None => here
      end
    else here
  | [] => here
  end.

Fixpoint rep_lazy (p : N -> bool) (min : nat) (k : list N -> nat -> option (nat * caps))
    (n : nat) (s : list N) (pos : nat) : option (nat * caps) :=
  match (if (min <=? n)%nat then k s pos else None) with
  | Some r => Some r
  | None =>
    match s with
    | c :: s' => if p c then rep_lazy p min k (S n) s' (S pos) else None
    | [] => None
    end
  end.

Fixpoint mt (r : re) (s : list N) (pos : nat) (cs : caps) (k : cont) : option (nat * caps) :=
  match r with
  | Cls p =>
    match s with
    | c :: s' => if p c then k s' (S pos) cs else None
    | [] => None
    end
  | Lit l =>
    if startswith s l then k (drop (List.length l) s) (pos + List.length l)%nat cs
    else None
  | Cat a b => mt a s pos cs (fun s1 p1 c1 => mt b s1 p1 c1 k)
  | Alt a b =>
    match mt a s pos cs k with
    | Some x => Some x
    | None => mt b s pos cs k
    end
  | Opt a =>
    match mt a s pos cs k with
    | Some x => Some x
    | None => k s pos cs
    end
  | Rep p mn true => rep_greedy p mn (fun s1 p1 => k s1 p1 cs) 0 s pos
  | Rep p mn false => rep_lazy p mn (fun s1 p1 => k s1 p1 cs) 0 s pos
  | Grp i a => mt a s pos cs (fun s1 p1 c1 => k s1 p1 ((i, take (p1 - pos) s) :: c1))
  end.

(** A match anchored at the head of [s]: its length and its groups. *)
Definition match_at (r : re) (s : list N) : option (nat * caps) :=
  mt r s 0 [] (fun _ p c => Some (p, c)).

(** Match objects. *)
Record rmatch := mkMatch { group0 : list N; groups : caps }.

Fixpoint assoc (i : nat) (cs : caps) : option (list N) :=
  match cs with
  | [] => None
  | (j, v) :: cs' => if (i =? j)%nat then Some v else assoc i cs'
  end.

(** [m.group(i)] for a group that took part in the match. *)
Definition group (m : rmatch) (i : nat) : list N :=
  match i with
  | O => group0 m
  | _ => default [] (assoc i (groups m))
  end.

(** [re.finditer]: the leftmost match, then the leftmost match after it,
    and so on.  [skip] counts the code points of the text still covered by
    the previous match.  Every pattern of the parser consumes at least one
    code point, so empty matches do not arise. *)
Fixpoint finditer_aux (r : re) (skip : nat) (s : list N) : list rmatch :=
  match s with
  | [] => []
  | _ :: s' =>
    match skip with
    | S k => finditer_aux r k s'
    | O =>
      match match_at r s with
      | Some (len, cs) => mkMatch (take len s) cs :: finditer_aux r (pred len) s'
      | None => finditer_aux r 0 s'
      end
    end
  end.

Definition finditer (r : re) (s : list N) : list rmatch := finditer_aux r 0 s.

(** [re.findall] for a pattern with exactly one group (the group), or
    with none (the whole match). *)
Definition findall (r : re) (s : list N) : list (list N) :=
  map (fun m => match assoc 1 (groups m) with Some g => g | None => group0 m end)
      (finditer r s).

(** [re.search]. *)
Definition search (r : re) (s : list N) : option rmatch := head (finditer r s).

(** [re.sub(r, repl, s)] for a replacement without group references. *)
Fixpoint sub_aux (r : re) (repl : list N) (skip : nat) (s : list N) : list N :=
  match s with
  | [] => []
  | c :: s' =>
    match skip with
    | S k => sub_aux r repl k s'
    | O =>
      match match_at r s with
      | Some (S len, _) => repl ++ sub_aux r repl len s'
      | Some (O, _) => repl ++ c :: sub_aux r repl 0 s'
      | None => c :: sub_aux r repl 0 s'
      end
    end
  end.

Definition sub (r : re) (repl : list N) (s : list N) : list N := sub_aux r repl 0 s.

(** [(?:x|y|...)] over literal alternatives. *)
Fixpoint lits (x : list N) (xs : list (list N)) : re :=
  match xs with
  | [] => Lit x
  | y :: ys => Alt (Lit x) (lits y ys)
  end.

(** Sequencing a list of pieces. *)
Fixpoint seq (r : re) (rs : list re) : re :=
  match rs with
  | [] => r
  | r' :: rs' => Cat r (seq r' rs')
  end.

End Re.

Import Re.

(** [[Ⴀ-ჿ]]. *)
Definition is_geo (c : N) : bool := (0x10A0 <=? c) && (c <=? 0x10FF).

(** [[Ⴀ-ჿ]+]. *)
Definition geo_plus : re := Rep is_geo 1 true.

(** [\s*]. *)
Definition ws_star : re := Rep isspace 0 true.

(** [[^>]*]. *)
Definition not_gt_star : re := Rep (fun c => negb (c =? 62)) 0 true.

(** ** Text normalizer: [clean_text] *)

(** [[{}[\]\\]]: braces, square brackets and the backslash. *)
Definition is_artifact (c : N) : bool :=
  (c =? 123) || (c =? 125) || (c =? 91) || (c =? 93) || (c =? 92).

(** The scribal abbreviations and their expansions, in the order of the
    three [re.sub] calls. *)
Definition abbreviations : list (list N * list N) :=
  [ (py "ს(ულს)ა", py "სულსა");
    (py "შ(ეუნდვე)ნ", py "შეუნდვენ");
    (py "ღ(მერთმა)ნ", py "ღმერთმან") ].

Fixpoint lstrip (s : list N) : list N :=
  match s with
  | [] => []
  | c :: s' => if isspace c then lstrip s' else s
  end.

Fixpoint rstrip (s : list N) : list N :=
  match s with
  | [] => []
  | c :: s' =>
    match rstrip s' with
    | [] => if isspace c then [] else [c]
    | r => c :: r
    end
  end.

(** [s.strip()]. *)
Definition strip (s : list N) : list N := rstrip (lstrip s).

(** [clean_text]; [None] stands for Python's [None]. *)
Definition clean_text (text : option (list N)) : list N :=
  match text with
  | None | Some [] => []
  | Some text =>
    let text := sub (Cls is_artifact) [] text in
    let text := sub (Rep isspace 1 true) (py " ") text in
    let text := fold_left (fun t ab => sub (Lit (fst ab)) (snd ab) t) abbreviations text in
    strip text
  end.

(** ** Morphological classifier *)

Definition patronymic_endings : list (list N) :=
  [ py "შვილი"; py "სძე"; py "იძე"; py "ძე"; py "ისშვილი"; py "ანისძე";
    py "ეთ"; py "ეთი"; py "აეთ"; py "იეთ"; py "უეთ";
    py "ანთ"; py "ინთ" ].

Definition surname_endings : list (list N) :=
  [ py "აძე"; py "ავაძე"; py "ელი" ].

Definition known_places : list (list N) :=
  [ py "მცხეთა"; py "თბილისი"; py "ქუთაისი"; py "ბათუმი"; py "ხანი";
    py "სვანეთი"; py "იმერეთი"; py "კახეთი"; py "სამეგრელო"; py "გურია";
    py "აჭარა"; py "ტაო"; py "კლარჯეთი"; py "ტბეთი"; py "ოშკი"; py "ხახული" ].

(** [is_patronymic]: the class defines it twice with the same body. *)
Definition is_patronymic (name : list N) : bool :=
  existsb (fun ending => endswith name ending) patronymic_endings.

(** [is_actual_place]: the two [for] loops return [False] at the first
    ending that fits, then the allow-list decides. *)
Definition is_actual_place (name : list N) : bool :=
  if existsb (fun ending => endswith name ending) patronymic_endings then false
  else if existsb (fun ending => endswith name ending) surname_endings then false
  else if str_in name known_places then true
  else false.

(** ** Records *)

(** A person dictionary; an absent key is [None]. *)
Record Person := mkPerson {
  p_name : option (list N);
  p_type : option (list N);
  p_occupation : option (list N);
  p_relationship : option (list N);
  p_patronymic : option (list N);
  p_surname : option (list N);
  p_place : option (list N)
}.

Definition empty_person : Person := mkPerson None None None None None None None.

Record Manuscript := mkManuscript {
  ms_page : option (list N);
  ms_folio : option (list N);
  ms_line : option (list N)
}.

Record Entry := mkEntry {
  entryId : list N;
  entryNumber : Z;
  mainPerson : Person;
  familyMembers : list Person;
  manuscript : Manuscript;
  edition : list (list N * list N);
  dates : list (list N * list N);
  notes : list N;
  places : list (list N)
}.

(** Truth value of [d.get(key)]: the key is present and the string is not
    empty. *)
Definition truthy (v : option (list N)) : bool :=
  match v with
  | Some (_ :: _) => true
  | _ => false
  end.

(** [a != d.get(key)] for a string [a]. *)
Definition ne_opt (a : list N) (v : option (list N)) : bool :=
  match v with
  | Some b => negb (str_eqb a b)
  | None => true
  end.

Definition set_mainPerson (e : Entry) (p : Person) : Entry :=
  mkEntry (entryId e) (entryNumber e) p (familyMembers e) (manuscript e)
          (edition e) (dates e) (notes e) (places e).

Definition append_familyMember (e : Entry) (p : Person) : Entry :=
  mkEntry (entryId e) (entryNumber e) (mainPerson e) (familyMembers e ++ [p])
          (manuscript e) (edition e) (dates e) (notes e) (places e).

Definition set_manuscript (e : Entry) (m : Manuscript) : Entry :=
  mkEntry (entryId e) (entryNumber e) (mainPerson e) (familyMembers e) m
          (edition e) (dates e) (notes e) (places e).

Definition set_place (p : Person) (v : list N) : Person :=
  mkPerson (p_name p) (p_type p) (p_occupation p) (p_relationship p)
           (p_patronymic p) (p_surname p) (Some v).

(** [entry['places'].append(place)] followed by the fill of
    [mainPerson.place] when it is not set yet. *)
Definition add_place (e : Entry) (place : list N) : Entry :=
  let main := mainPerson e in
  let main := if truthy (p_place main) then main else set_place main place in
  mkEntry (entryId e) (entryNumber e) main (familyMembers e) (manuscript e)
          (edition e) (dates e) (notes e) (places e ++ [place]).

(** ** Person type and occupation *)

Definition determine_person_type (text : list N) : list N :=
  let text_lower := lower text in
  if contains text_lower (py "მახარებელ") then py "evangelist"
  else if contains text_lower (py "ეპისკოპოს") then py "bishop"
  else if contains text_lower (py "მღვდელ") then py "priest"
  else if contains text_lower (py "ბერ") then py "monk"
  else py "main".

Definition occupation_map : list (list N) :=
  [ py "evangelist"; py "bishop"; py "priest"; py "monk"; py "deacon"; py "ktitor" ].

(** Every key of [occupation_map] maps to itself. *)
Definition get_occupation_from_type (person_type : list N) : list N :=
  if str_in person_type occupation_map then person_type else [].

(** ** Free-text extraction *)

Definition patronymic_patterns : list re :=
  [ Grp 1 (Cat geo_plus (lits (py "შვილი") [py "სძე"; py "იძე"; py "ძე"]));
    Grp 1 (Cat geo_plus (Lit (py "ისშვილი")));
    Grp 1 (Cat geo_plus (Lit (py "ანისძე")));
    Grp 1 (Cat geo_plus (Lit (py "ეთ")));
    Grp 1 (Cat geo_plus (Lit (py "აეთ")));
    Grp 1 (Cat geo_plus (Lit (py "იეთ")));
    Grp 1 (Cat geo_plus (Lit (py "უეთ")));
    Grp 1 (Cat geo_plus (Lit (py "ანთ")));
    Grp 1 (Cat geo_plus (Lit (py "ინთ"))) ].

(** The nested [for] loops return at the first match that differs from
    the main name; [""] when there is none. *)
Definition extract_patronymic_from_text (text main_name : list N) : list N :=
  let candidates := flat_map (fun pattern => findall pattern text) patronymic_patterns in
  default [] (find (fun m => negb (str_eqb m main_name)) candidates).

Definition surname_patterns : list re :=
  [ Grp 1 (Cat geo_plus (Lit (py "ელი")));
    Grp 1 (Cat geo_plus (Lit (py "აძე")));
    Grp 1 (Cat geo_plus (Lit (py "ავაძე"))) ].

Definition extract_surname_from_text (text main_name patronymic : list N) : list N :=
  let candidates := flat_map (fun pattern => findall pattern text) surname_patterns in
  default [] (find (fun m => negb (str_eqb m main_name) && negb (str_eqb m patronymic)
                              && negb (is_patronymic m)) candidates).

Definition extract_main_person_from_text (text : list N) (entry : Entry) : Entry :=
  let georgian_names := findall geo_plus text in
  match georgian_names with
  | [] => entry
  | name0 :: _ =>
    let main := mainPerson entry in
    let ty := determine_person_type text in
    let patronymic := extract_patronymic_from_text text name0 in
    let surname := extract_surname_from_text text name0 patronymic in
    set_mainPerson entry
      (mkPerson (Some name0) (Some ty) (Some (get_occupation_from_type ty))
                (p_relationship main)
                (match patronymic with [] => p_patronymic main | _ => Some patronymic end)
                (match surname with [] => p_surname main | _ => Some surname end)
                (p_place main))
  end.

(** A kinship pattern: a Georgian run, optional blanks, the kinship word. *)
Definition kin_pattern (word : list N) : re :=
  seq (Grp 1 geo_plus) [ws_star; Lit word].

Definition family_patterns : list (re * list N * list N) :=
  [ (kin_pattern (py "მეუღლესა"), py "wife", py "მეუღლესა");
    (kin_pattern (py "მეუღლისა"), py "wife", py "მეუღლისა");
    (kin_pattern (py "შვილი"), py "son", py "შვილი");
    (kin_pattern (py "ასული"), py "daughter", py "ასული");
    (kin_pattern (py "ძმასა"), py "brother", py "ძმასა");
    (kin_pattern (py "დასა"), py "sister", py "დასა") ].

(** The person dictionary appended for a kinship match. *)
Definition family_member (name person_type relationship : list N) : Person :=
  mkPerson (Some name) (Some person_type) None (Some relationship) None None None.

(** One iteration of the inner loop of [extract_family_from_text]. *)
Definition family_step (person_type relationship : list N) (entry : Entry) (m : rmatch) : Entry :=
  let name := group m 1 in
  if negb (str_eqb name []) && ne_opt name (p_name (mainPerson entry)) then
    if is_patronymic name && str_in person_type [py "son"; py "daughter"] then entry
    else append_familyMember entry (family_member name person_type relationship)
  else entry.

Definition extract_family_from_text (text : list N) (entry : Entry) : Entry :=
  fold_left (fun entry '(pattern, person_type, relationship) =>
               fold_left (family_step person_type relationship) (finditer pattern text) entry)
            family_patterns entry.

Definition place_pattern : re :=
  seq (Lit (py "<placeName")) [not_gt_star; Lit (py ">"); Grp 1 geo_plus; Lit (py "</placeName>")].

Definition text_known_places : list (list N) :=
  [ py "მცხეთა"; py "თბილისი"; py "ქუთაისი"; py "ტბეთი" ].

Definition extract_places_from_text (text : list N) (entry : Entry) : Entry :=
  let entry :=
    fold_left (fun entry place => if is_actual_place place then add_place entry place else entry)
              (findall place_pattern text) entry in
  fold_left (fun entry place =>
               if contains text place && negb (str_in place (places entry))
               then add_place entry place else entry)
            text_known_places entry.

(** [[IVXivx]]. *)
Definition is_roman (c : N) : bool := existsb (N.eqb c) (py "IVXivx").

(** [f\.\s*([IVXivx]+[rv]?)]. *)
Definition folio_pattern : re :=
  seq (Lit (py "f.")) [ws_star;
    Grp 1 (Cat (Rep is_roman 1 true) (Opt (Cls (fun c => existsb (N.eqb c) (py "rv")))))].

(** [l\.\s*(\d+(?:-\d+)?)]. *)
Definition line_pattern : re :=
  seq (Lit (py "l.")) [ws_star;
    Grp 1 (Cat (Rep isdecimal 1 true) (Opt (Cat (Lit (py "-")) (Rep isdecimal 1 true))))].

(** [extract_manuscript_from_text]: defined twice with the same body. *)
Definition extract_manuscript_from_text (text : list N) (entry : Entry) : Entry :=
  let ms := manuscript entry in
  let ms := match search folio_pattern text with
            | Some folio_match =>
              mkManuscript (Some (group folio_match 1)) (Some (group folio_match 1)) (ms_line ms)
            | None => ms
            end in
  let ms := match search line_pattern text with
            | Some line_match => mkManuscript (ms_page ms) (ms_folio ms) (Some (group line_match 1))
            | None => ms
            end in
  set_manuscript entry ms.

(** The body of the [try] block of [parse_entry_from_text];
    [n_entries] is [len(self.entries)]. *)
Definition parse_entry_from_text_body (n_entries : nat) (content entry_num : list N) : res Entry :=
  entry_number ← (if isdigit entry_num then int_of_str entry_num
                   else Ok (Z.of_nat n_entries + 1)%Z);
  let entry := mkEntry (py "entry_" ++ format_03d entry_number) entry_number
                       empty_person [] (mkManuscript None None None) [] []
                       (clean_text (Some content)) [] in
  let entry := extract_main_person_from_text content entry in
  let entry := extract_family_from_text content entry in
  let entry := extract_places_from_text content entry in
  let entry := extract_manuscript_from_text content entry in
  Ok entry.

Definition parse_entry_from_text (n_entries : nat) (content entry_num : list N) : option Entry :=
  try_except (parse_entry_from_text_body n_entries content entry_num).

(** ** Element trees ([xml.etree.ElementTree]) *)

Module ET.

Inductive Element :=
| mkElement (tag : list N) (attrib : list (list N * list N))
            (text : option (list N)) (children : list Element)
            (tail : option (list N)).

Definition tag (e : Element) : list N := let 'mkElement t _ _ _ _ := e in t.
Definition attrib (e : Element) : list (list N * list N) := let 'mkElement _ a _ _ _ := e in a.
Definition text (e : Element) : option (list N) := let 'mkElement _ _ x _ _ := e in x.
Definition children (e : Element) : list Element := let 'mkElement _ _ _ c _ := e in c.
Definition tail (e : Element) : option (list N) := let 'mkElement _ _ _ _ x := e in x.

(** [elem.get(key)]. *)
Definition get (e : Element) (key : list N) : option (list N) :=
  snd <$> find (fun kv => str_eqb (fst kv) key) (attrib e).

(** [elem.iter()]: the element and its descendants in document order. *)
Fixpoint iter (e : Element) : list Element :=
  match e with
  | mkElement _ _ _ cs _ => e :: flat_map iter cs
  end.

(** [elem.findall('.//name')]: the descendants with that tag, in
    document order. *)
Definition findall (e : Element) (name : list N) : list Element :=
  List.filter (fun x => str_eqb (tag x) name) (flat_map iter (children e)).

(** [elem.itertext()], concatenated. *)
Fixpoint itertext (e : Element) : list N :=
  match e with
  | mkElement _ _ t cs _ =>
    default [] t ++ flat_map (fun c => itertext c ++ default [] (tail c)) cs
  end.

(** [ET.tostring(elem, encoding='unicode', method='text')]. *)
Definition tostring_text (e : Element) : list N := itertext e ++ default [] (tail e).

End ET.

(** ** Structured extraction *)

(** [parse_persons]; [i] is the index [enumerate] hands out. *)
Fixpoint parse_persons_from (i : nat) (person_elements : list ET.Element) (entry : Entry) : Entry :=
  match person_elements with
  | [] => entry
  | pers_elem :: rest =>
    let person_type := default (py "main") (ET.get pers_elem (py "type")) in
    let name_text := clean_text (Some (default [] (ET.text pers_elem))) in
    let person := mkPerson (Some name_text) (Some person_type)
                           (Some (get_occupation_from_type person_type))
                           (Some []) None None None in
    let entry := if str_eqb person_type (py "main") || (i =? 0)%nat
                 then set_mainPerson entry person
                 else append_familyMember entry person in
    parse_persons_from (S i) rest entry
  end.

Definition parse_persons (person_elements : list ET.Element) (entry : Entry) : Entry :=
  parse_persons_from 0 person_elements entry.

Definition parse_places (place_elements : list ET.Element) (entry : Entry) : Entry :=
  fold_left (fun entry place_elem =>
               let place_text := clean_text (Some (default [] (ET.text place_elem))) in
               match place_text with
               | [] => entry
               | _ => add_place entry place_text
               end)
            place_elements entry.

Definition parse_manuscript_refs (entry_elem : ET.Element) (entry : Entry) : Entry :=
  let ms := manuscript entry in
  let ms := fold_left (fun ms lb =>
                         let line_num := ET.get lb (py "n") in
                         if truthy line_num
                         then mkManuscript (ms_page ms) (ms_folio ms) line_num
                         else ms)
                      (ET.findall entry_elem (py "lb")) ms in
  let ms := fold_left (fun ms pb =>
                         let page_num := ET.get pb (py "n") in
                         if truthy page_num
                         then mkManuscript page_num page_num (ms_line ms)
                         else ms)
                      (ET.findall entry_elem (py "pb")) ms in
  set_manuscript entry ms.

(** The body of the [try] block of [parse_entry_element].  The entry number
    is the attribute string (or [str(fallback_number)]), and the fallback
    identifier formats that string with [:03d]. *)
Definition parse_entry_element_body (entry_elem : ET.Element) (fallback_number : Z) : res Entry :=
  let entry_number := default (str_of_int fallback_number) (ET.get entry_elem (py "n")) in
  entry_id ← (if truthy (ET.get entry_elem (py "id"))
               then Ok (default [] (ET.get entry_elem (py "id")))
               else fmt ← format_03d_str entry_number; Ok (py "entry_" ++ fmt));
  number ← (if isdigit entry_number then int_of_str entry_number else Ok fallback_number);
  let entry := mkEntry entry_id number empty_person [] (mkManuscript None None None)
                       [] [] [] [] in
  let full_text := ET.tostring_text entry_elem in
  let entry := mkEntry (entryId entry) (entryNumber entry) (mainPerson entry)
                       (familyMembers entry) (manuscript entry) (edition entry)
                       (dates entry) (clean_text (Some full_text)) (places entry) in
  let entry := parse_persons (ET.findall entry_elem (py "persName")) entry in
  let entry := parse_places (ET.findall entry_elem (py "placeName")) entry in
  let entry := parse_manuscript_refs entry_elem entry in
  let entry := if truthy (p_name (mainPerson entry)) then entry
               else extract_main_person_from_text (notes entry) entry in
  Ok entry.

Definition parse_entry_element (entry_elem : ET.Element) (fallback_number : Z) : option Entry :=
  try_except (parse_entry_element_body entry_elem fallback_number).

(** ** Parser state and statistics *)

Record Statistics := mkStatistics {
  total_entries : Z;
  total_persons : Z;
  unique_surnames : gset (list N);
  stat_places : gset (list N);
  occupations : gset (list N)
}.

Record Parser := mkParser {
  entries : list Entry;
  statistics : Statistics
}.

(** [TbetiTEIParser()]. *)
Definition init : Parser := mkParser [] (mkStatistics 0 0 ∅ ∅ ∅).

Definition add_all (xs : list (list N)) (s : gset (list N)) : gset (list N) :=
  fold_left (fun s x => {[ x ]} ∪ s) xs s.

Definition add_if_truthy (v : option (list N)) (s : gset (list N)) : gset (list N) :=
  if truthy v then {[ default [] v ]} ∪ s else s.

(** The class body defines [calculate_statistics] twice; the second
    definition replaces the first, so this is the method every call
    reaches. *)
Definition calculate_statistics (self : Parser) : Parser :=
  let st := statistics self in
  let st := mkStatistics (Z.of_nat (List.length (entries self))) (total_persons st)
                         (unique_surnames st) (stat_places st) (occupations st) in
  mkParser (entries self)
    (fold_left (fun st entry =>
                  mkStatistics (total_entries st)
                    (total_persons st + (1 + Z.of_nat (List.length (familyMembers entry))))%Z
                    (unique_surnames st)
                    (add_all (places entry) (stat_places st))
                    (add_if_truthy (p_occupation (mainPerson entry)) (occupations st)))
               (entries self) st).

(** The first definition of [calculate_statistics], which the second one
    shadows. *)
Definition calculate_statistics_shadowed (self : Parser) : Parser :=
  let st := statistics self in
  let st := mkStatistics (Z.of_nat (List.length (entries self))) (total_persons st)
                         (unique_surnames st) (stat_places st) (occupations st) in
  mkParser (entries self)
    (fold_left (fun st entry =>
                  mkStatistics (total_entries st)
                    (total_persons st + (1 + Z.of_nat (List.length (familyMembers entry))))%Z
                    (add_if_truthy (p_patronymic (mainPerson entry))
                       (add_if_truthy (p_surname (mainPerson entry)) (unique_surnames st)))
                    (add_all (List.filter is_actual_place (places entry)) (stat_places st))
                    (add_if_truthy (p_occupation (mainPerson entry)) (occupations st)))
               (entries self) st).

(** ** Document level *)

Definition tei_entry_tag : list N := py "{http://www.tei-c.org/ns/1.0}entry".

(** The three ways [parse_xml_tree] looks for entry elements. *)
Definition locate_entries (root : ET.Element) : list ET.Element :=
  match ET.findall root tei_entry_tag with
  | (_ :: _) as found => found
  | [] =>
    match ET.findall root (py "entry") with
    | (_ :: _) as found => found
    | [] =>
      List.filter (fun elem => truthy (ET.get elem (py "n")) && endswith (ET.tag elem) (py "entry"))
                  (ET.iter root)
    end
  end.

(** The [for i, entry_elem in enumerate(entries)] loop. *)
Fixpoint parse_entries_from (i : nat) (elems : list ET.Element) (acc : list Entry) : list Entry :=
  match elems with
  | [] => acc
  | entry_elem :: rest =>
    match parse_entry_element entry_elem (Z.of_nat i + 1) with
    | Some entry => parse_entries_from (S i) rest (acc ++ [entry])
    | None => parse_entries_from (S i) rest acc
    end
  end.

Definition parse_xml_tree (root : ET.Element) (self : Parser) : Parser :=
  let found := locate_entries root in
  calculate_statistics
    (mkParser (parse_entries_from 0 found (entries self)) (statistics self)).

(** [<entry[^>]*n="(\d+)"[^>]*>(.*?)</entry>] with [re.DOTALL]. *)
Definition entry_pattern : re :=
  seq (Lit (py "<entry"))
      [ not_gt_star; Lit (py "n=" ++ [34]); Grp 1 (Rep isdecimal 1 true); Lit [34];
        not_gt_star; Lit (py ">"); Grp 2 (Rep (fun _ => true) 0 false);
        Lit (py "</entry>") ].

(** [[^\n]*]. *)
Definition line_rest : re := Rep (fun c => negb (c =? 10)) 0 true.

Definition georgian_pattern : re :=
  seq (Cls is_geo)
      [ line_rest;
        lits (py "მეუღლე") [py "შვილი"; py "ასული"; py "ძმა"; py "და"];
        line_rest ].

(** The second tier's loop, numbering the matches from one. *)
Fixpoint parse_blocks_from (n_entries : nat) (i : nat) (ms : list rmatch) : list Entry :=
  match ms with
  | [] => []
  | m :: rest =>
    match parse_entry_from_text n_entries (group m 0) (str_of_int (Z.of_nat i + 1)) with
    | Some entry => entry :: parse_blocks_from n_entries (S i) rest
    | None => parse_blocks_from n_entries (S i) rest
    end
  end.

Definition extract_from_text (xml_content : list N) (self : Parser) : Parser :=
  let n_entries := List.length (entries self) in
  let found :=
    omap (fun m => parse_entry_from_text n_entries (group m 2) (group m 1))
         (finditer entry_pattern xml_content) in
  let found :=
    match found with
    | [] => parse_blocks_from n_entries 0 (finditer georgian_pattern xml_content)
    | _ => found
    end in
  calculate_statistics (mkParser found (statistics self)).

(** What [parse_xml_file] finds at the path: a document the XML parser
    accepts, a document it rejects (the raw text is read again), or no
    file. *)
Inductive xml_source :=
| WellFormed (root : ET.Element)
| Malformed (xml_content : list N)
| Missing.

(** [parse_xml_file]: the parser after the call (the method returns its
    [entries], or the empty list when the file is missing). *)
Definition parse_xml_file (src : xml_source) (self : Parser) : Parser :=
  match src with
  | WellFormed root => parse_xml_tree root self
  | Malformed xml_content => extract_from_text xml_content self
  | Missing => self
  end.

(** ** Notions used in the proofs about [clean_text] *)

(** Two strings clash when they differ at a position both have. *)
Fixpoint clash (a b : list N) : bool :=
  match a, b with
  | x :: a', y :: b' => negb (x =? y) || clash a' b'
  | _, _ => false
  end.

(** [q] cannot overlap a copy of [r]: no occurrence of [q] starts inside
    [r], and none that starts before [r] runs into it. *)
Definition no_overlap (q r : list N) : bool :=
  forallb (fun i => clash (drop i r) q) (List.seq 0 (List.length r))
  && forallb (fun k => clash (drop k q) r) (List.seq 0 (List.length q)).

(** Every blank is a single U+0020; [prev] tells whether the code point
    before the string is a blank. *)
Fixpoint single_spaced (prev : bool) (s : list N) : bool :=
  match s with
  | [] => true
  | c :: s' =>
    if isspace c then (c =? 32) && negb prev && single_spaced true s'
    else single_spaced false s'
  end.

(** The steps of [clean_text] before the final [strip]. *)
Definition expand (text : list N) : list N :=
  fold_left (fun t ab => sub (Lit (fst ab)) (snd ab) t) abbreviations
            (sub (Rep isspace 1 true) (py " ") (sub (Cls is_artifact) [] text)).

(** ** Sample documents *)

(** [<entry ...><persName type="bishop">X</persName>
    <persName type="daughter">Y</persName><pb n="IIIv"/></entry>] with
    the given attributes on the entry element. *)
Definition scenario_entry (attrs : list (list N * list N)) : ET.Element :=
  ET.mkElement (py "entry") attrs None
    [ ET.mkElement (py "persName") [(py "type", py "bishop")] (Some (py "X")) [] None;
      ET.mkElement (py "persName") [(py "type", py "daughter")] (Some (py "Y")) [] None;
      ET.mkElement (py "pb") [(py "n", py "IIIv")] None [] None ]
    None.

(** An entry whose son carries the main person's name. *)
Definition namesake_entry : ET.Element :=
  ET.mkElement (py "entry") [(py "n", py "1"); (py "id", py "e1")] None
    [ ET.mkElement (py "persName") [(py "type", py "main")] (Some (py "გიორგი")) [] None;
      ET.mkElement (py "persName") [(py "type", py "son")] (Some (py "გიორგი")) [] None ]
    None.

(** An entry that names the same place in two nodes. *)
Definition two_places_entry : ET.Element :=
  ET.mkElement (py "entry") [(py "n", py "1"); (py "id", py "e1")] None
    [ ET.mkElement (py "persName") [] (Some (py "გიორგი")) [] None;
      ET.mkElement (py "placeName") [] (Some (py "ოშკი")) [] None;
      ET.mkElement (py "placeName") [] (Some (py "ოშკი")) [] None ]
    None.

(** A well-formed document around one entry element. *)
Definition tei_document (entry_elem : ET.Element) : ET.Element :=
  ET.mkElement (py "TEI") [] None [entry_elem] None.

(** Three entry elements, the second without an [id] attribute. *)
Definition three_entries_document : ET.Element :=
  ET.mkElement (py "TEI") [] None
    [ ET.mkElement (py "entry") [(py "id", py "a")] None
        [ ET.mkElement (py "persName") [] (Some (py "ნინო")) [] None ] None;
      ET.mkElement (py "entry") [(py "n", py "2")] None [] None;
      ET.mkElement (py "entry") [(py "id", py "c")] None
        [ ET.mkElement (py "persName") [] (Some (py "იოანე")) [] None ] None ]
    None.

(** A document the XML parser rejects (the first tag is never closed),
    with one literal entry span. *)
Definition surname_document : list N :=
  py "<TEI><entry n=" ++ [34] ++ py "1" ++ [34] ++ py ">გიორგი მცხეთელი</entry>".

Definition two_fragments_document : list N :=
  py "<TEI><entry n=" ++ [34] ++ py "1" ++ [34]
  ++ py ">გიორგი <placeName>ოშკი</placeName> <placeName>ოშკი</placeName></entry>".

(** ** Notions used to state further properties *)

(** The patronymic endings that are not themselves extensions of another
    ending of the list. *)
Definition minimal_patronymic_endings : list (list N) :=
  [ py "შვილი"; py "ძე"; py "ეთ"; py "ეთი"; py "ანთ"; py "ინთ" ].

(** No blank at either end. *)
Definition no_edge_blank (s : list N) : bool :=
  match head s with Some c => negb (isspace c) | None => true end
  && match last s with Some c => negb (isspace c) | None => true end.

(** The normal form of texts: no markup artifact, single blanks only, no
    unexpanded abbreviation, no blank at either end. *)
Definition is_clean (s : list N) : bool :=
  forallb (fun c => negb (is_artifact c)) s
  && single_spaced false s
  && forallb (fun ab => negb (contains s (fst ab))) abbreviations
  && no_edge_blank s.

(** Two person dictionaries that agree on every key but [place]. *)
Definition same_but_place (p q : Person) : Prop := set_place p [] = set_place q [].

(** The main person's place is the first recorded place, and no recorded
    place is the empty string. *)
Definition place_inv (e : Entry) : Prop :=
  p_place (mainPerson e) = head (places e) /\ Forall (fun p => p <> []) (places e).

(** [e'] is [e] with places added: only [places] and the main person's
    [place] may differ. *)
Definition place_frame (e e' : Entry) : Prop :=
  exists main pl,
    e' = mkEntry (entryId e) (entryNumber e) main (familyMembers e) (manuscript e)
                 (edition e) (dates e) (notes e) pl
    /\ same_but_place main (mainPerson e).

(** What every entry keeps, whichever path built it. *)
Definition entry_inv (e : Entry) : Prop :=
  place_inv e
  /\ ms_page (manuscript e) = ms_folio (manuscript e)
  /\ is_clean (notes e) = true
  /\ edition e = [] /\ dates e = [].

(** The dictionary [parse_persons] builds for one person node. *)
Definition person_of_element (pers_elem : ET.Element) : Person :=
  let person_type := default (py "main") (ET.get pers_elem (py "type")) in
  mkPerson (Some (clean_text (Some (default [] (ET.text pers_elem))))) (Some person_type)
           (Some (get_occupation_from_type person_type)) (Some []) None None None.

(** A person node typed [main], or without a [type] attribute. *)
Definition typed_main (pers_elem : ET.Element) : bool :=
  str_eqb (default (py "main") (ET.get pers_elem (py "type"))) (py "main").

(** An entry element numbered with a superscript two. *)
Definition superscript_entry : ET.Element :=
  ET.mkElement (py "entry") [(py "n", [0xb2]); (py "id", py "e2")] None
    [ ET.mkElement (py "persName") [] (Some (py "ნინო")) [] None ] None.

(** A text without markup: two lines that each name a relative. *)
Definition two_lines_document : list N :=
  py "გიორგი და ნინო" ++ [10] ++ py "იოანე ძმა".

(** * Properties *)

#[global] Arguments py : simpl never.
#[global] Arguments clean_text : simpl never.
#[global] Arguments parse_persons : simpl never.
#[global] Arguments parse_places : simpl never.
#[global] Arguments parse_manuscript_refs : simpl never.
#[global] Arguments extract_main_person_from_text : simpl never.
#[global] Arguments extract_family_from_text : simpl never.
#[global] Arguments extract_places_from_text : simpl never.
#[global] Arguments extract_manuscript_from_text : simpl never.
#[global] Arguments ET.findall : simpl never.
#[global] Arguments ET.tostring_text : simpl never.
#[global] Arguments isdigit : simpl never.
#[global] Arguments int_of_str : simpl never.
#[global] Arguments format_03d : simpl never.

(** ** The model on small inputs *)

Example decode_georgian : py "ძე" = [0x10eb; 0x10d4].
Proof. reflexivity. Qed.

Example format_03d_5 : format_03d 5 = py "005".
Proof. reflexivity. Qed.

Example int_of_str_arabic_indic : int_of_str [0x663] = Ok 3%Z.
Proof. reflexivity. Qed.

(** [str.isdigit] accepts the superscript two, [int] does not. *)
Example int_of_str_superscript : isdigit [0xb2] = true /\ int_of_str [0xb2] = Raise ValueError.
Proof. split; reflexivity. Qed.

(** The greedy run gives back code points until the kinship word fits. *)
Example kin_pattern_backtracks :
  map (fun m => group m 1) (finditer (kin_pattern (py "შვილი")) (py "დავითშვილი, ნინო  შვილი"))
  = [py "დავით"; py "ნინო"].
Proof. vm_compute. reflexivity. Qed.

Example patronymic_alternatives :
  Re.findall (Grp 1 (Cat geo_plus (lits (py "შვილი") [py "სძე"; py "იძე"; py "ძე"])))
             (py "გიორგიძე და ნინოშვილი")
  = [py "გიორგიძე"; py "ნინოშვილი"].
Proof. vm_compute. reflexivity. Qed.

Example entry_pattern_groups :
  map (fun m => (group m 1, group m 2))
      (finditer entry_pattern
                (py "<entry id='a' n=" ++ [34] ++ py "12" ++ [34] ++ py " x='y'>a<b>c</b></entry>"))
  = [(py "12", py "a<b>c</b>")].
Proof. vm_compute. reflexivity. Qed.

Example folio_and_line :
  (fun m => group m 1) <$> search folio_pattern (py "see f. IIIv, l. 12-14")
  = Some (py "IIIv")
  /\ (fun m => group m 1) <$> search line_pattern (py "see f. IIIv, l. 12-14")
     = Some (py "12-14").
Proof. split; vm_compute; reflexivity. Qed.

Example clean_text_sample :
  clean_text (Some (py "  {ს(ულს)ა}   [შ(ეუნდვე)ნ]  ღ(მერთმა)ნ ")) = py "სულსა შეუნდვენ ღმერთმან".
Proof. vm_compute. reflexivity. Qed.

Example tostring_text_order :
  ET.tostring_text
    (ET.mkElement (py "entry") [] (Some (py "a"))
       [ ET.mkElement (py "persName") [] (Some (py "b"))
           [ ET.mkElement (py "pb") [] None [] (Some (py "c")) ] (Some (py "d"));
         ET.mkElement (py "placeName") [] (Some (py "e")) [] None ]
       (Some (py "f")))
  = py "abcdef".
Proof. vm_compute. reflexivity. Qed.

(** The third way of finding entries looks at the root as well. *)
Example locate_entries_by_suffix :
  map ET.tag
      (locate_entries
         (ET.mkElement (py "subentry") [(py "n", py "1")] None
            [ ET.mkElement (py "xentry") [(py "n", py "")] None [] None;
              ET.mkElement (py "x:entry") [(py "n", py "2")] None [] None ] None))
  = [py "subentry"; py "x:entry"].
Proof. vm_compute. reflexivity. Qed.

(** ** Strings *)

Lemma str_eqb_eq (a b : list N) : str_eqb a b = true <-> a = b.
Proof.
  revert b; induction a as [|x a IH]; intros [|y b]; simpl; try (split; congruence).
  rewrite andb_true_iff, N.eqb_eq, IH. split.
  - intros [-> ->]; reflexivity.
  - intros [= -> ->]; auto.
Qed.

Lemma str_eqb_refl (a : list N) : str_eqb a a = true.
Proof. apply str_eqb_eq; reflexivity. Qed.

Lemma str_eqb_neq (a b : list N) : str_eqb a b = false <-> a <> b.
Proof.
  rewrite <- str_eqb_eq. destruct (str_eqb a b); split; congruence.
Qed.

Lemma str_in_In (x : list N) (l : list (list N)) : str_in x l = true <-> In x l.
Proof.
  unfold str_in. rewrite existsb_exists. split.
  - intros (y & Hy & E). apply str_eqb_eq in E. subst. assumption.
  - intros H. exists x. split; [assumption | apply str_eqb_refl].
Qed.

Lemma str_in_not_In (x : list N) (l : list (list N)) : str_in x l = false <-> ~ In x l.
Proof.
  rewrite <- str_in_In. destruct (str_in x l); split; congruence.
Qed.

Lemma ne_opt_true (a : list N) (v : option (list N)) : ne_opt a v = true <-> v <> Some a.
Proof.
  destruct v as [b|]; simpl.
  - rewrite negb_true_iff, str_eqb_neq. split; congruence.
  - split; [discriminate | reflexivity].
Qed.

(** ** Morphological classifier *)

(** C3: a token that [is_patronymic] accepts is never an actual place. *)
Theorem C3_patronymic_not_place (t : list N) :
  is_patronymic t = true -> is_actual_place t = false.
Proof.
  unfold is_patronymic, is_actual_place. intros ->. reflexivity.
Qed.

(** The allow-listed name ტბეთი is such a token. *)
Lemma C3_patronymic_not_place_witness :
  is_patronymic (py "ტბეთი") = true /\ is_actual_place (py "ტბეთი") = false.
Proof.
  split; [reflexivity | apply (C3_patronymic_not_place (py "ტბეთი")); reflexivity].
Defined.

(** C10: [is_actual_place] holds for exactly the eleven allow-listed names
    that end in no patronymic or surname suffix, and fails for the five
    allow-listed names that end in the patronymic suffix ეთი. *)
Theorem C10_actual_places :
  (forall name : list N,
      is_actual_place name = true <->
      In name [ py "მცხეთა"; py "თბილისი"; py "ქუთაისი"; py "ბათუმი"; py "ხანი";
                py "სამეგრელო"; py "გურია"; py "აჭარა"; py "ტაო"; py "ოშკი";
                py "ხახული" ])
  /\ Forall (fun name => In name known_places /\ endswith name (py "ეთი") = true
                         /\ is_actual_place name = false)
            [ py "სვანეთი"; py "იმერეთი"; py "კახეთი"; py "კლარჯეთი"; py "ტბეთი" ].
Proof.
  split.
  - intros name. rewrite <- str_in_In. split.
    + unfold is_actual_place.
      destruct (existsb _ patronymic_endings) eqn:P; [discriminate|].
      destruct (existsb _ surname_endings) eqn:S; [discriminate|].
      destruct (str_in name known_places) eqn:K; [|discriminate].
      intros _. apply str_in_In in K.
      assert (A : Forall (fun n => is_actual_place n = true ->
                                   str_in n [ py "მცხეთა"; py "თბილისი"; py "ქუთაისი";
                                              py "ბათუმი"; py "ხანი"; py "სამეგრელო";
                                              py "გურია"; py "აჭარა"; py "ტაო"; py "ოშკი";
                                              py "ხახული" ] = true) known_places).
      { unfold known_places.
        repeat (constructor; [vm_compute; intros E; first [reflexivity | discriminate E]|]).
        constructor. }
      rewrite Forall_forall in A. apply (A name).
      * apply list_elem_of_In. exact K.
      * unfold is_actual_place. rewrite P, S.
        apply str_in_In in K. rewrite K. reflexivity.
    + intros H. apply str_in_In in H.
      repeat (destruct H as [H|H]; [subst name; vm_compute; reflexivity|]).
      destruct H.
  - repeat (constructor; [vm_compute; repeat split; tauto|]). constructor.
Qed.

(** ** Structured extraction *)

Lemma truthy_Some (v : option (list N)) :
  truthy v = true -> exists x, v = Some x /\ x <> [].
Proof.
  destruct v as [[|c x]|]; simpl; try discriminate.
  intros _. exists (c :: x). split; [reflexivity | discriminate].
Qed.

(** Without a usable [id] attribute the [try] block raises at the
    formatted fallback identifier. *)
Lemma parse_entry_element_body_no_id (entry_elem : ET.Element) (fallback_number : Z) :
  truthy (ET.get entry_elem (py "id")) = false ->
  parse_entry_element_body entry_elem fallback_number = Raise ValueError.
Proof.
  intros H. unfold parse_entry_element_body. rewrite H. reflexivity.
Qed.

Lemma entryId_extract_main_person_from_text (text : list N) (entry : Entry) :
  entryId (extract_main_person_from_text text entry) = entryId entry.
Proof.
  unfold extract_main_person_from_text.
  destruct (Re.findall geo_plus text); reflexivity.
Qed.

Lemma entryId_parse_manuscript_refs (entry_elem : ET.Element) (entry : Entry) :
  entryId (parse_manuscript_refs entry_elem entry) = entryId entry.
Proof. reflexivity. Qed.

Lemma entryId_parse_places (place_elements : list ET.Element) (entry : Entry) :
  entryId (parse_places place_elements entry) = entryId entry.
Proof.
  unfold parse_places. revert entry.
  induction place_elements as [|x l IH]; intros entry; simpl; [reflexivity|].
  rewrite IH. destruct (clean_text _); reflexivity.
Qed.

Lemma entryId_parse_persons_from (person_elements : list ET.Element) (i : nat) (entry : Entry) :
  entryId (parse_persons_from i person_elements entry) = entryId entry.
Proof.
  revert i entry.
  induction person_elements as [|x l IH]; intros i entry; simpl; [reflexivity|].
  rewrite IH. destruct (_ || _); reflexivity.
Qed.

(** An entry that comes out of [parse_entry_element] carries the [id]
    attribute of its element as [entryId]. *)
Lemma parse_entry_element_Some_id (entry_elem : ET.Element) (fallback_number : Z) (entry : Entry) :
  parse_entry_element entry_elem fallback_number = Some entry ->
  exists v, ET.get entry_elem (py "id") = Some v /\ v <> [] /\ entryId entry = v.
Proof.
  unfold parse_entry_element. intros H.
  destruct (truthy (ET.get entry_elem (py "id"))) eqn:T.
  - destruct (truthy_Some _ T) as (v & Hv & Hne).
    exists v. split; [exact Hv|]. split; [exact Hne|].
    unfold parse_entry_element_body in H. rewrite T, Hv in H.
    cbn [mbind res_bind default] in H.
    destruct (if isdigit _ then _ else _) as [number|ex];
      cbn [mbind res_bind try_except] in H; [|discriminate].
    injection H as <-.
    match goal with |- entryId (if ?c then _ else _) = _ => destruct c end;
      rewrite ?entryId_extract_main_person_from_text, entryId_parse_manuscript_refs,
              entryId_parse_places;
      unfold parse_persons; rewrite entryId_parse_persons_from; reflexivity.
  - rewrite (parse_entry_element_body_no_id _ _ T) in H. discriminate.
Qed.

(** The loop of [parse_xml_tree] keeps exactly the entries that parsed. *)
Lemma parse_entries_from_spec (elems : list ET.Element) (i : nat) (acc : list Entry) :
  parse_entries_from i elems acc =
  acc ++ omap id (imap (fun j el => parse_entry_element el (Z.of_nat (i + j) + 1)) elems).
Proof.
  revert i acc. induction elems as [|el elems IH]; intros i acc; simpl.
  - rewrite app_nil_r. reflexivity.
  - rewrite Nat.add_0_r.
    assert (E : imap ((fun j el => parse_entry_element el (Z.of_nat (i + j) + 1)) ∘ S) elems
                = imap (fun j el => parse_entry_element el (Z.of_nat (S i + j) + 1)) elems).
    { apply imap_ext. intros j x _. simpl. rewrite Nat.add_succ_r. reflexivity. }
    rewrite E.
    destruct (parse_entry_element el (Z.of_nat i + 1)) as [entry|]; simpl.
    + rewrite IH, <- app_assoc. reflexivity.
    + apply IH.
Qed.

Lemma entries_calculate_statistics (self : Parser) :
  entries (calculate_statistics self) = entries self.
Proof. reflexivity. Qed.

(** C9: an entry element without an [id] attribute is dropped, so every
    entry that [parse_entry_element] returns, and every entry that
    [parse_xml_tree] adds to the collection, comes from an element that
    carries one. *)
Theorem C9_entry_without_id_dropped :
  (forall (entry_elem : ET.Element) (fallback_number : Z),
      ET.get entry_elem (py "id") = None ->
      parse_entry_element_body entry_elem fallback_number = Raise ValueError
      /\ parse_entry_element entry_elem fallback_number = None)
  /\ (forall (entry_elem : ET.Element) (fallback_number : Z) (entry : Entry),
         parse_entry_element entry_elem fallback_number = Some entry ->
         exists v, ET.get entry_elem (py "id") = Some v /\ entryId entry = v)
  /\ (forall (root : ET.Element) (self : Parser),
         exists added : list Entry,
           entries (parse_xml_tree root self) = entries self ++ added
           /\ Forall (fun entry => exists entry_elem v,
                          In entry_elem (locate_entries root)
                          /\ ET.get entry_elem (py "id") = Some v
                          /\ entryId entry = v) added).
Proof.
  split; [|split].
  - intros entry_elem fallback_number H.
    assert (B : parse_entry_element_body entry_elem fallback_number = Raise ValueError).
    { apply parse_entry_element_body_no_id. rewrite H. reflexivity. }
    split; [exact B|]. unfold parse_entry_element. rewrite B. reflexivity.
  - intros entry_elem fallback_number entry H.
    destruct (parse_entry_element_Some_id _ _ _ H) as (v & Hv & _ & E).
    exists v. split; assumption.
  - intros root self. unfold parse_xml_tree.
    rewrite entries_calculate_statistics. simpl.
    rewrite parse_entries_from_spec. eexists. split; [reflexivity|].
    apply Forall_forall. intros entry Hin.
    apply list_elem_of_omap in Hin. destruct Hin as (o & Ho & Hid).
    simpl in Hid. subst o.
    apply elem_of_lookup_imap in Ho. destruct Ho as (j & el & Hp & Hl).
    symmetry in Hp.
    destruct (parse_entry_element_Some_id _ _ _ Hp) as (v & Hv & _ & E).
    exists el, v. split; [|split; assumption].
    apply list_elem_of_In. eapply list_elem_of_lookup_2. exact Hl.
Qed.

(** The scenario entry without an [id] attribute is dropped. *)
Lemma C9_entry_without_id_dropped_witness :
  parse_entry_element (scenario_entry [(py "n", py "5")]) 1%Z = None.
Proof.
  apply (proj1 C9_entry_without_id_dropped (scenario_entry [(py "n", py "5")]) 1%Z).
  vm_compute. reflexivity.
Defined.

(** C1, on the scenario's entry element as the claim describes it (ordinal
    5, a bishop, a daughter, a page break, no [id] attribute):
    [parse_entry_element] raises inside its [try] block and returns
    [None], whatever the positional fallback number. *)
Theorem C1_scenario_entry_is_skipped (fallback_number : Z) :
  parse_entry_element_body (scenario_entry [(py "n", py "5")]) fallback_number
  = Raise ValueError
  /\ parse_entry_element (scenario_entry [(py "n", py "5")]) fallback_number = None.
Proof.
  assert (B : parse_entry_element_body (scenario_entry [(py "n", py "5")]) fallback_number
              = Raise ValueError).
  { apply parse_entry_element_body_no_id. vm_compute. reflexivity. }
  split; [exact B|]. unfold parse_entry_element. rewrite B. reflexivity.
Qed.

(** The same scenario with an [id] attribute on the entry element yields
    the entry the scenario expects. *)
Lemma scenario_entry_with_id :
  exists entry,
    parse_entry_element (scenario_entry [(py "n", py "5"); (py "id", py "e5")]) 1%Z = Some entry
    /\ entryNumber entry = 5%Z
    /\ p_name (mainPerson entry) = Some (py "X")
    /\ p_occupation (mainPerson entry) = Some (py "bishop")
    /\ map (fun p => (p_type p, p_name p)) (familyMembers entry)
       = [(Some (py "daughter"), Some (py "Y"))]
    /\ ms_page (manuscript entry) = Some (py "IIIv").
Proof.
  eexists. split; [vm_compute; reflexivity|].
  vm_compute. repeat split; reflexivity.
Qed.

(** C8: a fault inside one entry's parse turns into [None] for that entry
    alone; the collection gains exactly the entries of the elements that
    parsed, in document order, each under its own positional number. *)
Theorem C8_entry_faults_are_isolated :
  (forall (entry_elem : ET.Element) (fallback_number : Z) (ex : exn),
      parse_entry_element_body entry_elem fallback_number = Raise ex ->
      parse_entry_element entry_elem fallback_number = None)
  /\ (forall (root : ET.Element) (self : Parser),
         entries (parse_xml_tree root self) =
         entries self ++
         omap id (imap (fun i entry_elem => parse_entry_element entry_elem (Z.of_nat i + 1))
                       (locate_entries root)))
  /\ (forall (root : ET.Element) (self : Parser) (i : nat)
             (entry_elem : ET.Element) (entry : Entry),
         locate_entries root !! i = Some entry_elem ->
         parse_entry_element entry_elem (Z.of_nat i + 1) = Some entry ->
         In entry (entries (parse_xml_tree root self))).
Proof.
  assert (S : forall root self,
             entries (parse_xml_tree root self) =
             entries self ++
             omap id (imap (fun i entry_elem => parse_entry_element entry_elem (Z.of_nat i + 1))
                           (locate_entries root))).
  { intros root self. unfold parse_xml_tree.
    rewrite entries_calculate_statistics. simpl.
    rewrite parse_entries_from_spec. reflexivity. }
  split; [|split].
  - intros entry_elem fallback_number ex H. unfold parse_entry_element.
    rewrite H. reflexivity.
  - exact S.
  - intros root self i entry_elem entry Hl Hp. rewrite S.
    apply list_elem_of_In, elem_of_app. right.
    apply list_elem_of_omap. exists (Some entry). split; [|reflexivity].
    apply elem_of_lookup_imap. exists i, entry_elem. split; [symmetry; exact Hp | exact Hl].
Qed.

(** The entry between two good ones fails; the third keeps its positional
    number. *)
Lemma C8_entry_faults_are_isolated_witness :
  parse_entry_element (ET.mkElement (py "entry") [(py "n", py "2")] None [] None) 2 = None
  /\ exists entry3,
      parse_entry_element
        (ET.mkElement (py "entry") [(py "id", py "c")] None
           [ ET.mkElement (py "persName") [] (Some (py "იოანე")) [] None ] None) 3
      = Some entry3
      /\ entryNumber entry3 = 3%Z
      /\ In entry3 (entries (parse_xml_tree three_entries_document init)).
Proof.
  split; [vm_compute; reflexivity|].
  eexists. split; [vm_compute; reflexivity|]. split; [reflexivity|].
  apply (proj2 (proj2 C8_entry_faults_are_isolated) three_entries_document init 2%nat
               (ET.mkElement (py "entry") [(py "id", py "c")] None
                  [ ET.mkElement (py "persName") [] (Some (py "იოანე")) [] None ] None)).
  - vm_compute. reflexivity.
  - vm_compute. reflexivity.
Defined.

(** ** Regular expressions *)

(** A greedy repetition that matches hands the continuation a run of at
    least [min] repetitions. *)
Lemma rep_greedy_Some (p : N -> bool) (min : nat) (k : list N -> nat -> option (nat * caps))
      (s : list N) (n pos : nat) (r : nat * caps) :
  rep_greedy p min k n s pos = Some r ->
  exists j, (min <= n + j)%nat /\ k (drop j s) (pos + j)%nat = Some r.
Proof.
  revert n pos. induction s as [|c s IH]; intros n pos; simpl.
  - destruct (min <=? n)%nat eqn:E; [|discriminate].
    intros H. exists 0%nat. apply Nat.leb_le in E.
    rewrite !Nat.add_0_r. split; [exact E | exact H].
  - assert (Here : (if (min <=? n)%nat then k (c :: s) pos else None) = Some r ->
                   exists j, (min <= n + j)%nat /\ k (drop j (c :: s)) (pos + j)%nat = Some r).
    { destruct (min <=? n)%nat eqn:E; [|discriminate].
      intros H. exists 0%nat. apply Nat.leb_le in E.
      rewrite !Nat.add_0_r. split; [exact E | exact H]. }
    destruct (p c); [|exact Here].
    destruct (rep_greedy p min k (S n) s (S pos)) as [r'|] eqn:R; [|exact Here].
    intros [= ->]. destruct (IH _ _ R) as (j & Hj & Hk).
    exists (S j). simpl. rewrite !Nat.add_succ_r. split; [exact Hj | exact Hk].
Qed.

(** Every match [finditer] reports was found by [match_at] at some
    non-empty suffix of the text. *)
Lemma finditer_aux_In (r : re) (s : list N) (skip : nat) (m : rmatch) :
  In m (finditer_aux r skip s) ->
  exists s' len cs, s' <> [] /\ match_at r s' = Some (len, cs) /\ m = mkMatch (take len s') cs.
Proof.
  revert skip. induction s as [|c s IH]; intros skip; simpl; [tauto|].
  destruct skip as [|k]; [|apply IH].
  destruct (match_at r (c :: s)) as [[len cs]|] eqn:M; [|apply IH].
  intros [<-|H]; [|exact (IH _ H)].
  exists (c :: s), len, cs. split; [discriminate|]. split; [exact M | reflexivity].
Qed.


(** ** Free-text extraction: family members *)

(** What one pass over a pattern's matches leaves untouched, and what it
    guarantees about the persons it appends. *)
Lemma family_step_fold (person_type relationship : list N) (ms : list rmatch) (entry : Entry) :
  let entry' := fold_left (family_step person_type relationship) ms entry in
  mainPerson entry' = mainPerson entry
  /\ places entry' = places entry
  /\ exists added,
      familyMembers entry' = familyMembers entry ++ added
      /\ Forall (fun f => exists name, p_name f = Some name
                                      /\ p_name (mainPerson entry) <> Some name) added
      /\ forall m, In m ms ->
           group m 1 <> [] ->
           p_name (mainPerson entry) <> Some (group m 1) ->
           is_patronymic (group m 1) && str_in person_type [py "son"; py "daughter"] = false ->
           In (family_member (group m 1) person_type relationship) added.
Proof.
  revert entry. induction ms as [|m ms IH]; intros entry; cbv zeta; cbn [fold_left].
  - split; [reflexivity|]. split; [reflexivity|]. exists []. rewrite app_nil_r.
    split; [reflexivity|]. split; [constructor | tauto].
  - specialize (IH (family_step person_type relationship entry m)).
    cbv zeta in IH. destruct IH as (Hm & Hp & added & Hf & Hall & Hin).
    unfold family_step in Hm, Hp, Hf, Hall, Hin |- *.
    destruct (negb (str_eqb (group m 1) []) && ne_opt (group m 1) (p_name (mainPerson entry)))
      eqn:C.
    + apply andb_true_iff in C. destruct C as [C1 C2]. apply ne_opt_true in C2.
      destruct (is_patronymic (group m 1) && str_in person_type [py "son"; py "daughter"]) eqn:P.
      * split; [exact Hm|]. split; [exact Hp|]. exists added.
        split; [exact Hf|]. split; [exact Hall|].
        intros m' [<-|H'] N1 N2 N3; [congruence | exact (Hin m' H' N1 N2 N3)].
      * cbn [append_familyMember mainPerson familyMembers places] in Hm, Hp, Hf, Hall, Hin.
        split; [exact Hm|]. split; [exact Hp|].
        exists (family_member (group m 1) person_type relationship :: added).
        split; [rewrite Hf, <- app_assoc; reflexivity|].
        split.
        -- constructor; [|exact Hall]. exists (group m 1). split; [reflexivity | exact C2].
        -- intros m' [<-|H'] N1 N2 N3; [left; reflexivity | right; exact (Hin m' H' N1 N2 N3)].
    + split; [exact Hm|]. split; [exact Hp|]. exists added.
      split; [exact Hf|]. split; [exact Hall|].
      intros m' [<-|H'] N1 N2 N3; [|exact (Hin m' H' N1 N2 N3)].
      apply andb_false_iff in C. destruct C as [C|C].
      * apply negb_false_iff, str_eqb_eq in C. congruence.
      * apply ne_opt_true in N2. congruence.
Qed.

(** The same over a list of patterns. *)
Lemma family_patterns_fold (text : list N) (pats : list (re * list N * list N)) (entry : Entry) :
  let entry' :=
    fold_left (fun entry '(pattern, person_type, relationship) =>
                 fold_left (family_step person_type relationship) (finditer pattern text) entry)
              pats entry in
  mainPerson entry' = mainPerson entry
  /\ places entry' = places entry
  /\ exists added,
      familyMembers entry' = familyMembers entry ++ added
      /\ Forall (fun f => exists name, p_name f = Some name
                                      /\ p_name (mainPerson entry) <> Some name) added
      /\ forall pattern person_type relationship m,
           In (pattern, person_type, relationship) pats ->
           In m (finditer pattern text) ->
           group m 1 <> [] ->
           p_name (mainPerson entry) <> Some (group m 1) ->
           is_patronymic (group m 1) && str_in person_type [py "son"; py "daughter"] = false ->
           In (family_member (group m 1) person_type relationship) added.
Proof.
  revert entry. induction pats as [|[[pattern person_type] relationship] pats IH];
    intros entry; cbv zeta; cbn [fold_left].
  - split; [reflexivity|]. split; [reflexivity|]. exists []. rewrite app_nil_r.
    split; [reflexivity|]. split; [constructor|]. intros ? ? ? ? [].
  - destruct (family_step_fold person_type relationship (finditer pattern text) entry)
      as (Hm1 & Hp1 & a1 & Hf1 & Hall1 & Hin1).
    cbv zeta in Hm1, Hp1, Hf1.
    specialize (IH (fold_left (family_step person_type relationship)
                              (finditer pattern text) entry)).
    cbv zeta in IH. destruct IH as (Hm2 & Hp2 & a2 & Hf2 & Hall2 & Hin2).
    rewrite Hm1 in Hm2, Hall2, Hin2. rewrite Hp1 in Hp2. rewrite Hf1 in Hf2.
    split; [exact Hm2|]. split; [exact Hp2|]. exists (a1 ++ a2).
    split; [rewrite Hf2, <- app_assoc; reflexivity|]. split.
    + apply Forall_app. split; assumption.
    + intros pat ty rel m [E|Hin] Hm N1 N2 N3; apply in_or_app.
      * injection E as <- <- <-. left. exact (Hin1 m Hm N1 N2 N3).
      * right. exact (Hin2 pat ty rel m Hin Hm N1 N2 N3).
Qed.

Lemma extract_family_from_text_spec (text : list N) (entry : Entry) :
  let entry' := extract_family_from_text text entry in
  mainPerson entry' = mainPerson entry
  /\ places entry' = places entry
  /\ exists added,
      familyMembers entry' = familyMembers entry ++ added
      /\ Forall (fun f => exists name, p_name f = Some name
                                      /\ p_name (mainPerson entry) <> Some name) added
      /\ forall pattern person_type relationship m,
           In (pattern, person_type, relationship) family_patterns ->
           In m (finditer pattern text) ->
           group m 1 <> [] ->
           p_name (mainPerson entry) <> Some (group m 1) ->
           is_patronymic (group m 1) && str_in person_type [py "son"; py "daughter"] = false ->
           In (family_member (group m 1) person_type relationship) added.
Proof. apply family_patterns_fold. Qed.

(** ** Free-text extraction: places *)

(** The first loop of [extract_places_from_text] appends every capture
    that passes [is_actual_place], repetitions included. *)
Lemma place_captures_fold (captures : list (list N)) (entry : Entry) :
  let entry' :=
    fold_left (fun entry place => if is_actual_place place then add_place entry place else entry)
              captures entry in
  familyMembers entry' = familyMembers entry
  /\ p_name (mainPerson entry') = p_name (mainPerson entry)
  /\ places entry' = places entry ++ List.filter is_actual_place captures.
Proof.
  revert entry. induction captures as [|p l IH]; intros entry; cbv zeta; cbn [fold_left List.filter].
  - rewrite app_nil_r. auto.
  - destruct (is_actual_place p).
    + destruct (IH (add_place entry p)) as (Hf & Hn & Hp). cbv zeta in Hf, Hn, Hp.
      rewrite Hf, Hn, Hp. unfold add_place. cbn [familyMembers mainPerson places].
      rewrite <- app_assoc. split; [reflexivity|]. split; [|reflexivity].
      destruct (truthy (p_place (mainPerson entry))); reflexivity.
    + apply IH.
Qed.

(** The second loop appends a curated name when the text contains it and
    the list does not hold it yet. *)
Lemma curated_places_fold (text : list N) (curated : list (list N)) (entry : Entry) :
  NoDup curated ->
  let entry' :=
    fold_left (fun entry place =>
                 if contains text place && negb (str_in place (places entry))
                 then add_place entry place else entry)
              curated entry in
  familyMembers entry' = familyMembers entry
  /\ p_name (mainPerson entry') = p_name (mainPerson entry)
  /\ exists added,
      places entry' = places entry ++ added
      /\ NoDup added
      /\ (forall p, In p added ->
                    In p curated /\ contains text p = true /\ ~ In p (places entry))
      /\ (forall p, In p curated -> contains text p = true -> In p (places entry')).
Proof.
  intros ND. revert entry. induction ND as [|p l Hnotin ND IH]; intros entry;
    cbv zeta; cbn [fold_left].
  - split; [reflexivity|]. split; [reflexivity|]. exists []. rewrite app_nil_r.
    split; [reflexivity|]. split; [constructor|]. split; intros ? [].
  - rewrite list_elem_of_In in Hnotin.
    destruct (contains text p && negb (str_in p (places entry))) eqn:C.
    + apply andb_true_iff in C. destruct C as [C1 C2].
      apply negb_true_iff, str_in_not_In in C2.
      destruct (IH (add_place entry p)) as (Hf & Hn & K & Hp & HK & Hin & Hall).
      cbv zeta in Hf, Hn, Hp, Hall.
      assert (Ea : places (add_place entry p) = places entry ++ [p]) by reflexivity.
      rewrite Ea in Hp, Hin.
      split; [rewrite Hf; reflexivity|].
      split; [rewrite Hn; unfold add_place; cbn [mainPerson];
              destruct (truthy (p_place (mainPerson entry))); reflexivity|].
      exists (p :: K). split; [rewrite Hp, <- app_assoc; reflexivity|].
      split; [|split].
      * constructor; [|exact HK]. rewrite list_elem_of_In. intros Hp_in.
        destruct (Hin p Hp_in) as (_ & _ & Hno). apply Hno, in_or_app.
        right. left. reflexivity.
      * intros q [<-|Hq]; [split; [left; reflexivity | split; assumption]|].
        destruct (Hin q Hq) as (H1 & H2 & H3).
        split; [right; exact H1|]. split; [exact H2|].
        intros Hq'. apply H3, in_or_app. left. exact Hq'.
      * intros q [<-|Hq] Hc; [|exact (Hall q Hq Hc)].
        rewrite Hp. apply in_or_app. left. apply in_or_app. right. left. reflexivity.
    + destruct (IH entry) as (Hf & Hn & K & Hp & HK & Hin & Hall).
      cbv zeta in Hf, Hn, Hp, Hall.
      split; [exact Hf|]. split; [exact Hn|]. exists K.
      split; [exact Hp|]. split; [exact HK|]. split.
      * intros q Hq. destruct (Hin q Hq) as (H1 & H2 & H3).
        split; [right; exact H1|]. split; assumption.
      * intros q [<-|Hq] Hc; [|exact (Hall q Hq Hc)].
        rewrite Hc in C. simpl in C. apply negb_false_iff, str_in_In in C.
        rewrite Hp. apply in_or_app. left. exact C.
Qed.

Lemma NoDup_text_known_places : NoDup text_known_places.
Proof.
  unfold text_known_places.
  repeat (constructor; [rewrite list_elem_of_In; vm_compute; intuition discriminate|]).
  constructor.
Qed.

Lemma extract_places_from_text_spec (text : list N) (entry : Entry) :
  let entry' := extract_places_from_text text entry in
  familyMembers entry' = familyMembers entry
  /\ p_name (mainPerson entry') = p_name (mainPerson entry)
  /\ exists added,
      places entry' =
      (places entry ++ List.filter is_actual_place (Re.findall place_pattern text)) ++ added
      /\ NoDup added
      /\ (forall p, In p added ->
             In p text_known_places /\ contains text p = true
             /\ ~ In p (places entry ++ List.filter is_actual_place (Re.findall place_pattern text)))
      /\ (forall p, In p text_known_places -> contains text p = true -> In p (places entry')).
Proof.
  cbv zeta. unfold extract_places_from_text.
  destruct (place_captures_fold (Re.findall place_pattern text) entry) as (Hf1 & Hn1 & Hp1).
  cbv zeta in Hf1, Hn1, Hp1.
  set (e1 := fold_left _ (Re.findall place_pattern text) entry) in *.
  destruct (curated_places_fold text text_known_places e1 NoDup_text_known_places)
    as (Hf2 & Hn2 & K & Hp2 & HK & Hin & Hall).
  cbv zeta in Hf2, Hn2, Hp2, Hall.
  rewrite Hf2, Hn2, Hf1, Hn1. split; [reflexivity|]. split; [reflexivity|].
  exists K. rewrite Hp2, Hp1. split; [reflexivity|]. split; [exact HK|].
  rewrite <- Hp1. split; [exact Hin|].
  intros p H1 H2. rewrite <- Hp2. exact (Hall p H1 H2).
Qed.

(** ** Free-text extraction: one entry *)

Lemma extract_main_person_from_text_frame (text : list N) (entry : Entry) :
  familyMembers (extract_main_person_from_text text entry) = familyMembers entry
  /\ places (extract_main_person_from_text text entry) = places entry.
Proof.
  unfold extract_main_person_from_text.
  destruct (Re.findall geo_plus text); split; reflexivity.
Qed.

(** What every entry built by [parse_entry_from_text] satisfies. *)
Lemma parse_entry_from_text_spec (n_entries : nat) (content entry_num : list N) (entry : Entry) :
  parse_entry_from_text n_entries content entry_num = Some entry ->
  Forall (fun f => exists name, p_name f = Some name
                                /\ p_name (mainPerson entry) <> Some name)
         (familyMembers entry)
  /\ (forall pattern person_type relationship m,
         In (pattern, person_type, relationship) family_patterns ->
         In m (finditer pattern content) ->
         group m 1 <> [] ->
         p_name (mainPerson entry) <> Some (group m 1) ->
         is_patronymic (group m 1) && str_in person_type [py "son"; py "daughter"] = false ->
         In (family_member (group m 1) person_type relationship) (familyMembers entry))
  /\ exists added,
      places entry = List.filter is_actual_place (Re.findall place_pattern content) ++ added
      /\ NoDup added
      /\ (forall p, In p added ->
             In p text_known_places /\ contains content p = true
             /\ ~ In p (List.filter is_actual_place (Re.findall place_pattern content)))
      /\ (forall p, In p text_known_places -> contains content p = true -> In p (places entry)).
Proof.
  unfold parse_entry_from_text, parse_entry_from_text_body.
  destruct (if isdigit entry_num then _ else _) as [entry_number|ex];
    cbn [mbind res_bind try_except]; [|discriminate].
  intros [= <-].
  set (e0 := mkEntry _ _ _ _ _ _ _ _ _).
  destruct (extract_main_person_from_text_frame content e0) as (Hf1 & Hp1).
  set (e1 := extract_main_person_from_text content e0) in *.
  destruct (extract_family_from_text_spec content e1) as (Hm2 & Hp2 & added & Hf2 & Hall & Hin).
  cbv zeta in Hm2, Hp2, Hf2.
  set (e2 := extract_family_from_text content e1) in *.
  destruct (extract_places_from_text_spec content e2) as (Hf3 & Hn3 & K & Hp3 & HK & HinK & HallK).
  cbv zeta in Hf3, Hn3, Hp3, HallK.
  set (e3 := extract_places_from_text content e2) in *.
  assert (Ef : familyMembers (extract_manuscript_from_text content e3) = added).
  { change (familyMembers e3 = added). rewrite Hf3, Hf2, Hf1. reflexivity. }
  assert (En : p_name (mainPerson (extract_manuscript_from_text content e3))
               = p_name (mainPerson e1)).
  { change (p_name (mainPerson e3) = p_name (mainPerson e1)). rewrite Hn3, Hm2. reflexivity. }
  assert (Ep : places e2 = []).
  { rewrite Hp2, Hp1. reflexivity. }
  rewrite Ep in Hp3, HinK. cbn [app] in Hp3, HinK.
  rewrite Ef, En. split; [exact Hall|]. split; [exact Hin|].
  exists K. change (places (extract_manuscript_from_text content e3)) with (places e3).
  split; [exact Hp3|]. split; [exact HK|]. split; [exact HinK | exact HallK].
Qed.

(** Every pattern of [family_patterns] is the kinship pattern of its
    relationship word. *)
Lemma family_patterns_kin (pattern : re) (person_type relationship : list N) :
  In (pattern, person_type, relationship) family_patterns ->
  pattern = kin_pattern relationship.
Proof.
  unfold family_patterns. cbn [In].
  intros H. repeat (destruct H as [[= <- <- <-]|H]; [reflexivity|]). destruct H.
Qed.



(** ** Free-text extraction: the document *)

Lemma parse_blocks_from_In (n_entries : nat) (ms : list rmatch) (i : nat) (entry : Entry) :
  In entry (parse_blocks_from n_entries i ms) ->
  exists content entry_num, parse_entry_from_text n_entries content entry_num = Some entry.
Proof.
  revert i. induction ms as [|m ms IH]; intros i; cbn [parse_blocks_from In]; [tauto|].
  destruct (parse_entry_from_text n_entries (group m 0) (str_of_int (Z.of_nat i + 1)))
    as [e|] eqn:P; [|apply IH].
  intros [<-|H]; [|exact (IH _ H)]. eauto.
Qed.

(** Every entry of the free-text path was built by
    [parse_entry_from_text]. *)
Lemma extract_from_text_entries (xml_content : list N) (self : Parser) (entry : Entry) :
  In entry (entries (extract_from_text xml_content self)) ->
  exists n_entries content entry_num,
    parse_entry_from_text n_entries content entry_num = Some entry.
Proof.
  unfold extract_from_text. rewrite entries_calculate_statistics. cbn [entries].
  set (n := List.length (entries self)).
  destruct (omap _ (finditer entry_pattern xml_content)) as [|e0 l] eqn:A.
  - intros H. apply parse_blocks_from_In in H. destruct H as (c & num & H). eauto.
  - rewrite <- A. intros H. apply list_elem_of_In, list_elem_of_omap in H.
    destruct H as (m & _ & H). eauto.
Qed.

(** C4 (counterexample): in the structured path a family node may carry
    the main person's name. *)
Lemma C4_structured_namesake :
  exists entry,
    entries (parse_xml_file (WellFormed (tei_document namesake_entry)) init) = [entry]
    /\ p_name (mainPerson entry) = Some (py "გიორგი")
    /\ In (p_name (mainPerson entry)) (map p_name (familyMembers entry)).
Proof.
  eexists. split; [vm_compute; reflexivity|].
  split; [reflexivity|]. vm_compute. left. reflexivity.
Qed.

(** C4 (amended): in every entry of the free-text path the main person's
    name is not among the names of the family members. *)
Theorem C4_free_text_no_self_reference (xml_content : list N) (self : Parser) :
  Forall (fun entry => ~ In (p_name (mainPerson entry)) (map p_name (familyMembers entry)))
         (entries (extract_from_text xml_content self)).
Proof.
  apply Forall_forall. intros entry H. apply list_elem_of_In in H.
  apply extract_from_text_entries in H. destruct H as (n & c & num & H).
  destruct (parse_entry_from_text_spec _ _ _ _ H) as (Hall & _).
  intros Hin. apply in_map_iff in Hin. destruct Hin as (f & Hf & Hin).
  rewrite Forall_forall in Hall. apply list_elem_of_In in Hin.
  destruct (Hall f Hin) as (name & Hname & Hne). congruence.
Qed.

(** C5 (counterexample): two place-name fragments with the same name give
    the entry that name twice. *)
Lemma C5_repeated_fragment :
  exists entry,
    entries (parse_xml_file (Malformed two_fragments_document) init) = [entry]
    /\ places entry = [py "ოშკი"; py "ოშკი"]
    /\ ~ NoDup (places entry).
Proof.
  eexists. split; [vm_compute; reflexivity|].
  split; [vm_compute; reflexivity|].
  intros ND. inversion ND as [|x l Hx _]. apply Hx. vm_compute. left.
Qed.

(** The structured path repeats a place as well. *)
Lemma structured_repeated_place :
  exists entry,
    entries (parse_xml_file (WellFormed (tei_document two_places_entry)) init) = [entry]
    /\ places entry = [py "ოშკი"; py "ოშკი"].
Proof.
  eexists. split; vm_compute; reflexivity.
Qed.

(** C5 (amended): the places of a free-text entry are the place-name
    captures that pass [is_actual_place], in text order and as often as
    they occur, followed by the curated names that the text contains and
    the captures do not, each once; so the list is free of duplicates
    whenever the captures are. *)
Theorem C5_free_text_places (n_entries : nat) (content entry_num : list N) (entry : Entry) :
  parse_entry_from_text n_entries content entry_num = Some entry ->
  exists added,
    places entry = List.filter is_actual_place (Re.findall place_pattern content) ++ added
    /\ NoDup added
    /\ (forall p, In p added <->
                  In p text_known_places /\ contains content p = true
                  /\ ~ In p (List.filter is_actual_place (Re.findall place_pattern content)))
    /\ (NoDup (List.filter is_actual_place (Re.findall place_pattern content)) ->
        NoDup (places entry)).
Proof.
  intros H. destruct (parse_entry_from_text_spec _ _ _ _ H) as (_ & _ & K & Hp & HK & Hin & Hall).
  exists K. split; [exact Hp|]. split; [exact HK|]. split.
  - intros p. split; [apply Hin|].
    intros (H1 & H2 & H3). specialize (Hall p H1 H2). rewrite Hp in Hall.
    apply in_app_or in Hall. tauto.
  - intros ND. rewrite Hp. apply NoDup_app. split; [exact ND|]. split; [|exact HK].
    intros p Hp1 Hp2. rewrite list_elem_of_In in Hp1, Hp2.
    destruct (Hin p Hp2) as (_ & _ & Hno). exact (Hno Hp1).
Qed.

(** A curated name that the text holds twice is recorded once. *)
Lemma C5_free_text_places_witness :
  exists entry,
    parse_entry_from_text
      0 (py "გიორგი მცხეთა <placeName>ოშკი</placeName> მცხეთა") (py "1") = Some entry
    /\ places entry = [py "ოშკი"; py "მცხეთა"]
    /\ NoDup (places entry).
Proof.
  eexists. split; [vm_compute; reflexivity|]. split; [vm_compute; reflexivity|].
  destruct (C5_free_text_places
              0 (py "გიორგი მცხეთა <placeName>ოშკი</placeName> მცხეთა") (py "1") _
              ltac:(vm_compute; reflexivity)) as (added & _ & _ & _ & ND).
  apply ND. vm_compute. constructor; [|constructor]. inversion 1.
Defined.

(** ** Statistics *)

(** The method that runs never touches [unique_surnames]. *)
Lemma unique_surnames_calculate_statistics (self : Parser) :
  unique_surnames (statistics (calculate_statistics self))
  = unique_surnames (statistics self).
Proof.
  unfold calculate_statistics. cbn [statistics].
  set (st := mkStatistics _ _ _ _ _).
  change (unique_surnames (statistics self)) with (unique_surnames st).
  generalize st. clear st.
  induction (entries self) as [|entry l IH]; intros st; cbn [fold_left]; [reflexivity|].
  rewrite IH. reflexivity.
Qed.

Lemma unique_surnames_parse_xml_file (src : xml_source) (self : Parser) :
  unique_surnames (statistics (parse_xml_file src self))
  = unique_surnames (statistics self).
Proof.
  destruct src as [root|xml_content|]; cbn [parse_xml_file]; [| |reflexivity].
  - unfold parse_xml_tree. rewrite unique_surnames_calculate_statistics. reflexivity.
  - unfold extract_from_text. rewrite unique_surnames_calculate_statistics. reflexivity.
Qed.

Lemma add_if_truthy_mono (v : option (list N)) (s : gset (list N)) (x : list N) :
  x ∈ s -> x ∈ add_if_truthy v s.
Proof.
  unfold add_if_truthy. destruct (truthy v); set_solver.
Qed.

Lemma add_if_truthy_elem (x : list N) (s : gset (list N)) :
  x <> [] -> x ∈ add_if_truthy (Some x) s.
Proof.
  unfold add_if_truthy. destruct x as [|c x]; [congruence|]. intros _. simpl. set_solver.
Qed.

(** The shadowed first definition does record the surname and the
    patronymic of every main person. *)
Lemma calculate_statistics_shadowed_surnames (self : Parser) (entry : Entry) (x : list N) :
  In entry (entries self) ->
  x <> [] ->
  p_surname (mainPerson entry) = Some x \/ p_patronymic (mainPerson entry) = Some x ->
  x ∈ unique_surnames (statistics (calculate_statistics_shadowed self)).
Proof.
  unfold calculate_statistics_shadowed. cbn [statistics].
  generalize (mkStatistics (Z.of_nat (List.length (entries self)))
                           (total_persons (statistics self))
                           (unique_surnames (statistics self))
                           (stat_places (statistics self))
                           (occupations (statistics self))).
  intros st Hin Hx Hsome. revert st.
  assert (Mono : forall l st, x ∈ unique_surnames st ->
            x ∈ unique_surnames
                  (fold_left (fun st entry =>
                     mkStatistics (total_entries st)
                       (total_persons st + (1 + Z.of_nat (List.length (familyMembers entry))))%Z
                       (add_if_truthy (p_patronymic (mainPerson entry))
                          (add_if_truthy (p_surname (mainPerson entry)) (unique_surnames st)))
                       (add_all (List.filter is_actual_place (places entry)) (stat_places st))
                       (add_if_truthy (p_occupation (mainPerson entry)) (occupations st)))
                     l st)).
  { induction l as [|e l IH]; intros st H; cbn [fold_left]; [exact H|].
    apply IH. cbn [unique_surnames]. apply add_if_truthy_mono, add_if_truthy_mono, H. }
  induction (entries self) as [|e l IH]; [destruct Hin|].
  intros st. cbn [fold_left]. destruct Hin as [->|Hin]; [|apply IH, Hin].
  apply Mono. cbn [unique_surnames].
  destruct Hsome as [E|E]; rewrite E.
  - apply add_if_truthy_mono, add_if_truthy_elem, Hx.
  - apply add_if_truthy_elem, Hx.
Qed.

(** C2, on a document whose main person has a surname and a patronymic:
    after extraction and statistics [unique_surnames] holds neither, and
    it is empty after every run of a fresh parser. *)
Theorem C2_unique_surnames_left_empty :
  (forall src : xml_source, unique_surnames (statistics (parse_xml_file src init)) = ∅)
  /\ exists entry,
      entries (parse_xml_file (Malformed surname_document) init) = [entry]
      /\ p_surname (mainPerson entry) = Some (py "მცხეთელი")
      /\ p_patronymic (mainPerson entry) = Some (py "მცხეთ")
      /\ (py "მცხეთელი" ∉ unique_surnames
                             (statistics (parse_xml_file (Malformed surname_document) init)))
      /\ (py "მცხეთ" ∉ unique_surnames
                          (statistics (parse_xml_file (Malformed surname_document) init))).
Proof.
  assert (E : forall src, unique_surnames (statistics (parse_xml_file src init)) = ∅).
  { intros src. rewrite unique_surnames_parse_xml_file. reflexivity. }
  split; [exact E|].
  eexists. split; [vm_compute; reflexivity|].
  split; [vm_compute; reflexivity|]. split; [vm_compute; reflexivity|].
  rewrite E. split; apply not_elem_of_empty.
Qed.

(** ** Text normalizer *)

Lemma startswith_app (s p : list N) :
  startswith s p = true -> s = p ++ drop (List.length p) s.
Proof.
  revert s. induction p as [|x p IH]; intros s; [reflexivity|].
  destruct s as [|y s]; simpl; [discriminate|].
  rewrite andb_true_iff, N.eqb_eq. intros [-> H]. f_equal. apply IH, H.
Qed.

Lemma startswith_prefix (p rest : list N) : startswith (p ++ rest) p = true.
Proof.
  induction p as [|x p IH]; simpl; [reflexivity|]. rewrite N.eqb_refl. exact IH.
Qed.

Lemma startswith_app_l (a b q : list N) :
  startswith a q = true -> startswith (a ++ b) q = true.
Proof.
  revert a. induction q as [|x q IH]; intros a; [reflexivity|].
  destruct a as [|y a]; simpl; [discriminate|].
  rewrite !andb_true_iff. intros [-> H]. split; [reflexivity | apply IH, H].
Qed.

Lemma clash_startswith (a q rest : list N) :
  clash a q = true -> startswith (a ++ rest) q = false.
Proof.
  revert q. induction a as [|x a IH]; intros [|y q]; simpl; try discriminate.
  rewrite (N.eqb_sym y x). destruct (x =? y); simpl; [apply IH | reflexivity].
Qed.

Lemma clash_sym (a b : list N) : clash a b = clash b a.
Proof.
  revert b. induction a as [|x a IH]; intros [|y b]; simpl; try reflexivity.
  rewrite N.eqb_sym, IH. reflexivity.
Qed.

Lemma contains_nil_l (q : list N) : q <> [] -> contains [] q = false.
Proof. destruct q; [congruence | reflexivity]. Qed.

Lemma contains_false_cons (c : N) (s q : list N) :
  contains (c :: s) q = false <-> startswith (c :: s) q = false /\ contains s q = false.
Proof. cbn [contains]. apply orb_false_iff. Qed.

Lemma contains_app_r (a b q : list N) : contains (a ++ b) q = false -> contains b q = false.
Proof.
  induction a as [|x a IH]; [tauto|]. rewrite <- app_comm_cons.
  intros H. apply contains_false_cons in H. apply IH, H.
Qed.

Lemma contains_app_l (a b q : list N) :
  q <> [] -> contains (a ++ b) q = false -> contains a q = false.
Proof.
  intros Hq. induction a as [|x a IH]; [intros _; apply contains_nil_l, Hq|].
  rewrite <- app_comm_cons. intros H. apply contains_false_cons in H. destruct H as [H1 H2].
  apply contains_false_cons. split; [|apply IH, H2].
  destruct (startswith (x :: a) q) eqn:E; [|reflexivity].
  apply (startswith_app_l _ b) in E. rewrite <- app_comm_cons in E. congruence.
Qed.

Lemma contains_drop (k : nat) (s q : list N) :
  contains s q = false -> startswith (drop k s) q = false /\ contains (drop k s) q = false.
Proof.
  revert s. induction k as [|k IH]; intros s H.
  - rewrite drop_0. split; [|exact H].
    destruct s; cbn [contains] in H; apply orb_false_iff in H; tauto.
  - destruct s as [|c s].
    { destruct (IH [] H) as [H1 H2]. rewrite drop_nil in *. split; assumption. }
    apply contains_false_cons in H. apply IH, H.
Qed.

(** *** Unfolding [sub] *)

Lemma sub_aux_drop (r : re) (repl : list N) (k : nat) (s : list N) :
  sub_aux r repl k s = sub r repl (drop k s).
Proof.
  revert k. induction s as [|c s IH]; intros [|k]; try reflexivity.
  cbn [sub_aux drop]. apply IH.
Qed.

Lemma sub_Forall (Q : N -> Prop) (r : re) (repl s : list N) :
  Forall Q repl -> Forall Q s -> Forall Q (sub r repl s).
Proof.
  intros Hr. unfold sub. generalize 0%nat.
  induction s as [|c s IH]; intros k Hs; [constructor|].
  apply Forall_cons in Hs. destruct Hs as [Hc Hs]. cbn [sub_aux].
  destruct k as [|k]; [|apply IH, Hs].
  destruct (match_at r (c :: s)) as [[[|len] cs]|].
  - apply Forall_app. split; [exact Hr|]. constructor; [exact Hc | apply IH, Hs].
  - apply Forall_app. split; [exact Hr | apply IH, Hs].
  - constructor; [exact Hc | apply IH, Hs].
Qed.

Lemma sub_cls (p : N -> bool) (s : list N) :
  sub (Cls p) [] s = List.filter (fun c => negb (p c)) s.
Proof.
  unfold sub. induction s as [|c s IH]; [reflexivity|].
  cbn [sub_aux List.filter]. unfold match_at. cbn [mt].
  destruct (p c); cbn [negb app]; rewrite IH; reflexivity.
Qed.

Lemma sub_lit_cons (l repl : list N) (c : N) (s : list N) :
  l <> [] ->
  sub (Lit l) repl (c :: s) =
  if startswith (c :: s) l then repl ++ sub (Lit l) repl (drop (List.length l) (c :: s))
  else c :: sub (Lit l) repl s.
Proof.
  intros Hl. unfold sub at 1. cbn [sub_aux]. unfold match_at. cbn [mt].
  destruct (startswith (c :: s) l); [|reflexivity].
  destruct l as [|x l]; [congruence|]. cbn [List.length Nat.add drop].
  rewrite sub_aux_drop. reflexivity.
Qed.

(** A greedy repetition in front of an accepting continuation consumes
    the whole run. *)
Lemma rep_greedy_run (p : N -> bool) (min : nat) (k : list N -> nat -> option (nat * caps))
      (s : list N) (n pos : nat) :
  (forall s1 p1, k s1 p1 = Some (p1, [])) ->
  (min <= n)%nat ->
  exists j, rep_greedy p min k n s pos = Some ((pos + j)%nat, [])
            /\ Forall (fun c => p c = true) (take j s)
            /\ (match drop j s with [] => True | c :: _ => p c = false end).
Proof.
  intros Hk. revert n pos. induction s as [|c s IH]; intros n pos Hn; cbn [rep_greedy].
  - apply Nat.leb_le in Hn. rewrite Hn, Hk. exists 0%nat. rewrite Nat.add_0_r.
    split; [reflexivity|]. split; [constructor | exact I].
  - destruct (p c) eqn:Pc.
    + destruct (IH (S n) (S pos) ltac:(lia)) as (j & -> & Hall & Hrest).
      exists (S j). rewrite Nat.add_succ_r. split; [reflexivity|].
      split; [constructor; assumption | exact Hrest].
    + apply Nat.leb_le in Hn. rewrite Hn, Hk. exists 0%nat. rewrite Nat.add_0_r.
      split; [reflexivity|]. split; [constructor | exact Pc].
Qed.

Lemma lstrip_run (j : nat) (s : list N) :
  Forall (fun c => isspace c = true) (take j s) ->
  (match drop j s with [] => True | c :: _ => isspace c = false end) ->
  lstrip s = drop j s.
Proof.
  revert s. induction j as [|j IH]; intros s Hall Hrest.
  - rewrite drop_0 in *. destruct s as [|c s]; [reflexivity|]. cbn. rewrite Hrest. reflexivity.
  - destruct s as [|c s]; [reflexivity|]. cbn [take] in Hall. cbn [drop] in *.
    apply Forall_cons in Hall. destruct Hall as [Hc Hall].
    cbn [lstrip]. rewrite Hc. apply IH; assumption.
Qed.

Lemma sub_ws_cons (repl : list N) (c : N) (s : list N) :
  sub (Rep isspace 1 true) repl (c :: s) =
  if isspace c then repl ++ sub (Rep isspace 1 true) repl (lstrip s)
  else c :: sub (Rep isspace 1 true) repl s.
Proof.
  unfold sub at 1. cbn [sub_aux]. unfold match_at. cbn [mt rep_greedy Nat.leb].
  destruct (isspace c) eqn:Pc; [|reflexivity].
  match goal with
  | |- context [rep_greedy isspace 1 ?k 1 s 1] =>
    destruct (rep_greedy_run isspace 1 k s 1 1 ltac:(reflexivity) ltac:(lia))
      as (j & -> & Hall & Hrest)
  end.
  cbn [Nat.add]. rewrite sub_aux_drop, (lstrip_run j s Hall Hrest). reflexivity.
Qed.

(** *** [strip] *)

Lemma lstrip_suffix (s : list N) : exists w, s = w ++ lstrip s.
Proof.
  induction s as [|c s (w & IH)]; [exists []; reflexivity|].
  cbn [lstrip]. destruct (isspace c); [|exists []; reflexivity].
  exists (c :: w). cbn. f_equal. exact IH.
Qed.

Lemma rstrip_prefix (s : list N) : exists w, s = rstrip s ++ w.
Proof.
  induction s as [|c s (w & IH)]; [exists []; reflexivity|].
  cbn [rstrip]. destruct (rstrip s) as [|x r] eqn:R.
  - destruct (isspace c); [exists (c :: s) | exists s]; reflexivity.
  - exists w. cbn. f_equal. exact IH.
Qed.

Lemma lstrip_head (s : list N) :
  match lstrip s with [] => True | c :: _ => isspace c = false end.
Proof.
  induction s as [|c s IH]; [exact I|].
  cbn [lstrip]. destruct (isspace c) eqn:E; [exact IH | exact E].
Qed.

Lemma lstrip_id (s : list N) :
  match s with [] => True | c :: _ => isspace c = false end -> lstrip s = s.
Proof.
  destruct s as [|c s]; [reflexivity|]. cbn [lstrip]. intros ->. reflexivity.
Qed.

Lemma rstrip_cons (c : N) (s : list N) :
  isspace c = false -> rstrip (c :: s) = c :: rstrip s.
Proof.
  intros E. cbn [rstrip]. rewrite E. destruct (rstrip s); reflexivity.
Qed.

Lemma rstrip_idem (s : list N) : rstrip (rstrip s) = rstrip s.
Proof.
  induction s as [|c s IH]; [reflexivity|].
  cbn [rstrip]. destruct (rstrip s) as [|x r] eqn:R.
  - destruct (isspace c) eqn:E; [reflexivity|]. cbn [rstrip]. rewrite E. reflexivity.
  - cbn [rstrip]. cbn [rstrip] in IH. rewrite IH. reflexivity.
Qed.

Lemma strip_idem (s : list N) : strip (strip s) = strip s.
Proof.
  unfold strip. pose proof (lstrip_head s) as H.
  destruct (lstrip s) as [|c z]; [reflexivity|].
  rewrite (rstrip_cons c z H). rewrite (lstrip_id (c :: rstrip z) H).
  rewrite <- (rstrip_cons c z H). apply rstrip_idem.
Qed.

Lemma strip_Forall (Q : N -> Prop) (s : list N) : Forall Q s -> Forall Q (strip s).
Proof.
  unfold strip. intros H.
  destruct (lstrip_suffix s) as (w & E). rewrite E in H. apply Forall_app in H.
  destruct H as [_ H]. destruct (rstrip_prefix (lstrip s)) as (w' & E').
  rewrite E' in H. apply Forall_app in H. tauto.
Qed.

Lemma strip_contains (s q : list N) :
  q <> [] -> contains s q = false -> contains (strip s) q = false.
Proof.
  unfold strip. intros Hq H.
  destruct (lstrip_suffix s) as (w & E). rewrite E in H. apply contains_app_r in H.
  destruct (rstrip_prefix (lstrip s)) as (w' & E'). rewrite E' in H.
  exact (contains_app_l _ _ _ Hq H).
Qed.

(** *** Single blanks *)

Lemma single_spaced_weaken (b : bool) (s : list N) :
  single_spaced b s = true -> single_spaced false s = true.
Proof.
  destruct s as [|c s]; [reflexivity|]. cbn [single_spaced].
  destruct (isspace c); [|tauto].
  rewrite !andb_true_iff. cbn [negb]. tauto.
Qed.

Lemma single_spaced_app (p rest : list N) (b : bool) :
  p <> [] -> Forall (fun c => isspace c = false) p ->
  single_spaced b (p ++ rest) = single_spaced false rest.
Proof.
  intros Hp Hall. revert b. induction Hall as [|c p Hc Hall IH]; [congruence|].
  intros b. cbn [app single_spaced]. rewrite Hc.
  destruct p as [|c' p]; [reflexivity|]. apply IH. discriminate.
Qed.

Lemma single_spaced_lstrip (b : bool) (s : list N) :
  single_spaced b s = true -> single_spaced false (lstrip s) = true.
Proof.
  revert b. induction s as [|c s IH]; intros b; [reflexivity|].
  cbn [lstrip]. destruct (isspace c) eqn:E.
  - cbn [single_spaced]. rewrite E, !andb_true_iff. intros [_ H]. exact (IH _ H).
  - apply single_spaced_weaken.
Qed.

Lemma single_spaced_rstrip (b : bool) (s : list N) :
  single_spaced b s = true -> single_spaced b (rstrip s) = true.
Proof.
  revert b. induction s as [|c s IH]; intros b; [reflexivity|].
  cbn [single_spaced rstrip]. destruct (isspace c) eqn:E.
  - rewrite !andb_true_iff. intros [[H1 H2] H3]. specialize (IH _ H3).
    destruct (rstrip s) as [|x r]; [reflexivity|].
    cbn [single_spaced] in IH |- *. rewrite E, H1, H2. exact IH.
  - intros H. specialize (IH _ H).
    destruct (rstrip s) as [|x r]; cbn [single_spaced] in IH |- *; rewrite E; [reflexivity|].
    exact IH.
Qed.

(** A string with single blanks has nothing for [\s+] to change. *)
Lemma sub_ws_id (b : bool) (s : list N) :
  single_spaced b s = true -> sub (Rep isspace 1 true) (py " ") s = s.
Proof.
  revert b. induction s as [|c s IH]; intros b; [reflexivity|].
  rewrite sub_ws_cons. cbn [single_spaced]. destruct (isspace c) eqn:E.
  - rewrite !andb_true_iff, N.eqb_eq. intros [[-> _] H].
    assert (L : lstrip s = s).
    { apply lstrip_id. destruct s as [|x s]; [exact I|].
      cbn [single_spaced] in H. destruct (isspace x); [|reflexivity].
      rewrite andb_false_r in H. discriminate. }
    rewrite L, (IH _ H). reflexivity.
  - intros H. rewrite (IH _ H). reflexivity.
Qed.

(** [\s+] replaced by one blank leaves single blanks. *)
Lemma sub_ws_single_spaced (s : list N) :
  single_spaced false (sub (Rep isspace 1 true) (py " ") s) = true.
Proof.
  remember (List.length s) as n eqn:Hn.
  revert s Hn. induction (lt_wf n) as [n _ IH]. intros s Hn.
  destruct s as [|c s]; [reflexivity|].
  rewrite sub_ws_cons. destruct (isspace c) eqn:E.
  - change (py " " ++ ?x) with (32 :: x). cbn [single_spaced].
    change (isspace 32) with true. cbn [N.eqb Pos.eqb negb andb].
    destruct (lstrip_suffix s) as (w & Hw). pose proof (lstrip_head s) as Hh.
    destruct (lstrip s) as [|x z] eqn:L; [reflexivity|].
    rewrite sub_ws_cons, Hh. cbn [single_spaced]. rewrite Hh.
    apply (IH (List.length z)); [|reflexivity].
    subst n. rewrite Hw. cbn [List.length]. rewrite length_app. cbn [List.length]. lia.
  - cbn [single_spaced]. rewrite E. apply (IH (List.length s)); [|reflexivity].
    subst n. cbn [List.length]. lia.
Qed.

Section Literal.

Variables p r : list N.
Hypothesis p_nonempty : p <> [].

Lemma sub_lit_id (s : list N) : contains s p = false -> sub (Lit p) r s = s.
Proof.
  induction s as [|c s IH]; [reflexivity|].
  intros H. apply contains_false_cons in H. destruct H as [H1 H2].
  rewrite sub_lit_cons, H1, (IH H2) by exact p_nonempty. reflexivity.
Qed.

(** Strong induction over the text, following the equation of [sub]. *)
Lemma sub_lit_ind (P : list N -> list N -> Prop) :
  P [] [] ->
  (forall c s, startswith (c :: s) p = true ->
               P (drop (List.length p) (c :: s))
                 (sub (Lit p) r (drop (List.length p) (c :: s))) ->
               P (c :: s) (r ++ sub (Lit p) r (drop (List.length p) (c :: s)))) ->
  (forall c s, startswith (c :: s) p = false ->
               P s (sub (Lit p) r s) -> P (c :: s) (c :: sub (Lit p) r s)) ->
  forall s, P s (sub (Lit p) r s).
Proof.
  intros H0 H1 H2 s.
  remember (List.length s) as n eqn:Hn.
  revert s Hn. induction (lt_wf n) as [n _ IH]. intros s Hn.
  destruct s as [|c s]; [exact H0|].
  rewrite sub_lit_cons by exact p_nonempty.
  destruct (startswith (c :: s) p) eqn:E.
  - apply H1; [exact E|]. apply (IH (List.length (drop (List.length p) (c :: s)))); [|reflexivity].
    subst n. rewrite length_drop. destruct p; [congruence|]. cbn [List.length]. lia.
  - apply H2; [exact E|]. apply (IH (List.length s)); [|reflexivity].
    subst n. cbn [List.length]. lia.
Qed.

Hypothesis p_no_blank : Forall (fun c => isspace c = false) p.
Hypothesis r_nonempty : r <> [].
Hypothesis r_no_blank : Forall (fun c => isspace c = false) r.

Lemma sub_lit_single_spaced (s : list N) (b : bool) :
  single_spaced b s = true -> single_spaced b (sub (Lit p) r s) = true.
Proof.
  revert b. apply (sub_lit_ind (fun s t => forall b, single_spaced b s = true ->
                                                   single_spaced b t = true)).
  - tauto.
  - intros c s' E IH b H. rewrite (startswith_app _ _ E) in H.
    rewrite single_spaced_app in H by assumption.
    rewrite single_spaced_app by assumption. exact (IH _ H).
  - intros c s' _ IH b. cbn [single_spaced].
    destruct (isspace c); [|apply IH].
    rewrite !andb_true_iff. intros [H1 H2]. split; [exact H1 | exact (IH _ H2)].
Qed.

Variable q : list N.
Hypothesis q_nonempty : q <> [].
Hypothesis q_r : no_overlap q r = true.

Lemma no_overlap_inside (i : nat) (rest : list N) :
  (i < List.length r)%nat -> startswith (drop i r ++ rest) q = false.
Proof.
  intros Hi. apply clash_startswith.
  unfold no_overlap in q_r. apply andb_true_iff in q_r. destruct q_r as [H _].
  rewrite forallb_forall in H. apply H, in_seq. lia.
Qed.

Lemma no_overlap_into (k : nat) (rest : list N) :
  (k < List.length q)%nat -> startswith (r ++ rest) (drop k q) = false.
Proof.
  intros Hk. apply clash_startswith. rewrite clash_sym.
  unfold no_overlap in q_r. apply andb_true_iff in q_r. destruct q_r as [_ H].
  rewrite forallb_forall in H. apply H, in_seq. lia.
Qed.

(** An occurrence of a tail of [q] at the head of the result was
    already at the head of the text. *)
Lemma sub_lit_startswith (k : nat) (s : list N) :
  startswith (sub (Lit p) r s) (drop k q) = true -> startswith s (drop k q) = true.
Proof.
  remember (List.length q - k)%nat as n eqn:Hn.
  revert k s Hn. induction n as [|n IH]; intros k s Hn.
  - rewrite drop_ge by lia. reflexivity.
  - assert (Hk : (k < List.length q)%nat) by lia.
    destruct (drop k q) as [|x u] eqn:D.
    { reflexivity. }
    assert (Du : u = drop (S k) q).
    { change u with (drop 1 (x :: u)). rewrite <- D, drop_drop. f_equal. lia. }
    destruct s as [|c s]; [cbn; discriminate|].
    rewrite sub_lit_cons by exact p_nonempty.
    destruct (startswith (c :: s) p).
    + rewrite <- D, no_overlap_into by exact Hk. discriminate.
    + cbn [startswith]. rewrite !andb_true_iff. intros [H1 H2].
      split; [exact H1|]. rewrite Du in H2 |- *. apply (IH (S k)); [lia | exact H2].
Qed.

Lemma contains_app_inside (rest : list N) (i : nat) :
  contains rest q = false -> contains (drop i r ++ rest) q = false.
Proof.
  intros H. remember (List.length r - i)%nat as n eqn:Hn.
  revert i Hn. induction n as [|n IH]; intros i Hn.
  - rewrite drop_ge by lia. exact H.
  - assert (Hi : (i < List.length r)%nat) by lia.
    destruct (drop i r) as [|x u] eqn:D.
    { exact H. }
    assert (Du : u = drop (S i) r).
    { change u with (drop 1 (x :: u)). rewrite <- D, drop_drop. f_equal. lia. }
    rewrite <- app_comm_cons. apply contains_false_cons. split.
    + rewrite app_comm_cons, <- D. apply no_overlap_inside, Hi.
    + rewrite Du. apply IH. lia.
Qed.

(** If every occurrence of [q] in the text is also one of [p], the
    result holds no occurrence of [q]. *)
Lemma sub_lit_contains (s : list N) :
  (forall k, startswith (drop k s) q = true -> startswith (drop k s) p = true) ->
  contains (sub (Lit p) r s) q = false.
Proof.
  apply (sub_lit_ind (fun s t =>
           (forall k, startswith (drop k s) q = true -> startswith (drop k s) p = true) ->
           contains t q = false)).
  - intros _. apply contains_nil_l, q_nonempty.
  - intros c s' E IH Hs.
    apply (contains_app_inside _ 0%nat). apply IH.
    intros k. rewrite drop_drop. rewrite Nat.add_comm. apply Hs.
  - intros c s' E IH Hs. apply contains_false_cons. split.
    + destruct (startswith (c :: sub (Lit p) r s') q) eqn:F; [|reflexivity].
      assert (G : startswith (sub (Lit p) r (c :: s')) (drop 0 q) = true).
      { rewrite sub_lit_cons, E by exact p_nonempty. exact F. }
      apply sub_lit_startswith in G. rewrite drop_0 in G.
      apply (Hs 0%nat) in G. rewrite drop_0 in G. congruence.
    + apply IH. intros k. exact (Hs (S k)).
Qed.

End Literal.

(** *** [clean_text] *)

Lemma Forall_false_forallb (f : N -> bool) (l : list N) :
  forallb (fun c => negb (f c)) l = true -> Forall (fun c => f c = false) l.
Proof.
  rewrite forallb_forall, Forall_forall. intros H c Hc.
  apply negb_true_iff, H, list_elem_of_In, Hc.
Qed.

Lemma filter_all (f : N -> bool) (l : list N) :
  Forall (fun c => f c = false) l -> List.filter (fun c => negb (f c)) l = l.
Proof.
  induction 1 as [|c l Hc _ IH]; [reflexivity|].
  cbn [List.filter]. rewrite Hc, IH. reflexivity.
Qed.

Lemma clean_text_Some (text : list N) : clean_text (Some text) = strip (expand text).
Proof. destruct text; reflexivity. Qed.

Ltac abbreviation_side :=
  match goal with
  | |- _ <> [] => let H := fresh in intros H; vm_compute in H; discriminate H
  | |- Forall (fun c => _ c = false) _ => apply Forall_false_forallb; vm_compute; reflexivity
  | |- no_overlap _ _ = true => vm_compute; reflexivity
  end.

(** What the steps before [strip] establish. *)
Lemma expand_normal (text : list N) :
  Forall (fun c => is_artifact c = false) (expand text)
  /\ single_spaced false (expand text) = true
  /\ Forall (fun ab => contains (expand text) (fst ab) = false) abbreviations.
Proof.
  unfold expand. cbn [fold_left abbreviations fst snd].
  set (t0 := sub (Rep isspace 1 true) (py " ") (sub (Cls is_artifact) [] text)).
  set (t1 := sub (Lit (py "ს(ულს)ა")) (py "სულსა") t0).
  set (t2 := sub (Lit (py "შ(ეუნდვე)ნ")) (py "შეუნდვენ") t1).
  assert (A0 : Forall (fun c => is_artifact c = false) t0).
  { apply sub_Forall; [repeat constructor|]. rewrite sub_cls.
    apply Forall_forall. intros c Hc. apply list_elem_of_In, filter_In in Hc.
    apply negb_true_iff, Hc. }
  assert (S0 : single_spaced false t0 = true) by apply sub_ws_single_spaced.
  assert (C1 : contains t1 (py "ს(ულს)ა") = false).
  { apply sub_lit_contains; try abbreviation_side. tauto. }
  assert (C12 : contains t2 (py "ს(ულს)ა") = false).
  { apply sub_lit_contains; try abbreviation_side.
    intros k H. destruct (contains_drop k _ _ C1) as [H' _]. congruence. }
  assert (C2 : contains t2 (py "შ(ეუნდვე)ნ") = false).
  { apply sub_lit_contains; try abbreviation_side. tauto. }
  split; [|split].
  - do 3 (apply sub_Forall; [apply Forall_false_forallb; vm_compute; reflexivity|]).
    exact A0.
  - do 3 (apply sub_lit_single_spaced; try abbreviation_side). exact S0.
  - repeat constructor; cbn [fst].
    + apply sub_lit_contains; try abbreviation_side.
      intros k H. destruct (contains_drop k _ _ C12) as [H' _]. congruence.
    + apply sub_lit_contains; try abbreviation_side.
      intros k H. destruct (contains_drop k _ _ C2) as [H' _]. congruence.
    + apply sub_lit_contains; try abbreviation_side. tauto.
Qed.

(** Expanding abbreviations that do not occur changes nothing. *)
Lemma fold_sub_lit_id (abbrs : list (list N * list N)) (text : list N) :
  Forall (fun ab => fst ab <> []) abbrs ->
  Forall (fun ab => contains text (fst ab) = false) abbrs ->
  fold_left (fun t ab => sub (Lit (fst ab)) (snd ab) t) abbrs text = text.
Proof.
  induction abbrs as [|ab abbrs IH]; [reflexivity|].
  intros H1 H2. apply Forall_cons in H1. apply Forall_cons in H2.
  destruct H1 as [N1 H1]. destruct H2 as [C2 H2].
  cbn [fold_left]. rewrite (sub_lit_id _ _ N1 _ C2). exact (IH H1 H2).
Qed.

Lemma abbreviations_nonempty : Forall (fun ab => fst ab <> []) abbreviations.
Proof.
  unfold abbreviations. repeat constructor; cbn [fst]; abbreviation_side.
Qed.

(** A text in that normal form goes through the steps unchanged. *)
Lemma expand_fixed (text : list N) :
  Forall (fun c => is_artifact c = false) text ->
  single_spaced false text = true ->
  Forall (fun ab => contains text (fst ab) = false) abbreviations ->
  expand text = text.
Proof.
  intros HA HS HC. unfold expand.
  rewrite sub_cls, (filter_all _ _ HA), (sub_ws_id _ _ HS).
  exact (fold_sub_lit_id _ _ abbreviations_nonempty HC).
Qed.

(** C7: [clean_text] is idempotent, and it maps [None] and the empty
    string to the empty string (being a function, it is total and
    deterministic). *)
Theorem C7_clean_text_idempotent :
  (forall x : option (list N), clean_text (Some (clean_text x)) = clean_text x)
  /\ clean_text None = []
  /\ clean_text (Some []) = [].
Proof.
  split; [|split; reflexivity].
  intros [text|]; [|reflexivity].
  rewrite !clean_text_Some.
  destruct (expand_normal text) as (HA & HS & HC).
  rewrite expand_fixed.
  - apply strip_idem.
  - apply strip_Forall, HA.
  - unfold strip. apply single_spaced_rstrip, (single_spaced_lstrip false), HS.
  - apply Forall_forall. intros ab Hab. rewrite Forall_forall in HC.
    apply strip_contains; [|apply HC, Hab].
    pose proof abbreviations_nonempty as HN. rewrite Forall_forall in HN.
    apply HN, Hab.
Qed.

(** * Further properties *)

(** ** Strings and patterns *)

Lemma endswith_app (a w : list N) : endswith (a ++ w) w = true.
Proof. unfold endswith. rewrite rev_app_distr. apply startswith_prefix. Qed.

Lemma endswith_app_r (a w e : list N) : endswith w e = true -> endswith (a ++ w) e = true.
Proof.
  unfold endswith. rewrite rev_app_distr. apply startswith_app_l.
Qed.

Lemma startswith_take (s w : list N) :
  startswith s w = true -> take (List.length w) s = w.
Proof.
  intros H. rewrite (startswith_app _ _ H) at 1. rewrite take_app_length. reflexivity.
Qed.

Lemma endswith_split (s e : list N) : endswith s e = true -> exists a, s = a ++ e.
Proof.
  unfold endswith. intros H. apply startswith_app in H.
  exists (rev (drop (List.length (rev e)) (rev s))).
  rewrite <- (rev_involutive s), H at 1. rewrite rev_app_distr, rev_involutive. reflexivity.
Qed.

Lemma take_plus (j n : nat) (l : list N) : take (j + n) l = take j l ++ take n (drop j l).
Proof.
  revert l. induction j as [|j IH]; intros l; [reflexivity|].
  destruct l as [|c l]; cbn [Nat.add take drop app].
  - rewrite take_nil. reflexivity.
  - rewrite IH. reflexivity.
Qed.

(** A greedy repetition that matches consumed a run of the class. *)
Lemma rep_greedy_Some_run (p : N -> bool) (min : nat)
      (k : list N -> nat -> option (nat * caps)) (s : list N) (n pos : nat) (r : nat * caps) :
  rep_greedy p min k n s pos = Some r ->
  exists j, (min <= n + j)%nat
            /\ Forall (fun c => p c = true) (take j s)
            /\ List.length (take j s) = j
            /\ k (drop j s) (pos + j)%nat = Some r.
Proof.
  revert n pos. induction s as [|c s IH]; intros n pos; cbn [rep_greedy].
  - destruct (min <=? n)%nat eqn:E; [|discriminate].
    intros H. exists 0%nat. apply Nat.leb_le in E.
    rewrite !Nat.add_0_r. repeat split; [exact E | constructor | exact H].
  - assert (Here : (if (min <=? n)%nat then k (c :: s) pos else None) = Some r ->
                   exists j, (min <= n + j)%nat
                             /\ Forall (fun c => p c = true) (take j (c :: s))
                             /\ List.length (take j (c :: s)) = j
                             /\ k (drop j (c :: s)) (pos + j)%nat = Some r).
    { destruct (min <=? n)%nat eqn:E; [|discriminate].
      intros H. exists 0%nat. apply Nat.leb_le in E.
      rewrite !Nat.add_0_r. repeat split; [exact E | constructor | exact H]. }
    destruct (p c) eqn:Pc; [|exact Here].
    destruct (rep_greedy p min k (S n) s (S pos)) as [r'|] eqn:R; [|exact Here].
    intros [= ->]. destruct (IH _ _ R) as (j & Hj & Hall & Hlen & Hk).
    exists (S j). cbn [take drop List.length]. rewrite !Nat.add_succ_r.
    repeat split; [exact Hj | constructor; assumption | rewrite Hlen; reflexivity | exact Hk].
Qed.

Lemma rep_lazy_Some (p : N -> bool) (min : nat)
      (k : list N -> nat -> option (nat * caps)) (s : list N) (n pos : nat) (r : nat * caps) :
  rep_lazy p min k n s pos = Some r ->
  exists j, k (drop j s) (pos + j)%nat = Some r.
Proof.
  revert n pos. induction s as [|c s IH]; intros n pos; cbn [rep_lazy].
  - destruct (if (min <=? n)%nat then k [] pos else None) eqn:E; [|discriminate].
    intros [= ->]. exists 0%nat. rewrite Nat.add_0_r.
    destruct (min <=? n)%nat; [exact E | discriminate].
  - destruct (if (min <=? n)%nat then k (c :: s) pos else None) eqn:E.
    + intros [= ->]. exists 0%nat. rewrite Nat.add_0_r.
      destruct (min <=? n)%nat; [exact E | discriminate].
    + destruct (p c); [|discriminate]. intros H.
      destruct (IH _ _ H) as (j & Hj). exists (S j). rewrite Nat.add_succ_r. exact Hj.
Qed.

(** A match of [(?:x|y|...)] starts with one of the alternatives. *)
Lemma lits_Some (x : list N) (xs : list (list N)) (s : list N) (pos : nat) (cs : caps)
      (k : cont) (r : nat * caps) :
  mt (lits x xs) s pos cs k = Some r ->
  exists w, In w (x :: xs) /\ startswith s w = true
            /\ k (drop (List.length w) s) (pos + List.length w)%nat cs = Some r.
Proof.
  revert x. induction xs as [|y ys IH]; intros x; cbn [lits mt].
  - destruct (startswith s x) eqn:E; [|discriminate].
    intros H. exists x. split; [left; reflexivity|]. split; [exact E | exact H].
  - destruct (startswith s x) eqn:E.
    + destruct (k (drop (List.length x) s) (pos + List.length x)%nat cs) eqn:K.
      * intros [= ->]. exists x. split; [left; reflexivity|]. split; [exact E | exact K].
      * intros H. destruct (IH _ H) as (w & Hw & H1 & H2).
        exists w. split; [right; exact Hw|]. split; assumption.
    + intros H. destruct (IH _ H) as (w & Hw & H1 & H2).
      exists w. split; [right; exact Hw|]. split; assumption.
Qed.

(** Every match [finditer] reports starts at some position of the text. *)
Lemma finditer_aux_In_suffix (r : re) (s : list N) (skip : nat) (m : rmatch) :
  In m (finditer_aux r skip s) ->
  exists pre c s' len cs,
    s = pre ++ c :: s' /\ match_at r (c :: s') = Some (len, cs)
    /\ m = mkMatch (take len (c :: s')) cs.
Proof.
  revert skip. induction s as [|c s IH]; intros skip; cbn [finditer_aux In]; [tauto|].
  assert (Rest : forall k, In m (finditer_aux r k s) ->
            exists pre c0 s' len cs,
              c :: s = pre ++ c0 :: s' /\ match_at r (c0 :: s') = Some (len, cs)
              /\ m = mkMatch (take len (c0 :: s')) cs).
  { intros k H. destruct (IH _ H) as (pre & c0 & s' & len & cs & E & M & Hm).
    exists (c :: pre), c0, s', len, cs. rewrite E. auto. }
  destruct skip as [|k]; [|apply Rest].
  destruct (match_at r (c :: s)) as [[len cs]|] eqn:M; [|apply Rest].
  intros [<-|H]; [|exact (Rest _ H)].
  exists [], c, s, len, cs. auto.
Qed.

(** What a suffix pattern [([Ⴀ-ჿ]+(?:x|y|...))] captures: a non-empty
    Georgian run followed by one of the alternatives. *)
Lemma suffix_pattern_capture (x : list N) (xs : list (list N)) (text g : list N) :
  In g (Re.findall (Grp 1 (Cat geo_plus (lits x xs))) text) ->
  exists run w, g = run ++ w /\ run <> [] /\ Forall (fun c => is_geo c = true) run
                /\ In w (x :: xs).
Proof.
  unfold Re.findall, finditer. intros H. apply in_map_iff in H.
  destruct H as (m & <- & H). apply finditer_aux_In_suffix in H.
  destruct H as (pre & c & s & len & cs & _ & M & ->).
  unfold match_at, geo_plus in M. cbn [mt] in M.
  apply rep_greedy_Some_run in M. destruct M as (j & Hj & Hall & Hlen & M).
  apply lits_Some in M. destruct M as (w & Hw & Hs & M).
  injection M as _ <-. cbn [groups assoc Nat.eqb].
  exists (take j (c :: s)), w. rewrite Nat.sub_0_r.
  split; [|split; [|split; assumption]].
  - rewrite take_plus, (startswith_take _ _ Hs). reflexivity.
  - destruct j as [|j]; [lia|]. discriminate.
Qed.

(** A capture of a suffix pattern is a piece of the text. *)
Lemma suffix_pattern_occurs (x : list N) (xs : list (list N)) (text g : list N) :
  In g (Re.findall (Grp 1 (Cat geo_plus (lits x xs))) text) ->
  exists pre post, text = pre ++ g ++ post.
Proof.
  unfold Re.findall, finditer. intros H. apply in_map_iff in H.
  destruct H as (m & <- & H). apply finditer_aux_In_suffix in H.
  destruct H as (pre & c & s & len & cs & E & M & ->).
  unfold match_at, geo_plus in M. cbn [mt] in M.
  apply rep_greedy_Some_run in M. destruct M as (j & _ & _ & _ & M).
  apply lits_Some in M. destruct M as (w & _ & _ & M).
  injection M as _ <-. cbn [groups assoc Nat.eqb].
  exists pre, (drop (0 + j + List.length w - 0) (c :: s)).
  rewrite take_drop. exact E.
Qed.

Lemma contains_occurs (pre g post : list N) : contains (pre ++ g ++ post) g = true.
Proof.
  induction pre as [|c pre IH].
  - cbn [app]. destruct (g ++ post) eqn:E; cbn [contains]; rewrite <- E;
      rewrite startswith_prefix; reflexivity.
  - cbn [app contains]. rewrite IH. apply orb_true_r.
Qed.

(** ** Morphological classifier, continued *)

Lemma existsb_endswith_app (endings : list (list N)) (a s : list N) :
  existsb (fun e => endswith s e) endings = true ->
  existsb (fun e => endswith (a ++ s) e) endings = true.
Proof.
  rewrite !existsb_exists. intros (e & He & H). exists e. split; [exact He|].
  apply endswith_app_r, H.
Qed.

(** X1: a token is a patronymic exactly when it ends in one of six
    endings (the other seven of the list only extend these); so every
    extension of a patronymic to the left is a patronymic, and the empty
    token is none. *)
Theorem is_patronymic_minimal_endings :
  (forall name : list N,
      is_patronymic name = true <->
      exists a e, In e minimal_patronymic_endings /\ name = a ++ e)
  /\ (forall a name : list N, is_patronymic name = true -> is_patronymic (a ++ name) = true)
  /\ is_patronymic [] = false.
Proof.
  split; [|split; [|reflexivity]].
  - intros name. unfold is_patronymic. rewrite existsb_exists. split.
    + intros (e & He & H). apply endswith_split in H. destruct H as (a & ->).
      assert (A : forallb (fun e => existsb (fun e' => endswith e e') minimal_patronymic_endings)
                          patronymic_endings = true) by (vm_compute; reflexivity).
      rewrite forallb_forall in A. specialize (A e He). apply existsb_exists in A.
      destruct A as (e' & He' & H'). apply endswith_split in H'. destruct H' as (b & ->).
      exists (a ++ b), e'. split; [exact He'|]. rewrite app_assoc. reflexivity.
    + intros (a & e & He & ->). exists e. split; [|apply endswith_app].
      assert (A : forallb (fun e => str_in e patronymic_endings) minimal_patronymic_endings
                  = true) by (vm_compute; reflexivity).
      rewrite forallb_forall in A. apply str_in_In, A, He.
  - intros a name. unfold is_patronymic. apply existsb_endswith_app.
Qed.

Lemma is_patronymic_minimal_endings_witness :
  is_patronymic (py "გიორგი" ++ py "ანისძე") = true.
Proof.
  apply (proj1 (proj2 is_patronymic_minimal_endings) (py "გიორგი") (py "ანისძე")).
  vm_compute. reflexivity.
Defined.

(** X2: the surname endings of [is_actual_place] never decide: a token is
    an actual place exactly when it is no patronymic and is on the
    allow-list. *)
Theorem is_actual_place_decided_by_patronymic (name : list N) :
  is_actual_place name = negb (is_patronymic name) && str_in name known_places.
Proof.
  unfold is_actual_place, is_patronymic.
  destruct (existsb _ patronymic_endings); [reflexivity|]. cbn [negb andb].
  destruct (str_in name known_places) eqn:K.
  - assert (A : forallb (fun n => negb (existsb (fun e => endswith n e) surname_endings))
                        known_places = true) by (vm_compute; reflexivity).
    rewrite forallb_forall in A. apply str_in_In in K.
    specialize (A name K). apply negb_true_iff in A. rewrite A. reflexivity.
  - destruct (existsb _ surname_endings); reflexivity.
Qed.

(** ** Patronymic and surname search *)

Lemma find_default (f : list N -> bool) (l : list (list N)) :
  default [] (find f l) = [] \/ (In (default [] (find f l)) l /\ f (default [] (find f l)) = true).
Proof.
  destruct (find f l) as [m|] eqn:F; [|left; reflexivity].
  right. exact (find_some _ _ F).
Qed.

Ltac suffix_pattern_shape :=
  match goal with
  | |- exists x xs, Grp 1 (Cat geo_plus (lits ?a ?b)) = _ /\ _ =>
    exists a, b; split; [reflexivity | vm_compute; reflexivity]
  | |- exists x xs, Grp 1 (Cat geo_plus (Lit ?a)) = _ /\ _ =>
    exists a, []; split; [reflexivity | vm_compute; reflexivity]
  end.

Lemma patronymic_patterns_shape :
  Forall (fun pattern => exists x xs,
              pattern = Grp 1 (Cat geo_plus (lits x xs))
              /\ forallb (fun w => str_in w patronymic_endings) (x :: xs) = true)
         patronymic_patterns.
Proof.
  unfold patronymic_patterns. repeat (constructor; [suffix_pattern_shape|]). constructor.
Qed.

Lemma surname_patterns_shape :
  Forall (fun pattern => exists x xs,
              pattern = Grp 1 (Cat geo_plus (lits x xs))
              /\ forallb (fun w => str_in w surname_endings) (x :: xs) = true)
         surname_patterns.
Proof.
  unfold surname_patterns. repeat (constructor; [suffix_pattern_shape|]). constructor.
Qed.

(** X3: the patronymic found in a text is empty or a piece of the text
    that differs from the main name, consists of a non-empty Georgian run
    and one of the patronymic endings, and so passes [is_patronymic]. *)
Theorem extract_patronymic_from_text_sound (text main_name : list N) :
  extract_patronymic_from_text text main_name = []
  \/ (extract_patronymic_from_text text main_name <> main_name
      /\ is_patronymic (extract_patronymic_from_text text main_name) = true
      /\ contains text (extract_patronymic_from_text text main_name) = true
      /\ exists run ending,
          extract_patronymic_from_text text main_name = run ++ ending
          /\ run <> [] /\ Forall (fun c => is_geo c = true) run
          /\ In ending patronymic_endings).
Proof.
  unfold extract_patronymic_from_text.
  destruct (find_default (fun m => negb (str_eqb m main_name))
              (flat_map (fun pattern => Re.findall pattern text) patronymic_patterns))
    as [E|[Hin Hf]]; [left; exact E | right].
  set (r := default [] _) in *.
  apply negb_true_iff, str_eqb_neq in Hf. split; [exact Hf|].
  apply in_flat_map in Hin. destruct Hin as (pattern & Hp & Hin).
  pose proof patronymic_patterns_shape as S. rewrite Forall_forall in S.
  destruct (S pattern ltac:(apply list_elem_of_In; exact Hp)) as (x & xs & -> & Hall).
  destruct (suffix_pattern_occurs _ _ _ _ Hin) as (pre & post & Ht).
  destruct (suffix_pattern_capture _ _ _ _ Hin) as (run & w & Hr & Hne & Hgeo & Hw).
  rewrite forallb_forall in Hall. specialize (Hall w Hw). apply str_in_In in Hall.
  split; [|split].
  - rewrite Hr. unfold is_patronymic. apply existsb_exists. exists w.
    split; [exact Hall | apply endswith_app].
  - rewrite Ht. apply contains_occurs.
  - exists run, w. auto.
Qed.

(** X4: the surname found in a text is empty or a piece of the text that
    ends in ელი, differs from the main name and from the patronymic, and
    is no patronymic; the patterns for აძე and ავაძე never supply it. *)
Theorem extract_surname_from_text_sound (text main_name patronymic : list N) :
  extract_surname_from_text text main_name patronymic = []
  \/ (extract_surname_from_text text main_name patronymic <> main_name
      /\ extract_surname_from_text text main_name patronymic <> patronymic
      /\ is_patronymic (extract_surname_from_text text main_name patronymic) = false
      /\ contains text (extract_surname_from_text text main_name patronymic) = true
      /\ endswith (extract_surname_from_text text main_name patronymic) (py "ელი") = true).
Proof.
  unfold extract_surname_from_text.
  destruct (find_default
              (fun m => negb (str_eqb m main_name) && negb (str_eqb m patronymic)
                        && negb (is_patronymic m))
              (flat_map (fun pattern => Re.findall pattern text) surname_patterns))
    as [E|[Hin Hf]]; [left; exact E | right].
  set (r := default [] _) in *.
  apply andb_true_iff in Hf. destruct Hf as [Hf H3]. apply andb_true_iff in Hf.
  destruct Hf as [H1 H2].
  apply negb_true_iff, str_eqb_neq in H1. apply negb_true_iff, str_eqb_neq in H2.
  apply negb_true_iff in H3.
  split; [exact H1|]. split; [exact H2|]. split; [exact H3|].
  apply in_flat_map in Hin. destruct Hin as (pattern & Hp & Hin).
  pose proof surname_patterns_shape as S. rewrite Forall_forall in S.
  destruct (S pattern ltac:(apply list_elem_of_In; exact Hp)) as (x & xs & -> & Hall).
  destruct (suffix_pattern_occurs _ _ _ _ Hin) as (pre & post & Ht).
  destruct (suffix_pattern_capture _ _ _ _ Hin) as (run & w & Hr & _ & _ & Hw).
  rewrite forallb_forall in Hall. specialize (Hall w Hw).
  split; [rewrite Ht; apply contains_occurs|].
  assert (A : forallb (fun w => endswith w (py "ელი")
                                || existsb (fun e => endswith w e) patronymic_endings)
                      surname_endings = true) by (vm_compute; reflexivity).
  rewrite forallb_forall in A. apply str_in_In in Hall. specialize (A w Hall).
  apply orb_true_iff in A. destruct A as [A|A].
  - rewrite Hr. apply endswith_app_r, A.
  - exfalso. apply (existsb_endswith_app _ run) in A. rewrite <- Hr in A.
    unfold is_patronymic in H3. congruence.
Qed.

(** ** Text normalizer, continued *)

Lemma rstrip_last (s : list N) (c : N) : last (rstrip s) = Some c -> isspace c = false.
Proof.
  induction s as [|x s IH]; [discriminate|].
  cbn [rstrip]. destruct (rstrip s) as [|y r] eqn:R.
  - destruct (isspace x) eqn:E; [discriminate|]. intros [= <-]. exact E.
  - exact IH.
Qed.

Lemma rstrip_id (s : list N) :
  (forall c, last s = Some c -> isspace c = false) -> rstrip s = s.
Proof.
  induction s as [|x s IH]; [reflexivity|]. intros H.
  destruct s as [|y r].
  - cbn [rstrip]. rewrite (H x eq_refl). reflexivity.
  - change (rstrip (x :: y :: r)) with
      (match rstrip (y :: r) with [] => if isspace x then [] else [x] | z => x :: z end).
    rewrite IH; [reflexivity|]. intros c Hc. apply H. exact Hc.
Qed.

Lemma strip_no_edge_blank (s : list N) : no_edge_blank (strip s) = true.
Proof.
  unfold no_edge_blank, strip. apply andb_true_iff. split.
  - pose proof (lstrip_head s) as H. destruct (lstrip s) as [|c z]; [reflexivity|].
    rewrite (rstrip_cons c z H). cbn [head]. rewrite H. reflexivity.
  - destruct (last (rstrip (lstrip s))) as [c|] eqn:L; [|reflexivity].
    rewrite (rstrip_last _ _ L). reflexivity.
Qed.

Lemma no_edge_blank_strip (s : list N) : no_edge_blank s = true -> strip s = s.
Proof.
  unfold no_edge_blank, strip. rewrite andb_true_iff. intros [H1 H2].
  assert (L : lstrip s = s).
  { apply lstrip_id. destruct s as [|c s]; [exact I|]. cbn [head] in H1.
    apply negb_true_iff, H1. }
  rewrite L. apply rstrip_id. intros c Hc. rewrite Hc in H2. apply negb_true_iff, H2.
Qed.

Lemma Forall_forallb_negb (f : N -> bool) (l : list N) :
  Forall (fun c => f c = false) l <-> forallb (fun c => negb (f c)) l = true.
Proof.
  rewrite forallb_forall, Forall_forall. split; intros H c Hc.
  - apply negb_true_iff, H, list_elem_of_In, Hc.
  - apply negb_true_iff, H, list_elem_of_In, Hc.
Qed.

Lemma abbreviations_absent (s : list N) :
  Forall (fun ab => contains s (fst ab) = false) abbreviations
  <-> forallb (fun ab => negb (contains s (fst ab))) abbreviations = true.
Proof.
  rewrite forallb_forall, Forall_forall. split; intros H ab Hab.
  - apply negb_true_iff, H, list_elem_of_In, Hab.
  - apply negb_true_iff, H, list_elem_of_In, Hab.
Qed.

Lemma clean_text_is_clean (x : option (list N)) : is_clean (clean_text x) = true.
Proof.
  destruct x as [text|]; [|reflexivity]. rewrite clean_text_Some.
  destruct (expand_normal text) as (HA & HS & HC).
  unfold is_clean. rewrite !andb_true_iff. repeat split.
  - apply Forall_forallb_negb, strip_Forall, HA.
  - unfold strip. apply single_spaced_rstrip, (single_spaced_lstrip false), HS.
  - apply abbreviations_absent, Forall_forall. intros ab Hab.
    rewrite Forall_forall in HC. apply strip_contains; [|apply HC, Hab].
    pose proof abbreviations_nonempty as HN. rewrite Forall_forall in HN. apply HN, Hab.
  - apply strip_no_edge_blank.
Qed.

Lemma is_clean_fixed (s : list N) : is_clean s = true -> clean_text (Some s) = s.
Proof.
  unfold is_clean. rewrite !andb_true_iff. intros [[[HA HS] HC] HE].
  rewrite clean_text_Some, expand_fixed.
  - apply no_edge_blank_strip, HE.
  - apply Forall_forallb_negb, HA.
  - exact HS.
  - apply abbreviations_absent, HC.
Qed.

(** X5: the results of [clean_text] are exactly the texts in normal form
    (no brace, bracket or backslash, blanks only as single U+0020 between
    other code points, none of the three abbreviations), and these are
    exactly the texts it leaves unchanged. *)
Theorem clean_text_normal_form :
  (forall x : option (list N), is_clean (clean_text x) = true)
  /\ (forall s : list N, clean_text (Some s) = s <-> is_clean s = true).
Proof.
  split; [exact clean_text_is_clean|].
  intros s. split; [|apply is_clean_fixed].
  intros E. rewrite <- E. apply clean_text_is_clean.
Qed.

Lemma lstrip_length (s : list N) : (List.length (lstrip s) <= List.length s)%nat.
Proof.
  destruct (lstrip_suffix s) as (w & E). rewrite E at 2. rewrite length_app. lia.
Qed.

Lemma rstrip_length (s : list N) : (List.length (rstrip s) <= List.length s)%nat.
Proof.
  destruct (rstrip_prefix s) as (w & E). rewrite E at 2. rewrite length_app. lia.
Qed.

Lemma sub_ws_length (s : list N) :
  (List.length (sub (Rep isspace 1 true) (py " ") s) <= List.length s)%nat.
Proof.
  remember (List.length s) as n eqn:Hn.
  revert s Hn. induction (lt_wf n) as [n _ IH]. intros s Hn.
  destruct s as [|c s]; [subst n; cbn; lia|].
  rewrite sub_ws_cons. pose proof (lstrip_length s) as L.
  destruct (isspace c).
  - change (py " " ++ ?x) with (32 :: x). cbn [List.length] in Hn |- *.
    specialize (IH (List.length (lstrip s)) ltac:(lia) (lstrip s) eq_refl). lia.
  - cbn [List.length] in Hn |- *.
    specialize (IH (List.length s) ltac:(lia) s eq_refl). lia.
Qed.

Lemma sub_lit_length (p r s : list N) :
  p <> [] -> (List.length r <= List.length p)%nat ->
  (List.length (sub (Lit p) r s) <= List.length s)%nat.
Proof.
  intros Hp Hr.
  apply (sub_lit_ind p r Hp (fun s t => (List.length t <= List.length s)%nat)).
  - cbn. lia.
  - intros c s' E IH. rewrite (startswith_app _ _ E) at 2.
    rewrite !length_app. lia.
  - intros c s' _ IH. cbn [List.length]. lia.
Qed.

Lemma fold_sub_lit_length (abbrs : list (list N * list N)) (s : list N) :
  Forall (fun ab => fst ab <> [] /\ (List.length (snd ab) <= List.length (fst ab))%nat) abbrs ->
  (List.length (fold_left (fun t ab => sub (Lit (fst ab)) (snd ab) t) abbrs s)
   <= List.length s)%nat.
Proof.
  intros H. revert s. induction H as [|ab abbrs [H1 H2] _ IH]; intros s; cbn [fold_left].
  - lia.
  - specialize (IH (sub (Lit (fst ab)) (snd ab) s)).
    pose proof (sub_lit_length _ _ s H1 H2). lia.
Qed.

(** X6: [clean_text] never makes a text longer. *)
Theorem clean_text_length (s : list N) :
  (List.length (clean_text (Some s)) <= List.length s)%nat.
Proof.
  rewrite clean_text_Some. unfold strip, expand.
  pose proof (rstrip_length (lstrip (fold_left (fun t ab => sub (Lit (fst ab)) (snd ab) t)
     abbreviations (sub (Rep isspace 1 true) (py " ") (sub (Cls is_artifact) [] s))))) as H1.
  pose proof (lstrip_length (fold_left (fun t ab => sub (Lit (fst ab)) (snd ab) t)
     abbreviations (sub (Rep isspace 1 true) (py " ") (sub (Cls is_artifact) [] s)))) as H2.
  assert (A : Forall (fun ab => fst ab <> []
                                /\ (List.length (snd ab) <= List.length (fst ab))%nat)
                     abbreviations).
  { unfold abbreviations.
    repeat (constructor; [split; cbn [fst snd]; [abbreviation_side | vm_compute; lia]|]).
    constructor. }
  pose proof (fold_sub_lit_length abbreviations
                (sub (Rep isspace 1 true) (py " ") (sub (Cls is_artifact) [] s)) A) as H3.
  pose proof (sub_ws_length (sub (Cls is_artifact) [] s)) as H4.
  assert (H5 : (List.length (sub (Cls is_artifact) [] s) <= List.length s)%nat).
  { rewrite sub_cls. apply filter_length_le. }
  lia.
Qed.

(** ** Free-text extraction: what the patterns can match *)

Lemma In_take (j : nat) (l : list N) (c : N) : In c (take j l) -> In c l.
Proof.
  rewrite <- (take_drop j l) at 2. intros H. apply in_or_app. left. exact H.
Qed.





(** The name a kinship pattern captures: a non-empty Georgian run of the
    text, followed by blanks and the kinship word. *)
Lemma kin_pattern_capture (word text : list N) (m : rmatch) :
  In m (finditer (kin_pattern word) text) ->
  group m 1 <> []
  /\ Forall (fun c => is_geo c = true) (group m 1)
  /\ exists pre blanks post,
      text = pre ++ group m 1 ++ blanks ++ word ++ post
      /\ Forall (fun c => isspace c = true) blanks.
Proof.
  intros H. apply finditer_aux_In_suffix in H.
  destruct H as (pre & c & s & len & cs & E & M & ->).
  unfold match_at, kin_pattern, geo_plus, ws_star in M. cbn [seq mt] in M.
  apply rep_greedy_Some_run in M. destruct M as (j & Hj & Hgeo & Hlen & M).
  apply rep_greedy_Some_run in M. destruct M as (j' & _ & Hws & Hlen' & M).
  destruct (startswith (drop j' (drop j (c :: s))) word) eqn:W; [|discriminate].
  injection M as _ <-. cbn [group groups assoc Nat.eqb default]. rewrite Nat.sub_0_r.
  split; [|split; [exact Hgeo|]].
  - destruct j as [|j]; [lia|]. discriminate.
  - exists pre, (take j' (drop j (c :: s))),
           (drop (List.length word) (drop j' (drop j (c :: s)))).
    split; [|exact Hws].
    rewrite E. f_equal.
    rewrite <- (take_drop j (c :: s)) at 1. f_equal.
    rewrite <- (take_drop j' (drop j (c :: s))) at 1. f_equal.
    exact (startswith_app _ _ W).
Qed.

(** ** Free-text extraction: soundness of the family list *)

Lemma family_step_cases (person_type relationship : list N) (entry : Entry) (m : rmatch) :
  family_step person_type relationship entry m = entry
  \/ (family_step person_type relationship entry m
      = append_familyMember entry (family_member (group m 1) person_type relationship)
      /\ p_name (mainPerson entry) <> Some (group m 1)
      /\ is_patronymic (group m 1) && str_in person_type [py "son"; py "daughter"] = false).
Proof.
  unfold family_step.
  destruct (negb (str_eqb (group m 1) []) && ne_opt (group m 1) (p_name (mainPerson entry)))
    eqn:C; [|left; reflexivity].
  apply andb_true_iff in C. destruct C as [_ C2]. apply ne_opt_true in C2.
  destruct (is_patronymic (group m 1) && str_in person_type [py "son"; py "daughter"]);
    [left; reflexivity | right; auto].
Qed.

Lemma family_step_fold_sound (person_type relationship : list N) (ms : list rmatch)
      (entry : Entry) :
  exists added,
    fold_left (family_step person_type relationship) ms entry
    = mkEntry (entryId entry) (entryNumber entry) (mainPerson entry)
              (familyMembers entry ++ added) (manuscript entry) (edition entry)
              (dates entry) (notes entry) (places entry)
    /\ Forall (fun f => exists m,
                   In m ms
                   /\ f = family_member (group m 1) person_type relationship
                   /\ p_name (mainPerson entry) <> Some (group m 1)
                   /\ is_patronymic (group m 1)
                      && str_in person_type [py "son"; py "daughter"] = false) added.
Proof.
  revert entry. induction ms as [|m ms IH]; intros entry; cbn [fold_left].
  - exists []. rewrite app_nil_r. split; [destruct entry; reflexivity | constructor].
  - destruct (IH (family_step person_type relationship entry m)) as (added & E & Hall).
    assert (Weak : forall l : list Person,
               Forall (fun f => exists m0, In m0 ms
                     /\ f = family_member (group m0 1) person_type relationship
                     /\ p_name (mainPerson entry) <> Some (group m0 1)
                     /\ is_patronymic (group m0 1)
                        && str_in person_type [py "son"; py "daughter"] = false) l ->
               Forall (fun f => exists m0, In m0 (m :: ms)
                     /\ f = family_member (group m0 1) person_type relationship
                     /\ p_name (mainPerson entry) <> Some (group m0 1)
                     /\ is_patronymic (group m0 1)
                        && str_in person_type [py "son"; py "daughter"] = false) l).
    { intros l Hl. eapply Forall_impl; [exact Hl|]. intros f (m0 & H0 & H1).
      exists m0. split; [right; exact H0 | exact H1]. }
    destruct (family_step_cases person_type relationship entry m) as [S|(S & C1 & C2)];
      rewrite S in E, Hall |- *.
    + exists added. split; [exact E | apply Weak, Hall].
    + cbn [append_familyMember entryId entryNumber mainPerson familyMembers manuscript
           edition dates notes places] in E, Hall.
      exists (family_member (group m 1) person_type relationship :: added).
      split; [rewrite E, <- app_assoc; reflexivity|].
      constructor; [|apply Weak, Hall].
      exists m. split; [left; reflexivity|]. split; [reflexivity|]. split; assumption.
Qed.

Lemma extract_family_from_text_sound (text : list N) (entry : Entry) :
  exists added,
    extract_family_from_text text entry
    = mkEntry (entryId entry) (entryNumber entry) (mainPerson entry)
              (familyMembers entry ++ added) (manuscript entry) (edition entry)
              (dates entry) (notes entry) (places entry)
    /\ Forall (fun f => exists pattern person_type relationship m,
                   In (pattern, person_type, relationship) family_patterns
                   /\ In m (finditer pattern text)
                   /\ f = family_member (group m 1) person_type relationship
                   /\ p_name (mainPerson entry) <> Some (group m 1)
                   /\ is_patronymic (group m 1)
                      && str_in person_type [py "son"; py "daughter"] = false) added.
Proof.
  unfold extract_family_from_text. generalize family_patterns as pats.
  intros pats. revert entry.
  induction pats as [|[[pattern person_type] relationship] pats IH]; intros entry;
    cbn [fold_left].
  - exists []. rewrite app_nil_r. split; [destruct entry; reflexivity | constructor].
  - destruct (family_step_fold_sound person_type relationship (finditer pattern text) entry)
      as (a1 & E1 & H1).
    rewrite E1.
    destruct (IH (mkEntry (entryId entry) (entryNumber entry) (mainPerson entry)
                          (familyMembers entry ++ a1) (manuscript entry) (edition entry)
                          (dates entry) (notes entry) (places entry))) as (a2 & E2 & H2).
    cbn [entryId entryNumber mainPerson familyMembers manuscript edition dates notes places]
      in E2, H2.
    exists (a1 ++ a2). split; [rewrite E2, <- app_assoc; reflexivity|].
    apply Forall_app. split.
    + eapply Forall_impl; [exact H1|]. intros f (m & Hm & Hf).
      exists pattern, person_type, relationship, m. split; [left; reflexivity|]. tauto.
    + eapply Forall_impl; [exact H2|]. intros f (pat & ty & rel & m & Hp & Hf).
      exists pat, ty, rel, m. split; [right; exact Hp | exact Hf].
Qed.

(** ** How the passes over an entry compose *)

Lemma place_frame_refl (e : Entry) : place_frame e e.
Proof. exists (mainPerson e), (places e). split; [destruct e; reflexivity | reflexivity]. Qed.

Lemma place_frame_trans (e1 e2 e3 : Entry) :
  place_frame e1 e2 -> place_frame e2 e3 -> place_frame e1 e3.
Proof.
  intros (m2 & p2 & -> & S2) (m3 & p3 & -> & S3). cbn in S3 |- *.
  exists m3, p3. split; [reflexivity|]. unfold same_but_place in *. congruence.
Qed.

Lemma add_place_frame (e : Entry) (p : list N) : place_frame e (add_place e p).
Proof.
  unfold add_place. eexists _, _. split; [reflexivity|].
  destruct (truthy (p_place (mainPerson e))); reflexivity.
Qed.

Lemma add_place_inv (e : Entry) (p : list N) :
  p <> [] -> place_inv e -> place_inv (add_place e p).
Proof.
  intros Hp [H1 H2]. unfold place_inv, add_place. cbn [mainPerson places]. split.
  - destruct (places e) as [|x pl] eqn:E; cbn [head] in H1 |- *.
    + rewrite H1. cbn [truthy set_place p_place app head]. reflexivity.
    + rewrite H1. apply Forall_cons in H2. destruct H2 as [Hx _].
      destruct x as [|c x]; [congruence|]. cbn [truthy]. exact H1.
  - apply Forall_app. split; [exact H2|]. repeat constructor. exact Hp.
Qed.

(** A loop that adds some of the listed places. *)
Lemma cond_add_place_fold (f : Entry -> list N -> bool) (l : list (list N)) (e : Entry) :
  place_frame e (fold_left (fun e p => if f e p then add_place e p else e) l e)
  /\ ((forall e' p, In p l -> f e' p = true -> p <> []) ->
      place_inv e ->
      place_inv (fold_left (fun e p => if f e p then add_place e p else e) l e)).
Proof.
  revert e. induction l as [|p l IH]; intros e; cbn [fold_left].
  - split; [apply place_frame_refl | tauto].
  - destruct (IH (if f e p then add_place e p else e)) as [F I]. split.
    + eapply place_frame_trans; [|exact F].
      destruct (f e p); [apply add_place_frame | apply place_frame_refl].
    + intros Hf Hinv. apply I.
      * intros e' q Hq. apply Hf. right. exact Hq.
      * destruct (f e p) eqn:E; [|exact Hinv].
        apply add_place_inv; [|exact Hinv]. apply (Hf e p); [left; reflexivity | exact E].
Qed.

Lemma is_actual_place_nonempty (p : list N) : is_actual_place p = true -> p <> [].
Proof. intros H ->. discriminate H. Qed.

Lemma text_known_places_nonempty (p : list N) : In p text_known_places -> p <> [].
Proof.
  intros H ->. apply str_in_In in H. discriminate H.
Qed.

Lemma extract_places_from_text_frame (text : list N) (e : Entry) :
  place_frame e (extract_places_from_text text e)
  /\ (place_inv e -> place_inv (extract_places_from_text text e)).
Proof.
  unfold extract_places_from_text.
  destruct (cond_add_place_fold (fun _ p => is_actual_place p)
              (Re.findall place_pattern text) e) as [F1 I1].
  set (e1 := fold_left _ (Re.findall place_pattern text) e) in *.
  destruct (cond_add_place_fold
              (fun e p => contains text p && negb (str_in p (places e)))
              text_known_places e1) as [F2 I2].
  split; [exact (place_frame_trans _ _ _ F1 F2)|].
  intros Hinv. apply I2.
  - intros e' p Hp _. apply text_known_places_nonempty, Hp.
  - apply I1; [|exact Hinv]. intros e' p _. apply is_actual_place_nonempty.
Qed.

Lemma parse_places_frame (place_elements : list ET.Element) (e : Entry) :
  place_frame e (parse_places place_elements e)
  /\ (place_inv e -> place_inv (parse_places place_elements e)).
Proof.
  unfold parse_places. revert e.
  induction place_elements as [|x l IH]; intros e; cbn [fold_left].
  - split; [apply place_frame_refl | tauto].
  - destruct (clean_text (Some (default [] (ET.text x)))) as [|c t] eqn:E.
    + apply IH.
    + destruct (IH (add_place e (c :: t))) as [F I]. split.
      * eapply place_frame_trans; [apply add_place_frame | exact F].
      * intros Hinv. apply I, add_place_inv; [discriminate | exact Hinv].
Qed.

Lemma parse_persons_from_shape (person_elements : list ET.Element) (i : nat) (e : Entry) :
  exists main fam,
    parse_persons_from i person_elements e
    = mkEntry (entryId e) (entryNumber e) main fam (manuscript e) (edition e) (dates e)
              (notes e) (places e)
    /\ (p_place (mainPerson e) = None -> p_place main = None).
Proof.
  revert i e. induction person_elements as [|x l IH]; intros i e; cbn [parse_persons_from].
  - exists (mainPerson e), (familyMembers e). split; [destruct e; reflexivity | tauto].
  - match goal with
    | |- context [parse_persons_from (S i) l ?e1] =>
      destruct (IH (S i) e1) as (main & fam & E & Hp); rewrite E
    end.
    destruct (str_eqb _ (py "main") || (i =? 0)%nat);
      cbn [set_mainPerson append_familyMember entryId entryNumber mainPerson manuscript
           edition dates notes places p_place] in Hp |- *;
      exists main, fam; split; try reflexivity; intros H; apply Hp; try exact H; reflexivity.
Qed.

Lemma extract_main_person_from_text_shape (text : list N) (e : Entry) :
  exists main,
    extract_main_person_from_text text e
    = mkEntry (entryId e) (entryNumber e) main (familyMembers e) (manuscript e) (edition e)
              (dates e) (notes e) (places e)
    /\ p_place main = p_place (mainPerson e).
Proof.
  unfold extract_main_person_from_text. destruct (Re.findall geo_plus text).
  - exists (mainPerson e). split; [destruct e; reflexivity | reflexivity].
  - eexists. split; reflexivity.
Qed.

Lemma parse_manuscript_refs_shape (entry_elem : ET.Element) (e : Entry) :
  exists ms,
    parse_manuscript_refs entry_elem e
    = mkEntry (entryId e) (entryNumber e) (mainPerson e) (familyMembers e) ms (edition e)
              (dates e) (notes e) (places e)
    /\ (ms_page (manuscript e) = ms_folio (manuscript e) -> ms_page ms = ms_folio ms).
Proof.
  unfold parse_manuscript_refs, set_manuscript. eexists. split; [reflexivity|].
  generalize (ET.findall entry_elem (py "pb")) as pbs.
  generalize (ET.findall entry_elem (py "lb")) as lbs.
  assert (A : forall pbs ms, ms_page ms = ms_folio ms ->
            ms_page (fold_left (fun ms pb =>
                       if truthy (ET.get pb (py "n"))
                       then mkManuscript (ET.get pb (py "n")) (ET.get pb (py "n")) (ms_line ms)
                       else ms) pbs ms)
            = ms_folio (fold_left (fun ms pb =>
                       if truthy (ET.get pb (py "n"))
                       then mkManuscript (ET.get pb (py "n")) (ET.get pb (py "n")) (ms_line ms)
                       else ms) pbs ms)).
  { induction pbs as [|pb pbs IH]; intros ms H; cbn [fold_left]; [exact H|].
    apply IH. destruct (truthy _); [reflexivity | exact H]. }
  assert (B : forall lbs ms, ms_page ms = ms_folio ms ->
            ms_page (fold_left (fun ms lb =>
                       if truthy (ET.get lb (py "n"))
                       then mkManuscript (ms_page ms) (ms_folio ms) (ET.get lb (py "n"))
                       else ms) lbs ms)
            = ms_folio (fold_left (fun ms lb =>
                       if truthy (ET.get lb (py "n"))
                       then mkManuscript (ms_page ms) (ms_folio ms) (ET.get lb (py "n"))
                       else ms) lbs ms)).
  { induction lbs as [|lb lbs IH]; intros ms H; cbn [fold_left]; [exact H|].
    apply IH. destruct (truthy _); [exact H | exact H]. }
  intros lbs pbs H. apply A, B, H.
Qed.

Lemma extract_manuscript_from_text_shape (text : list N) (e : Entry) :
  exists ms,
    extract_manuscript_from_text text e
    = mkEntry (entryId e) (entryNumber e) (mainPerson e) (familyMembers e) ms (edition e)
              (dates e) (notes e) (places e)
    /\ (ms_page (manuscript e) = ms_folio (manuscript e) -> ms_page ms = ms_folio ms).
Proof.
  unfold extract_manuscript_from_text, set_manuscript. eexists. split; [reflexivity|].
  intros H. destruct (search folio_pattern text); destruct (search line_pattern text);
    cbn [ms_page ms_folio]; first [exact H | reflexivity].
Qed.

Lemma parse_entry_from_text_inv (n_entries : nat) (content entry_num : list N) (entry : Entry) :
  parse_entry_from_text n_entries content entry_num = Some entry -> entry_inv entry.
Proof.
  unfold parse_entry_from_text, parse_entry_from_text_body.
  destruct (if isdigit entry_num then _ else _) as [entry_number|ex];
    cbn [mbind res_bind try_except]; [|discriminate].
  intros [= <-].
  match goal with
  | |- context [extract_main_person_from_text content ?e0] =>
    destruct (extract_main_person_from_text_shape content e0) as (m1 & -> & P1)
  end.
  cbn [entryId entryNumber mainPerson familyMembers manuscript edition dates notes places
       empty_person p_place] in P1 |- *.
  match goal with
  | |- context [extract_family_from_text content ?e1] =>
    destruct (extract_family_from_text_sound content e1) as (added & -> & _)
  end.
  cbn [entryId entryNumber mainPerson familyMembers manuscript edition dates notes places].
  match goal with
  | |- context [extract_places_from_text content ?e2] =>
    destruct (extract_places_from_text_frame content e2) as [(m3 & pl & E3 & S3) I3];
      rewrite E3 in I3 |- *
  end.
  cbn [entryId entryNumber mainPerson familyMembers manuscript edition dates notes places]
    in I3 |- *.
  match goal with
  | |- context [extract_manuscript_from_text content ?e3] =>
    destruct (extract_manuscript_from_text_shape content e3) as (ms & -> & M4)
  end.
  cbn [entryId entryNumber mainPerson familyMembers manuscript edition dates notes places
       ms_page ms_folio] in M4 |- *.
  unfold entry_inv.
  cbn [entryId entryNumber mainPerson familyMembers manuscript edition dates notes places].
  split; [|split; [|split; [|split]]]; try reflexivity.
  - apply I3. split; [exact P1 | constructor].
  - apply M4. reflexivity.
  - apply clean_text_is_clean.
Qed.

Lemma parse_entry_element_inv (entry_elem : ET.Element) (fallback_number : Z) (entry : Entry) :
  parse_entry_element entry_elem fallback_number = Some entry -> entry_inv entry.
Proof.
  unfold parse_entry_element, parse_entry_element_body.
  destruct (if truthy (ET.get entry_elem (py "id")) then _ else _) as [entry_id|ex];
    cbn [mbind res_bind try_except]; [|discriminate].
  destruct (if isdigit _ then _ else _) as [number|ex];
    cbn [mbind res_bind try_except]; [|discriminate].
  intros [= <-].
  cbn [entryId entryNumber mainPerson familyMembers manuscript edition dates notes places].
  unfold parse_persons.
  match goal with
  | |- context [parse_persons_from 0 ?l ?e0] =>
    destruct (parse_persons_from_shape l 0 e0) as (m1 & f1 & E1 & P1); rewrite E1
  end.
  cbn [entryId entryNumber mainPerson familyMembers manuscript edition dates notes places
       empty_person p_place] in P1 |- *.
  match goal with
  | |- context [parse_places ?l ?e1] =>
    destruct (parse_places_frame l e1) as [(m2 & pl & E2 & S2) I2]; rewrite E2 in I2 |- *
  end.
  cbn [entryId entryNumber mainPerson familyMembers manuscript edition dates notes places]
    in I2 |- *.
  match goal with
  | |- context [parse_manuscript_refs entry_elem ?e2] =>
    destruct (parse_manuscript_refs_shape entry_elem e2) as (ms & E3 & M3); rewrite E3
  end.
  cbn [entryId entryNumber mainPerson familyMembers manuscript edition dates notes places
       ms_page ms_folio] in M3 |- *.
  assert (Inv : entry_inv
                  (mkEntry entry_id number m2 f1 ms [] []
                           (clean_text (Some (ET.tostring_text entry_elem))) pl)).
  { unfold entry_inv.
    cbn [entryId entryNumber mainPerson familyMembers manuscript edition dates notes places].
    split; [|split; [|split; [|split]]]; try reflexivity.
    - apply I2. split; [apply P1; reflexivity | constructor].
    - apply M3. reflexivity.
    - apply clean_text_is_clean. }
  destruct (truthy (p_name m2)); [exact Inv|].
  match goal with
  | |- context [extract_main_person_from_text ?t ?e3] =>
    destruct (extract_main_person_from_text_shape t e3) as (m4 & -> & P4)
  end.
  cbn [entryId entryNumber mainPerson familyMembers manuscript edition dates notes places]
    in P4 |- *.
  destruct Inv as ([I1 I1'] & I3 & I4 & I5 & I6).
  cbn [entryId entryNumber mainPerson familyMembers manuscript edition dates notes places]
    in I1, I1', I3, I4.
  unfold entry_inv, place_inv.
  cbn [entryId entryNumber mainPerson familyMembers manuscript edition dates notes places].
  rewrite P4. auto.
Qed.

(** Every entry a fresh parser holds after [parse_xml_file] came out of
    one of the two per-entry parsers. *)
Lemma parse_xml_file_entries (src : xml_source) (entry : Entry) :
  In entry (entries (parse_xml_file src init)) ->
  (exists entry_elem fallback_number,
      parse_entry_element entry_elem fallback_number = Some entry)
  \/ (exists n_entries content entry_num,
         parse_entry_from_text n_entries content entry_num = Some entry).
Proof.
  destruct src as [root|xml_content|]; cbn [parse_xml_file].
  - unfold parse_xml_tree. rewrite entries_calculate_statistics. cbn [entries init].
    rewrite parse_entries_from_spec. cbn [app]. intros H.
    apply list_elem_of_In, list_elem_of_omap in H. destruct H as (o & Ho & Hid).
    cbn in Hid. subst o. apply elem_of_lookup_imap in Ho.
    destruct Ho as (j & el & Hp & _). left. eauto.
  - intros H. right. exact (extract_from_text_entries _ _ _ H).
  - intros [].
Qed.

Lemma parse_xml_file_inv (src : xml_source) :
  Forall entry_inv (entries (parse_xml_file src init)).
Proof.
  apply Forall_forall. intros entry H. apply list_elem_of_In in H.
  destruct (parse_xml_file_entries _ _ H) as [(el & fb & P)|(n & c & num & P)].
  - exact (parse_entry_element_inv _ _ _ P).
  - exact (parse_entry_from_text_inv _ _ _ _ P).
Qed.

(** ** Invariants of the entries *)

(** X7: in every entry of either path the main person's place is the
    first of the entry's places (absent when there is none), and no
    recorded place is the empty string. *)
Theorem main_place_is_first_place (src : xml_source) :
  Forall (fun entry => p_place (mainPerson entry) = head (places entry)
                       /\ Forall (fun p => p <> []) (places entry))
         (entries (parse_xml_file src init)).
Proof.
  eapply Forall_impl; [apply parse_xml_file_inv|]. intros e H. apply H.
Qed.

(** X8: in every entry of either path [page] and [folio] of the
    manuscript reference are the same (both absent or both the same
    string). *)
Theorem page_equals_folio (src : xml_source) :
  Forall (fun entry => ms_page (manuscript entry) = ms_folio (manuscript entry))
         (entries (parse_xml_file src init)).
Proof.
  eapply Forall_impl; [apply parse_xml_file_inv|]. intros e H. apply H.
Qed.

(** X9: the notes of every entry are in the normal form of [clean_text],
    so normalizing them again changes nothing; and no pass ever fills
    [edition] or [dates]. *)
Theorem notes_normalized (src : xml_source) :
  Forall (fun entry => is_clean (notes entry) = true
                       /\ clean_text (Some (notes entry)) = notes entry
                       /\ edition entry = [] /\ dates entry = [])
         (entries (parse_xml_file src init)).
Proof.
  eapply Forall_impl; [apply parse_xml_file_inv|].
  intros e (_ & _ & H & H1 & H2). split; [exact H|]. split; [|split; assumption].
  apply is_clean_fixed, H.
Qed.

(** ** Free-text extraction: the entry as a whole *)

Lemma same_but_place_fields (p q : Person) :
  same_but_place p q ->
  p_name p = p_name q /\ p_type p = p_type q /\ p_occupation p = p_occupation q
  /\ p_relationship p = p_relationship q /\ p_patronymic p = p_patronymic q
  /\ p_surname p = p_surname q.
Proof.
  unfold same_but_place, set_place. intros [= H1 H2 H3 H4 H5 H6]. auto 10.
Qed.


(** The entry [parse_entry_from_text] returns, pass by pass. *)
Lemma parse_entry_from_text_shape (n_entries : nat) (content entry_num : list N)
      (entry : Entry) :
  parse_entry_from_text n_entries content entry_num = Some entry ->
  exists number main1 main added ms pl,
    (if isdigit entry_num then int_of_str entry_num = Ok number
     else number = (Z.of_nat n_entries + 1)%Z)
    /\ main1 = mainPerson
                 (extract_main_person_from_text content
                    (mkEntry (py "entry_" ++ format_03d number) number empty_person []
                             (mkManuscript None None None) [] []
                             (clean_text (Some content)) []))
    /\ same_but_place main main1
    /\ Forall (fun f => exists pattern person_type relationship m,
                   In (pattern, person_type, relationship) family_patterns
                   /\ In m (finditer pattern content)
                   /\ f = family_member (group m 1) person_type relationship
                   /\ p_name main1 <> Some (group m 1)
                   /\ is_patronymic (group m 1)
                      && str_in person_type [py "son"; py "daughter"] = false) added
    /\ entry = mkEntry (py "entry_" ++ format_03d number) number main added ms [] []
                       (clean_text (Some content)) pl.
Proof.
  unfold parse_entry_from_text, parse_entry_from_text_body.
  assert (Rest : forall number,
    exists main1 main added ms pl,
      main1 = mainPerson
                (extract_main_person_from_text content
                   (mkEntry (py "entry_" ++ format_03d number) number empty_person []
                            (mkManuscript None None None) [] []
                            (clean_text (Some content)) []))
      /\ same_but_place main main1
      /\ Forall (fun f => exists pattern person_type relationship m,
                     In (pattern, person_type, relationship) family_patterns
                     /\ In m (finditer pattern content)
                     /\ f = family_member (group m 1) person_type relationship
                     /\ p_name main1 <> Some (group m 1)
                     /\ is_patronymic (group m 1)
                        && str_in person_type [py "son"; py "daughter"] = false) added
      /\ extract_manuscript_from_text content
           (extract_places_from_text content
              (extract_family_from_text content
                 (extract_main_person_from_text content
                    (mkEntry (py "entry_" ++ format_03d number) number empty_person []
                             (mkManuscript None None None) [] []
                             (clean_text (Some content)) []))))
         = mkEntry (py "entry_" ++ format_03d number) number main added ms [] []
                   (clean_text (Some content)) pl).
  { intros number.
    match goal with
    | |- context [extract_main_person_from_text content ?e0] =>
      destruct (extract_main_person_from_text_shape content e0) as (m1 & E1 & _);
        rewrite E1
    end.
    cbn [entryId entryNumber mainPerson familyMembers manuscript edition dates notes places].
    match goal with
    | |- context [extract_family_from_text content ?e1] =>
      destruct (extract_family_from_text_sound content e1) as (added & -> & Hall)
    end.
    cbn [entryId entryNumber mainPerson familyMembers manuscript edition dates notes places
         app] in Hall |- *.
    match goal with
    | |- context [extract_places_from_text content ?e2] =>
      destruct (extract_places_from_text_frame content e2) as [(m3 & pl & -> & S3) _]
    end.
    cbn [entryId entryNumber mainPerson familyMembers manuscript edition dates notes places]
      in S3 |- *.
    match goal with
    | |- context [extract_manuscript_from_text content ?e3] =>
      destruct (extract_manuscript_from_text_shape content e3) as (ms & -> & _)
    end.
    cbn [entryId entryNumber mainPerson familyMembers manuscript edition dates notes places].
    exists m1, m3, added, ms, pl.
    split; [reflexivity|]. split; [exact S3|]. split; [exact Hall | reflexivity]. }
  destruct (isdigit entry_num).
  - destruct (int_of_str entry_num) as [number|ex] eqn:Hn;
      cbn [mbind res_bind try_except]; [|discriminate].
    intros [= <-]. destruct (Rest number) as (m1 & m3 & added & ms & pl & H1 & H2 & H3 & H4).
    exists number, m1, m3, added, ms, pl. auto.
  - cbn [mbind res_bind try_except]. intros [= <-].
    destruct (Rest (Z.of_nat n_entries + 1)%Z)
      as (m1 & m3 & added & ms & pl & H1 & H2 & H3 & H4).
    exists (Z.of_nat n_entries + 1)%Z, m1, m3, added, ms, pl. auto.
Qed.

(** X10: every family member of a free-text entry comes from a kinship
    pattern: its name is a non-empty Georgian run of the text, followed by
    optional blanks and the kinship word kept as [relationship]; the name
    differs from the main person's; a son or a daughter never has a name
    that passes [is_patronymic]. *)
Theorem free_text_family_sound (n_entries : nat) (content entry_num : list N) (entry : Entry) :
  parse_entry_from_text n_entries content entry_num = Some entry ->
  Forall (fun f => exists name person_type relationship,
              f = family_member name person_type relationship
              /\ In (kin_pattern relationship, person_type, relationship) family_patterns
              /\ name <> [] /\ Forall (fun c => is_geo c = true) name
              /\ p_name (mainPerson entry) <> Some name
              /\ (str_in person_type [py "son"; py "daughter"] = true ->
                  is_patronymic name = false)
              /\ exists pre blanks post,
                  content = pre ++ name ++ blanks ++ relationship ++ post
                  /\ Forall (fun c => isspace c = true) blanks)
         (familyMembers entry).
Proof.
  intros H. destruct (parse_entry_from_text_shape _ _ _ _ H)
    as (number & main1 & main & added & ms & pl & _ & _ & S & Hall & ->).
  cbn [familyMembers mainPerson].
  destruct (same_but_place_fields _ _ S) as (Hname & _).
  eapply Forall_impl; [exact Hall|].
  intros f (pattern & ty & rel & m & Hp & Hm & -> & Hne & Hpat).
  pose proof (family_patterns_kin _ _ _ Hp) as ->.
  destruct (kin_pattern_capture _ _ _ Hm) as (N1 & N2 & N3).
  exists (group m 1), ty, rel. split; [reflexivity|]. split; [exact Hp|].
  split; [exact N1|]. split; [exact N2|]. split; [rewrite Hname; exact Hne|].
  split; [|exact N3].
  intros Hty. rewrite Hty, andb_true_r in Hpat. exact Hpat.
Qed.

Lemma free_text_family_sound_witness :
  exists entry,
    parse_entry_from_text 0 (py "იოანე, დავით  შვილი, გიორგიძე შვილი") (py "4") = Some entry
    /\ map p_name (familyMembers entry) = [Some (py "დავით")]
    /\ Forall (fun f => p_name (mainPerson entry) <> p_name f) (familyMembers entry).
Proof.
  eexists. split; [vm_compute; reflexivity|]. split; [vm_compute; reflexivity|].
  eapply Forall_impl;
    [exact (free_text_family_sound
              0 (py "იოანე, დავით  შვილი, გიორგიძე შვილი") (py "4") _
              ltac:(vm_compute; reflexivity))|].
  intros f (name & ty & rel & -> & _ & _ & _ & Hne & _). exact Hne.
Defined.

(** ** Free-text extraction: texts without Georgian script *)








(** ** Free-text extraction: the main person *)

(** A greedy repetition in front of an accepting continuation, on a text
    that starts with a maximal run of the class. *)
Lemma rep_greedy_exact (p : N -> bool) (min : nat) (k : list N -> nat -> option (nat * caps))
      (run post : list N) (n pos : nat) :
  (forall s1 p1, k s1 p1 = Some (p1, [])) ->
  forallb p run = true ->
  match post with [] => True | c :: _ => p c = false end ->
  (min <= n + List.length run)%nat ->
  rep_greedy p min k n (run ++ post) pos = Some ((pos + List.length run)%nat, []).
Proof.
  intros Hk. revert n pos. induction run as [|c run IH]; intros n pos Hrun Hpost Hmin.
  - cbn [app List.length] in *. rewrite Nat.add_0_r in *.
    apply Nat.leb_le in Hmin.
    destruct post as [|c post]; cbn [rep_greedy]; rewrite ?Hpost, Hmin, Hk; reflexivity.
  - cbn [forallb] in Hrun. apply andb_true_iff in Hrun. destruct Hrun as [Hc Hrun].
    cbn [app rep_greedy List.length]. rewrite Hc.
    rewrite (IH (S n) (S pos) Hrun Hpost) by (cbn [List.length] in Hmin; lia).
    f_equal. f_equal. lia.
Qed.

(** The first match of [[Ⴀ-ჿ]+] is the first maximal Georgian run. *)
Lemma findall_geo_plus_first (pre run post : list N) :
  forallb (fun c => negb (is_geo c)) pre = true ->
  run <> [] ->
  forallb is_geo run = true ->
  match post with [] => True | c :: _ => is_geo c = false end ->
  head (Re.findall geo_plus (pre ++ run ++ post)) = Some run.
Proof.
  intros Hpre Hne Hrun Hpost. unfold Re.findall, finditer.
  induction pre as [|c pre IH].
  - destruct run as [|c run]; [congruence|]. cbn [app finditer_aux].
    unfold match_at, geo_plus. cbn [mt].
    change (c :: run ++ post) with ((c :: run) ++ post).
    rewrite (rep_greedy_exact is_geo 1 _ (c :: run) post 0 0); try assumption;
      [|reflexivity | cbn [List.length]; lia].
    cbn [Nat.add map head groups assoc group0]. rewrite take_app_length. reflexivity.
  - cbn [forallb] in Hpre. apply andb_true_iff in Hpre. destruct Hpre as [Hc Hpre].
    apply negb_true_iff in Hc.
    cbn [app finditer_aux]. unfold match_at, geo_plus. cbn [mt rep_greedy Nat.leb].
    rewrite Hc. exact (IH Hpre).
Qed.

Lemma determine_person_type_range (text : list N) :
  In (determine_person_type text)
     [py "evangelist"; py "bishop"; py "priest"; py "monk"; py "main"]
  /\ get_occupation_from_type (determine_person_type text)
     = if str_eqb (determine_person_type text) (py "main") then []
       else determine_person_type text.
Proof.
  unfold determine_person_type.
  destruct (contains _ (py "მახარებელ"));
    [split; [left; reflexivity | vm_compute; reflexivity]|].
  destruct (contains _ (py "ეპისკოპოს"));
    [split; [right; left; reflexivity | vm_compute; reflexivity]|].
  destruct (contains _ (py "მღვდელ"));
    [split; [right; right; left; reflexivity | vm_compute; reflexivity]|].
  destruct (contains _ (py "ბერ"));
    [split; [right; right; right; left; reflexivity | vm_compute; reflexivity]|].
  split; [right; right; right; right; left; reflexivity | vm_compute; reflexivity].
Qed.

(** X12: the main person of a free-text entry is named by the first
    maximal run of Georgian code points of the text; the type is one of
    evangelist, bishop, priest, monk and main, and the occupation is the
    type, except that main gives the empty occupation. *)
Theorem free_text_main_person (n_entries : nat) (content entry_num : list N) (entry : Entry)
        (pre run post : list N) :
  parse_entry_from_text n_entries content entry_num = Some entry ->
  content = pre ++ run ++ post ->
  forallb (fun c => negb (is_geo c)) pre = true ->
  run <> [] ->
  forallb is_geo run = true ->
  match post with [] => True | c :: _ => is_geo c = false end ->
  p_name (mainPerson entry) = Some run
  /\ p_type (mainPerson entry) = Some (determine_person_type content)
  /\ In (determine_person_type content)
        [py "evangelist"; py "bishop"; py "priest"; py "monk"; py "main"]
  /\ p_occupation (mainPerson entry)
     = Some (if str_eqb (determine_person_type content) (py "main") then []
             else determine_person_type content).
Proof.
  intros H Hc Hpre Hne Hrun Hpost.
  destruct (parse_entry_from_text_shape _ _ _ _ H)
    as (number & main1 & main & added & ms & pl & _ & Hm1 & S & _ & ->).
  cbn [mainPerson].
  destruct (same_but_place_fields _ _ S) as (-> & -> & -> & _).
  pose proof (findall_geo_plus_first pre run post Hpre Hne Hrun Hpost) as F.
  rewrite <- Hc in F. unfold extract_main_person_from_text in Hm1.
  destruct (Re.findall geo_plus content) as [|name0 rest]; [discriminate|].
  injection F as ->. subst main1. cbn [mainPerson p_name p_type p_occupation].
  destruct (determine_person_type_range content) as [R1 R2].
  rewrite R2. auto.
Qed.

Lemma free_text_main_person_witness :
  exists entry,
    parse_entry_from_text 0 (py "+ ეპისკოპოსი იოანე") (py "1") = Some entry
    /\ p_name (mainPerson entry) = Some (py "ეპისკოპოსი")
    /\ p_occupation (mainPerson entry) = Some (py "bishop").
Proof.
  eexists. split; [vm_compute; reflexivity|].
  destruct (free_text_main_person
              0 (py "+ ეპისკოპოსი იოანე") (py "1") _
              (py "+ ") (py "ეპისკოპოსი") (py " იოანე")
              ltac:(vm_compute; reflexivity) ltac:(vm_compute; reflexivity)
              ltac:(vm_compute; reflexivity) ltac:(vm_compute; discriminate)
              ltac:(vm_compute; reflexivity) ltac:(vm_compute; reflexivity))
    as (H1 & _ & _ & H4).
  split; [exact H1|]. rewrite H4. vm_compute. reflexivity.
Defined.

(** ** Free-text extraction: places *)

Lemma is_actual_place_known (p : list N) : is_actual_place p = true -> In p known_places.
Proof.
  unfold is_actual_place.
  destruct (existsb _ patronymic_endings); [discriminate|].
  destruct (existsb _ surname_endings); [discriminate|].
  destruct (str_in p known_places) eqn:K; [|discriminate].
  intros _. apply str_in_In, K.
Qed.

(** X13: every place of a free-text entry is one of the sixteen
    allow-listed names of [is_actual_place]. *)
Theorem free_text_places_known (xml_content : list N) (self : Parser) :
  Forall (fun entry => Forall (fun p => In p known_places) (places entry))
         (entries (extract_from_text xml_content self)).
Proof.
  apply Forall_forall. intros entry H. apply list_elem_of_In in H.
  apply extract_from_text_entries in H. destruct H as (n & c & num & H).
  destruct (parse_entry_from_text_spec _ _ _ _ H) as (_ & _ & K & -> & _ & HK & _).
  apply Forall_app. split; apply Forall_forall; intros p Hp; apply list_elem_of_In in Hp.
  - apply filter_In in Hp. apply is_actual_place_known, Hp.
  - destruct (HK p Hp) as (Hk & _).
    assert (A : forallb (fun p => str_in p known_places) text_known_places = true)
      by (vm_compute; reflexivity).
    rewrite forallb_forall in A. apply str_in_In, A, Hk.
Qed.

(** ** Numbers and identifiers *)

Lemma decimal_value_ascii (d : N) : d < 10 -> decimal_value (48 + d) = Some d.
Proof.
  intros H. unfold decimal_value, nd_zeros. cbn [find].
  assert (E : (0x30 <=? 48 + d) && (48 + d <=? 0x30 + 9) = true).
  { apply andb_true_iff. split; apply N.leb_le; lia. }
  rewrite E. f_equal; lia.
Qed.

Lemma isdecimal_isdigit_char (c : N) : isdecimal c = true -> isdigit_char c = true.
Proof. unfold isdigit_char. intros ->. reflexivity. Qed.

Lemma int_digits_Ok_iff (s : list N) (a : Z) :
  (exists z, int_digits s a = Ok z) <-> forallb isdecimal s = true.
Proof.
  revert a. induction s as [|c s IH]; intros a; cbn [int_digits forallb].
  - split; [reflexivity | eauto].
  - unfold isdecimal at 1. destruct (decimal_value c) as [d|].
    + cbn [andb]. apply IH.
    + split; [intros (z & H); discriminate | discriminate].
Qed.

Lemma int_digits_nonneg (s : list N) (a z : Z) :
  (0 <= a)%Z -> int_digits s a = Ok z -> (0 <= z)%Z.
Proof.
  revert a. induction s as [|c s IH]; intros a Ha; cbn [int_digits].
  - intros [= <-]. exact Ha.
  - destruct (decimal_value c) as [d|]; [|discriminate]. apply IH. lia.
Qed.

(** When [int] rejects a string that [isdigit] accepted. *)
Lemma int_of_str_Raise_iff (s : list N) :
  isdigit s = true ->
  (int_of_str s = Raise ValueError <-> forallb isdecimal s = false).
Proof.
  intros D. destruct s as [|c s]; [discriminate|]. unfold int_of_str.
  pose proof (int_digits_Ok_iff (c :: s) 0) as I.
  destruct (int_digits (c :: s) 0) as [z|[]]; destruct (forallb isdecimal (c :: s)).
  - split; discriminate.
  - destruct I as [I _]. specialize (I ltac:(eauto)). discriminate.
  - destruct I as [_ I]. destruct (I eq_refl) as (z & Hz). discriminate.
  - split; reflexivity.
Qed.

Lemma digits_fuel_value (fuel : nat) (n : N) (acc : list N) :
  n < 2 ^ N.of_nat fuel ->
  int_digits (digits_fuel fuel n acc) 0 = int_digits acc (Z.of_N n).
Proof.
  revert n acc. induction fuel as [|f IH]; intros n acc Hn.
  - cbn in Hn. assert (n = 0) as -> by lia. reflexivity.
  - cbn [digits_fuel]. destruct (n <? 10) eqn:E.
    + apply N.ltb_lt in E. rewrite N.mod_small by exact E.
      cbn [int_digits]. rewrite (decimal_value_ascii n E). f_equal; lia.
    + apply N.ltb_ge in E. rewrite IH.
      * cbn [int_digits]. rewrite (decimal_value_ascii (n mod 10))
          by (apply N.mod_lt; discriminate).
        f_equal. rewrite (N.div_mod n 10) at 3 by discriminate. lia.
      * rewrite Nat2N.inj_succ, N.pow_succ_r' in Hn.
        assert (n / 10 <= n / 2) by (apply N.div_le_compat_l; lia).
        assert (n / 2 < 2 ^ N.of_nat f) by (apply N.Div0.div_lt_upper_bound; lia).
        lia.
Qed.

Lemma digits_fuel_ascii (fuel : nat) (n : N) (acc : list N) :
  forallb isdecimal acc = true -> forallb isdecimal (digits_fuel fuel n acc) = true.
Proof.
  revert n acc. induction fuel as [|f IH]; intros n acc Hacc; cbn [digits_fuel]; [exact Hacc|].
  assert (A : forallb isdecimal ((48 + n mod 10) :: acc) = true).
  { cbn [forallb]. unfold isdecimal at 1.
    rewrite (decimal_value_ascii (n mod 10)) by (apply N.mod_lt; discriminate). exact Hacc. }
  destruct (n <? 10); [exact A | apply IH, A].
Qed.

Lemma digits_fuel_nonempty (fuel : nat) (n : N) (acc : list N) :
  acc <> [] \/ fuel <> 0%nat -> digits_fuel fuel n acc <> [].
Proof.
  revert n acc. induction fuel as [|f IH]; intros n acc H; cbn [digits_fuel].
  - destruct H as [H|H]; [exact H | congruence].
  - destruct (n <? 10); [discriminate|]. apply IH. left. discriminate.
Qed.

Lemma str_of_N_facts (n : N) :
  str_of_N n <> [] /\ forallb isdecimal (str_of_N n) = true
  /\ int_digits (str_of_N n) 0 = Ok (Z.of_N n).
Proof.
  unfold str_of_N. split; [|split].
  - apply digits_fuel_nonempty. right. discriminate.
  - apply digits_fuel_ascii. reflexivity.
  - rewrite digits_fuel_value; [reflexivity|].
    rewrite Nat2N.inj_succ, N2Nat.id.
    destruct n as [|p]; [reflexivity|]. apply N.log2_spec. reflexivity.
Qed.

Lemma isdigit_decimal (s : list N) :
  s <> [] -> forallb isdecimal s = true -> isdigit s = true.
Proof.
  intros Hne H. destruct s as [|c s]; [congruence|]. unfold isdigit.
  rewrite forallb_forall in H |- *. intros x Hx. apply isdecimal_isdigit_char, H, Hx.
Qed.

(** [int(str(z))] gives [z] back for a non-negative integer. *)
Lemma int_of_str_str_of_int (z : Z) :
  (0 <= z)%Z -> isdigit (str_of_int z) = true /\ int_of_str (str_of_int z) = Ok z.
Proof.
  intros Hz. assert (E : str_of_int z = str_of_N (Z.to_N z)).
  { destruct z; try reflexivity. lia. }
  rewrite E. destruct (str_of_N_facts (Z.to_N z)) as (H1 & H2 & H3).
  split; [apply isdigit_decimal; assumption|].
  unfold int_of_str. destruct (str_of_N (Z.to_N z)) as [|c s]; [congruence|].
  rewrite H3. f_equal; lia.
Qed.

Lemma int_digits_zeros (k : nat) (s : list N) :
  int_digits (repeat 48 k ++ s) 0 = int_digits s 0.
Proof.
  induction k as [|k IH]; [reflexivity|].
  cbn [repeat app int_digits]. change (decimal_value 48) with (Some 0). exact IH.
Qed.

(** [int(format(z, '03d'))] gives [z] back for a non-negative integer. *)
Lemma int_digits_format_03d (z : Z) :
  (0 <= z)%Z -> int_digits (format_03d z) 0 = Ok z.
Proof.
  intros Hz. assert (E : format_03d z
                         = repeat 48 (3 - List.length (str_of_N (Z.to_N z)))
                           ++ str_of_N (Z.to_N z)).
  { destruct z; try reflexivity. lia. }
  rewrite E, int_digits_zeros.
  destruct (str_of_N_facts (Z.to_N z)) as (_ & _ & ->). f_equal; lia.
Qed.

Lemma format_03d_inj (z1 z2 : Z) :
  (0 <= z1)%Z -> (0 <= z2)%Z -> format_03d z1 = format_03d z2 -> z1 = z2.
Proof.
  intros H1 H2 E. pose proof (int_digits_format_03d z1 H1) as A.
  rewrite E, (int_digits_format_03d z2 H2) in A. congruence.
Qed.

(** ** Structured extraction: persons *)

Lemma last_nonempty {A} (l : list A) (a d d' : A) : List.last (a :: l) d = List.last (a :: l) d'.
Proof.
  revert a. induction l as [|b l IH]; intros a; [reflexivity|].
  change (List.last (b :: l) d = List.last (b :: l) d'). apply IH.
Qed.

Lemma last_cons_default {A} (l : list A) (a d : A) : List.last (a :: l) d = List.last l a.
Proof.
  revert a d. induction l as [|b l IH]; intros a d; [reflexivity|].
  change (List.last (b :: l) d = List.last (b :: l) a). apply last_nonempty.
Qed.

Lemma parse_persons_from_S (person_elements : list ET.Element) (i : nat) (entry : Entry) :
  parse_persons_from (S i) person_elements entry
  = mkEntry (entryId entry) (entryNumber entry)
            (List.last (map person_of_element (List.filter typed_main person_elements))
                       (mainPerson entry))
            (familyMembers entry
             ++ map person_of_element
                    (List.filter (fun el => negb (typed_main el)) person_elements))
            (manuscript entry) (edition entry) (dates entry) (notes entry) (places entry).
Proof.
  revert i entry. induction person_elements as [|el els IH]; intros i entry.
  - cbn [parse_persons_from List.filter map List.last]. rewrite app_nil_r.
    destruct entry; reflexivity.
  - cbn [parse_persons_from List.filter]. fold (typed_main el). rewrite IH.
    fold (person_of_element el).
    change (S i =? 0)%nat with false. rewrite orb_false_r.
    destruct (typed_main el); cbn [negb map].
    + rewrite last_cons_default. reflexivity.
    + cbn [append_familyMember entryId entryNumber mainPerson familyMembers manuscript
           edition dates notes places].
      rewrite <- app_assoc. reflexivity.
Qed.

(** X14: of the person nodes of an entry the first is the main person
    whatever its type; each later node typed [main] (or untyped) replaces
    the main person, so the last of them wins; the other nodes become the
    family members, in document order. *)
Theorem parse_persons_main_and_family (first : ET.Element) (rest : list ET.Element)
        (entry : Entry) :
  parse_persons (first :: rest) entry
  = mkEntry (entryId entry) (entryNumber entry)
            (person_of_element (List.last (List.filter typed_main rest) first))
            (familyMembers entry
             ++ map person_of_element (List.filter (fun el => negb (typed_main el)) rest))
            (manuscript entry) (edition entry) (dates entry) (notes entry) (places entry).
Proof.
  unfold parse_persons. cbn [parse_persons_from]. rewrite orb_true_r.
  rewrite parse_persons_from_S. fold (person_of_element first).
  cbn [set_mainPerson entryId entryNumber mainPerson familyMembers manuscript
       edition dates notes places].
  f_equal. generalize (List.filter typed_main rest) as l. intros l.
  revert first. induction l as [|a l IH]; intros first; [reflexivity|].
  cbn [map]. rewrite !last_cons_default. apply IH.
Qed.

(** ** Structured extraction: the entry number *)

(** X15: an entry element whose [n] attribute passes [str.isdigit] but
    holds a code point that [int] rejects (a superscript or circled digit)
    is dropped, with or without an [id] attribute. *)
Theorem entry_number_rejected_by_int (entry_elem : ET.Element) (fallback_number : Z)
        (n : list N) :
  ET.get entry_elem (py "n") = Some n ->
  isdigit n = true ->
  forallb isdecimal n = false ->
  parse_entry_element entry_elem fallback_number = None.
Proof.
  intros Hn D F. unfold parse_entry_element, parse_entry_element_body.
  rewrite Hn. cbn [default].
  destruct (truthy (ET.get entry_elem (py "id"))); [|reflexivity].
  cbn [mbind res_bind]. change (id n) with n. rewrite D.
  apply (int_of_str_Raise_iff n D) in F. rewrite F. reflexivity.
Qed.

Lemma entry_number_rejected_by_int_witness :
  ET.get superscript_entry (py "id") = Some (py "e2")
  /\ parse_entry_element superscript_entry 1 = None.
Proof.
  split; [vm_compute; reflexivity|].
  apply (entry_number_rejected_by_int superscript_entry 1 [0xb2]); vm_compute; reflexivity.
Defined.

(** ** Free-text extraction: numbers and identifiers *)

(** With a number that [int] accepts an entry is always produced. *)
Lemma parse_entry_from_text_number (n_entries : nat) (content entry_num : list N) (z : Z) :
  isdigit entry_num = true -> int_of_str entry_num = Ok z ->
  exists entry, parse_entry_from_text n_entries content entry_num = Some entry
                /\ entryNumber entry = z
                /\ entryId entry = py "entry_" ++ format_03d z
                /\ notes entry = clean_text (Some content).
Proof.
  intros D I. destruct (parse_entry_from_text n_entries content entry_num) as [e|] eqn:P.
  - exists e. split; [reflexivity|].
    destruct (parse_entry_from_text_shape _ _ _ _ P)
      as (number & main1 & main & added & ms & pl & Hnum & _ & _ & _ & ->).
    rewrite D, I in Hnum. injection Hnum as <-. cbn [entryNumber entryId notes]. auto.
  - exfalso. unfold parse_entry_from_text, parse_entry_from_text_body in P.
    rewrite D, I in P. cbn [mbind res_bind try_except] in P. discriminate.
Qed.

Lemma parse_blocks_from_fields (n_entries : nat) (ms : list rmatch) (i : nat) :
  map (fun e => (entryNumber e, entryId e, notes e)) (parse_blocks_from n_entries i ms)
  = imap (fun j m => ((Z.of_nat (i + j) + 1)%Z,
                      py "entry_" ++ format_03d (Z.of_nat (i + j) + 1),
                      clean_text (Some (group m 0)))) ms.
Proof.
  revert i. induction ms as [|m ms IH]; intros i; [reflexivity|].
  cbn [parse_blocks_from imap]. rewrite Nat.add_0_r.
  destruct (int_of_str_str_of_int (Z.of_nat i + 1) ltac:(lia)) as (D & I).
  destruct (parse_entry_from_text_number n_entries (group m 0) _ _ D I)
    as (e & -> & E1 & E2 & E3).
  cbn [map]. rewrite E1, E2, E3, IH. f_equal.
  apply imap_ext. intros j x _. cbn. rewrite Nat.add_succ_r. reflexivity.
Qed.

(** X16: when the text holds no literal entry span, every line fragment
    that the Georgian pattern matches gives an entry (none is dropped);
    the entries are numbered 1, 2, ... in the order of the matches, and
    the notes are the normalized fragment. *)
Theorem georgian_blocks_numbered (xml_content : list N) (self : Parser) :
  finditer entry_pattern xml_content = [] ->
  map (fun e => (entryNumber e, entryId e, notes e))
      (entries (extract_from_text xml_content self))
  = imap (fun i m => ((Z.of_nat i + 1)%Z,
                      py "entry_" ++ format_03d (Z.of_nat i + 1),
                      clean_text (Some (group m 0))))
         (finditer georgian_pattern xml_content).
Proof.
  intros H. unfold extract_from_text. rewrite entries_calculate_statistics, H.
  cbn [omap list_omap entries]. apply parse_blocks_from_fields.
Qed.

Lemma georgian_blocks_numbered_witness :
  map (fun e => (entryNumber e, entryId e, notes e))
      (entries (extract_from_text two_lines_document init))
  = imap (fun i m => ((Z.of_nat i + 1)%Z,
                      py "entry_" ++ format_03d (Z.of_nat i + 1),
                      clean_text (Some (group m 0))))
         (finditer georgian_pattern two_lines_document).
Proof.
  apply (georgian_blocks_numbered two_lines_document init). vm_compute. reflexivity.
Defined.

Lemma int_of_str_nonneg (s : list N) (z : Z) : int_of_str s = Ok z -> (0 <= z)%Z.
Proof.
  unfold int_of_str. destruct s as [|c s]; [discriminate|].
  apply int_digits_nonneg. lia.
Qed.

Lemma parse_entry_from_text_id (n_entries : nat) (content entry_num : list N) (entry : Entry) :
  parse_entry_from_text n_entries content entry_num = Some entry ->
  entryId entry = py "entry_" ++ format_03d (entryNumber entry) /\ (0 <= entryNumber entry)%Z.
Proof.
  intros P. destruct (parse_entry_from_text_shape _ _ _ _ P)
    as (number & main1 & main & added & ms & pl & Hnum & _ & _ & _ & ->).
  cbn [entryId entryNumber]. split; [reflexivity|].
  destruct (isdigit entry_num); [exact (int_of_str_nonneg _ _ Hnum) | lia].
Qed.

(** X17: the identifier of a free-text entry is [entry_] followed by the
    entry number, zero-padded to three digits; the number is not negative;
    so two entries of the collection share an identifier exactly when they
    share the number. *)
Theorem free_text_entry_ids (xml_content : list N) (self : Parser) (e1 e2 : Entry) :
  In e1 (entries (extract_from_text xml_content self)) ->
  In e2 (entries (extract_from_text xml_content self)) ->
  entryId e1 = py "entry_" ++ format_03d (entryNumber e1)
  /\ (0 <= entryNumber e1)%Z
  /\ (entryId e1 = entryId e2 <-> entryNumber e1 = entryNumber e2).
Proof.
  intros H1 H2.
  apply extract_from_text_entries in H1. destruct H1 as (n1 & c1 & num1 & H1).
  apply extract_from_text_entries in H2. destruct H2 as (n2 & c2 & num2 & H2).
  destruct (parse_entry_from_text_id _ _ _ _ H1) as (I1 & N1).
  destruct (parse_entry_from_text_id _ _ _ _ H2) as (I2 & N2).
  split; [exact I1|]. split; [exact N1|]. rewrite I1, I2. split.
  - intros E. apply app_inv_head in E. apply format_03d_inj; assumption.
  - intros ->. reflexivity.
Qed.

Lemma free_text_entry_ids_witness :
  exists e, head (entries (extract_from_text surname_document init)) = Some e
            /\ entryId e = py "entry_" ++ format_03d (entryNumber e)
            /\ (0 <= entryNumber e)%Z.
Proof.
  destruct (entries (extract_from_text surname_document init)) as [|e l] eqn:E;
    [vm_compute in E; discriminate|].
  exists e. split; [reflexivity|].
  destruct (free_text_entry_ids surname_document init e e) as (H1 & H2 & _);
    [rewrite E; left; reflexivity | rewrite E; left; reflexivity |].
  split; assumption.
Defined.

(** ** Statistics: counters and sets *)

Lemma add_all_elem (xs : list (list N)) (s : gset (list N)) (p : list N) :
  p ∈ add_all xs s <-> p ∈ s \/ In p xs.
Proof.
  unfold add_all. revert s. induction xs as [|x xs IH]; intros s; cbn [fold_left In].
  - tauto.
  - rewrite IH. rewrite elem_of_union, elem_of_singleton.
    split; [intros [[->|H]|H] | intros [H|[->|H]]]; auto.
Qed.

Lemma add_if_truthy_elem_iff (v : option (list N)) (s : gset (list N)) (o : list N) :
  o ∈ add_if_truthy v s <-> o ∈ s \/ (v = Some o /\ o <> []).
Proof.
  unfold add_if_truthy. destruct v as [[|c w]|]; cbn [truthy default from_option id].
  - split; [auto | intros [H|[[= <-] H]]; [exact H | congruence]].
  - rewrite elem_of_union, elem_of_singleton. split.
    + intros [->|H]; [right; split; [reflexivity | discriminate] | left; exact H].
    + intros [H|[[= <-] _]]; auto.
  - split; [auto | intros [H|[[=] _]]; exact H].
Qed.

Lemma calculate_statistics_fold (es : list Entry) (st : Statistics) :
  let st' := fold_left (fun st entry =>
                  mkStatistics (total_entries st)
                    (total_persons st + (1 + Z.of_nat (List.length (familyMembers entry))))%Z
                    (unique_surnames st)
                    (add_all (places entry) (stat_places st))
                    (add_if_truthy (p_occupation (mainPerson entry)) (occupations st)))
               es st in
  total_entries st' = total_entries st
  /\ total_persons st'
     = (total_persons st
        + Z.of_nat (List.length es + List.length (flat_map familyMembers es)))%Z
  /\ (forall p, p ∈ stat_places st' <->
                p ∈ stat_places st \/ exists e, In e es /\ In p (places e))
  /\ (forall o, o ∈ occupations st' <->
                o ∈ occupations st
                \/ exists e, In e es /\ p_occupation (mainPerson e) = Some o /\ o <> []).
Proof.
  revert st. induction es as [|e es IH]; intros st; cbn [fold_left].
  - cbn [List.length flat_map Nat.add]. split; [reflexivity|]. split; [lia|].
    split; intros x; (split; [auto | intros [H|(e & [] & _)]; exact H]).
  - cbn zeta in IH.
    destruct (IH (mkStatistics (total_entries st)
                    (total_persons st + (1 + Z.of_nat (List.length (familyMembers e))))%Z
                    (unique_surnames st)
                    (add_all (places e) (stat_places st))
                    (add_if_truthy (p_occupation (mainPerson e)) (occupations st))))
      as (H1 & H2 & H3 & H4).
    cbn [total_entries total_persons stat_places occupations] in H1, H2, H3, H4.
    cbn zeta. split; [exact H1|]. split; [|split].
    + rewrite H2. cbn [flat_map List.length]. rewrite length_app. lia.
    + intros p. rewrite H3, add_all_elem. split.
      * intros [[H|H]|(e' & He' & H)]; [left; exact H | right; exists e; split; [left; reflexivity | exact H] | right; exists e'; split; [right; exact He' | exact H]].
      * intros [H|(e' & [<-|He'] & H)]; [left; left; exact H | left; right; exact H | right; exists e'; split; assumption].
    + intros o. rewrite H4, add_if_truthy_elem_iff. split.
      * intros [[H|H]|(e' & He' & H)]; [left; exact H | right; exists e; split; [left; reflexivity | exact H] | right; exists e'; split; [right; exact He' | exact H]].
      * intros [H|(e' & [<-|He'] & H)]; [left; left; exact H | left; right; exact H | right; exists e'; split; assumption].
Qed.

(** X18: [calculate_statistics] overwrites [total_entries] with the number
    of entries, but adds to [total_persons]: each call counts every entry
    and every family member of the collection again.  [places] gains every
    recorded place of every entry (whether or not [is_actual_place] accepts
    it), [occupations] every non-empty occupation of a main person; nothing
    is ever removed from either set. *)
Theorem calculate_statistics_counts (self : Parser) :
  entries (calculate_statistics self) = entries self
  /\ total_entries (statistics (calculate_statistics self))
     = Z.of_nat (List.length (entries self))
  /\ total_persons (statistics (calculate_statistics self))
     = (total_persons (statistics self)
        + Z.of_nat (List.length (entries self)
                    + List.length (flat_map familyMembers (entries self))))%Z
  /\ (forall p, p ∈ stat_places (statistics (calculate_statistics self)) <->
                p ∈ stat_places (statistics self)
                \/ exists e, In e (entries self) /\ In p (places e))
  /\ (forall o, o ∈ occupations (statistics (calculate_statistics self)) <->
                o ∈ occupations (statistics self)
                \/ exists e, In e (entries self)
                             /\ p_occupation (mainPerson e) = Some o /\ o <> []).
Proof.
  split; [reflexivity|]. unfold calculate_statistics. cbn [statistics].
  pose proof (calculate_statistics_fold (entries self)
                (mkStatistics (Z.of_nat (List.length (entries self)))
                              (total_persons (statistics self))
                              (unique_surnames (statistics self))
                              (stat_places (statistics self))
                              (occupations (statistics self)))) as H.
  cbn zeta in H. cbn [total_entries total_persons stat_places occupations] in H.
  exact H.
Qed.

(** ** Document level: locating the entry elements *)

Lemma findall_iter (e : ET.Element) (name : list N) (x : ET.Element) :
  In x (ET.findall e name) -> In x (ET.iter e) /\ ET.tag x = name.
Proof.
  unfold ET.findall. intros H. apply filter_In in H. destruct H as (H & T).
  split; [|apply str_eqb_eq, T].
  destruct e as [t a tx cs tl]. cbn [ET.iter ET.children] in *. right. exact H.
Qed.

(** X19: every element that [parse_xml_tree] hands to
    [parse_entry_element] is an element of the document whose tag ends in
    [entry], whichever of the three searches found it. *)
Theorem locate_entries_sound (root : ET.Element) :
  Forall (fun el => In el (ET.iter root) /\ endswith (ET.tag el) (py "entry") = true)
         (locate_entries root).
Proof.
  unfold locate_entries.
  destruct (ET.findall root tei_entry_tag) as [|x l] eqn:A.
  - destruct (ET.findall root (py "entry")) as [|y l'] eqn:B.
    + apply Forall_forall. intros el H. apply list_elem_of_In, filter_In in H.
      destruct H as (H & T). apply andb_true_iff in T. split; [exact H | apply T].
    + rewrite <- B. apply Forall_forall. intros el H. apply list_elem_of_In in H.
      apply findall_iter in H. destruct H as (H & ->). split; [exact H|].
      vm_compute. reflexivity.
  - rewrite <- A. apply Forall_forall. intros el H. apply list_elem_of_In in H.
    apply findall_iter in H. destruct H as (H & ->). split; [exact H|].
    vm_compute. reflexivity.
Qed.

(** ** Document level: what a second call keeps *)

(** The number a literal entry span carries is a non-empty run of decimal
    digits. *)
Lemma entry_pattern_number (text : list N) (m : rmatch) :
  In m (finditer entry_pattern text) ->
  group m 1 <> [] /\ forallb isdecimal (group m 1) = true.
Proof.
  unfold finditer. intros H. apply finditer_aux_In in H.
  destruct H as (s & len & cs & _ & M & ->).
  unfold match_at, entry_pattern, not_gt_star in M. cbn [Re.seq mt] in M.
  destruct (startswith s (py "<entry")); [|discriminate].
  apply rep_greedy_Some in M. destruct M as (j1 & _ & M).
  destruct (startswith _ (py "n=" ++ [34])); [|discriminate].
  apply rep_greedy_Some_run in M. destruct M as (j2 & Hj2 & Hall & Hlen & M).
  destruct (startswith _ [34]); [|discriminate].
  apply rep_greedy_Some in M. destruct M as (j3 & _ & M).
  destruct (startswith _ (py ">")); [|discriminate].
  apply rep_lazy_Some in M. destruct M as (j4 & M).
  destruct (startswith _ (py "</entry>")); [|discriminate].
  injection M as _ <-. cbn [group groups assoc Nat.eqb default from_option id].
  match goal with |- take ?n _ <> [] /\ _ => replace n with j2 by lia end.
  change (List.length (py "n=" ++ [34])) with 3%nat in Hall, Hlen.
  change (List.length (py "<entry")) with 6%nat in Hall, Hlen.
  revert Hall Hlen. generalize (take j2 (drop 3 (drop j1 (drop 6 s)))) as run.
  intros run Hall Hlen. split.
  - intros ->. cbn in Hlen. lia.
  - apply forallb_forall. intros c Hc. rewrite Forall_forall in Hall.
    apply Hall, list_elem_of_In, Hc.
Qed.

Lemma parse_entry_from_text_isdigit (n n' : nat) (content entry_num : list N) :
  isdigit entry_num = true ->
  parse_entry_from_text n content entry_num = parse_entry_from_text n' content entry_num.
Proof.
  intros D. unfold parse_entry_from_text, parse_entry_from_text_body. rewrite D. reflexivity.
Qed.

Lemma parse_blocks_from_isdigit (n n' : nat) (ms : list rmatch) (i : nat) :
  parse_blocks_from n i ms = parse_blocks_from n' i ms.
Proof.
  revert i. induction ms as [|m ms IH]; intros i; [reflexivity|].
  cbn [parse_blocks_from].
  destruct (int_of_str_str_of_int (Z.of_nat i + 1) ltac:(lia)) as (D & _).
  rewrite (parse_entry_from_text_isdigit n n' _ _ D), IH. reflexivity.
Qed.

Lemma omap_ext_In {A B} (f g : A -> option B) (l : list A) :
  (forall x, In x l -> f x = g x) -> omap f l = omap g l.
Proof.
  induction l as [|a l IH]; intros H; [reflexivity|].
  cbn [omap list_omap]. rewrite (H a (or_introl eq_refl)).
  fold (omap f l) (omap g l). rewrite IH; [reflexivity|].
  intros x Hx. apply H. right. exact Hx.
Qed.

(** X20: [parse_xml_tree] appends to the entries the parser already
    holds, so parsing a second document (or the same one again) keeps the
    earlier entries in front; [extract_from_text] replaces the collection,
    and what it produces does not depend on the entries held before. *)
Theorem second_call_appends_or_replaces (self : Parser) :
  (forall root : ET.Element,
      entries (parse_xml_tree root self)
      = entries self ++ entries (parse_xml_tree root init))
  /\ (forall xml_content : list N,
         entries (extract_from_text xml_content self)
         = entries (extract_from_text xml_content init)).
Proof.
  split.
  - intros root. unfold parse_xml_tree. rewrite !entries_calculate_statistics.
    cbn [entries]. rewrite !parse_entries_from_spec. reflexivity.
  - intros c. unfold extract_from_text. rewrite !entries_calculate_statistics.
    cbn [entries].
    rewrite (omap_ext_In
               (fun m => parse_entry_from_text (List.length (entries self)) (group m 2)
                                               (group m 1))
               (fun m => parse_entry_from_text (List.length (entries init)) (group m 2)
                                               (group m 1))).
    + rewrite (parse_blocks_from_isdigit (List.length (entries self))
                                         (List.length (entries init))).
      reflexivity.
    + intros m Hm. apply parse_entry_from_text_isdigit.
      destruct (entry_pattern_number _ _ Hm) as (Hne & Hd).
      apply isdigit_decimal; assumption.
Qed.

(** ** Structured extraction: manuscript references *)

Lemma page_breaks_fold (pbs : list ET.Element) (ms : Manuscript) :
  fold_left (fun ms pb =>
               let page_num := ET.get pb (py "n") in
               if truthy page_num then mkManuscript page_num page_num (ms_line ms) else ms)
            pbs ms
  = mkManuscript
      (List.last (List.filter truthy (map (fun pb => ET.get pb (py "n")) pbs)) (ms_page ms))
      (List.last (List.filter truthy (map (fun pb => ET.get pb (py "n")) pbs)) (ms_folio ms))
      (ms_line ms).
Proof.
  revert ms. induction pbs as [|pb pbs IH]; intros ms.
  - destruct ms; reflexivity.
  - cbn [fold_left map List.filter]. cbn zeta. rewrite IH.
    destruct (truthy (ET.get pb (py "n"))); [|reflexivity].
    rewrite !last_cons_default. reflexivity.
Qed.

Lemma line_breaks_fold (lbs : list ET.Element) (ms : Manuscript) :
  fold_left (fun ms lb =>
               let line_num := ET.get lb (py "n") in
               if truthy line_num then mkManuscript (ms_page ms) (ms_folio ms) line_num else ms)
            lbs ms
  = mkManuscript (ms_page ms) (ms_folio ms)
      (List.last (List.filter truthy (map (fun lb => ET.get lb (py "n")) lbs)) (ms_line ms)).
Proof.
  revert ms. induction lbs as [|lb lbs IH]; intros ms.
  - destruct ms; reflexivity.
  - cbn [fold_left map List.filter]. cbn zeta. rewrite IH.
    destruct (truthy (ET.get lb (py "n"))); [|reflexivity].
    rewrite !last_cons_default. reflexivity.
Qed.

(** X21: of several page breaks inside an entry element the last one with
    a non-empty [n] gives both [page] and [folio], and of several line
    breaks the last one with a non-empty [n] gives [line]; breaks without
    [n], or with an empty one, are passed over, and a field with no
    usable break keeps what it held. *)
Theorem parse_manuscript_refs_last_wins (entry_elem : ET.Element) (entry : Entry) :
  let numbers name :=
    List.filter truthy (map (fun el => ET.get el (py "n")) (ET.findall entry_elem name)) in
  parse_manuscript_refs entry_elem entry
  = set_manuscript entry
      (mkManuscript (List.last (numbers (py "pb")) (ms_page (manuscript entry)))
                    (List.last (numbers (py "pb")) (ms_folio (manuscript entry)))
                    (List.last (numbers (py "lb")) (ms_line (manuscript entry)))).
Proof.
  cbn zeta. unfold parse_manuscript_refs. cbn zeta.
  rewrite line_breaks_fold, page_breaks_fold. reflexivity.
Qed.

(** ** Free-text extraction: manuscript references *)

Lemma take_S_drop (j : nat) (s s' : list N) (c : N) :
  drop j s = c :: s' -> take (S j) s = take j s ++ [c].
Proof.
  intros D. apply take_S_r. rewrite <- (Nat.add_0_r j), <- lookup_drop, D. reflexivity.
Qed.

(** What [f\.\s*([IVXivx]+[rv]?)] captures. *)
Lemma folio_pattern_capture (text : list N) (m : rmatch) :
  In m (finditer folio_pattern text) ->
  exists run pre blanks post,
    run <> [] /\ forallb is_roman run = true
    /\ (group m 1 = run \/ group m 1 = run ++ py "r")
    /\ forallb isspace blanks = true
    /\ text = pre ++ py "f." ++ blanks ++ group m 1 ++ post.
Proof.
  intros H. apply finditer_aux_In_suffix in H.
  destruct H as (pre & c & s & len & cs & E & M & ->).
  unfold match_at, folio_pattern, ws_star in M. cbn [Re.seq mt] in M.
  destruct (startswith (c :: s) (py "f.")) eqn:F; [|discriminate].
  apply rep_greedy_Some_run in M. destruct M as (j & _ & Hws & Hlen & M).
  apply rep_greedy_Some_run in M. destruct M as (j2 & Hj2 & Hrom & Hlen2 & M).
  pose proof (startswith_app _ _ F) as EA.
  set (sA := drop (List.length (py "f.")) (c :: s)) in *.
  set (sB := drop j sA) in *.
  set (p0 := (0 + List.length (py "f.") + j)%nat) in *.
  replace (S (p0 + j2) - p0)%nat with (S j2) in M by lia.
  replace (p0 + j2 - p0)%nat with j2 in M by lia.
  assert (Hrun : take j2 sB <> []).
  { intros Z. rewrite Z in Hlen2. cbn in Hlen2. lia. }
  assert (Hromb : forallb is_roman (take j2 sB) = true).
  { apply forallb_forall. intros x Hx. rewrite Forall_forall in Hrom.
    apply Hrom, list_elem_of_In, Hx. }
  assert (Hwsb : forallb isspace (take j sA) = true).
  { apply forallb_forall. intros x Hx. rewrite Forall_forall in Hws.
    apply Hws, list_elem_of_In, Hx. }
  assert (Short : text = pre ++ py "f." ++ take j sA ++ take j2 sB ++ drop j2 sB).
  { rewrite E, EA. f_equal. f_equal. rewrite (take_drop j2 sB).
    exact (eq_sym (take_drop j sA)). }
  assert (None_case :
    Some (p0 + j2, [(1, take j2 sB)])%nat = Some (len, cs) ->
    exists run pre0 blanks post : list N,
      run <> [] /\ forallb is_roman run = true
      /\ (group (mkMatch (take len (c :: s)) cs) 1 = run
          \/ group (mkMatch (take len (c :: s)) cs) 1 = run ++ py "r")
      /\ forallb isspace blanks = true
      /\ text = pre0 ++ py "f." ++ blanks
                ++ group (mkMatch (take len (c :: s)) cs) 1 ++ post).
  { intros [= _ <-]. cbn [group groups assoc Nat.eqb default from_option id].
    exists (take j2 sB), pre, (take j sA), (drop j2 sB). auto 6. }
  destruct (drop j2 sB) as [|c' s'] eqn:D; [exact (None_case M)|].
  destruct (existsb (N.eqb c') (py "rv")) eqn:RV; [|exact (None_case M)].
  injection M as _ <-. cbn [group groups assoc Nat.eqb default from_option id].
  rewrite (take_S_drop _ _ _ _ D).
  change (py "rv") with [114; 118] in RV. cbn [existsb] in RV.
  rewrite orb_false_r in RV. apply orb_true_iff in RV. rewrite !N.eqb_eq in RV.
  destruct RV as [->| ->].
  - exists (take j2 sB), pre, (take j sA), s'.
    split; [exact Hrun|]. split; [exact Hromb|]. split; [right; reflexivity|].
    split; [exact Hwsb|]. rewrite Short, <- !app_assoc. reflexivity.
  - exists (take j2 sB ++ [118]), pre, (take j sA), s'.
    split; [intros Z; apply app_eq_nil in Z; destruct Z; discriminate|].
    split; [rewrite forallb_app, Hromb; reflexivity|]. split; [left; reflexivity|].
    split; [exact Hwsb|]. rewrite Short, <- !app_assoc. reflexivity.
Qed.

Lemma Forall_forallb_true (p : N -> bool) (l : list N) :
  Forall (fun c => p c = true) l -> forallb p l = true.
Proof.
  intros H. apply forallb_forall. intros x Hx. rewrite Forall_forall in H.
  apply H, list_elem_of_In, Hx.
Qed.

(** What [l\.\s*(\d+(?:-\d+)?)] captures. *)
Lemma line_pattern_capture (text : list N) (m : rmatch) :
  In m (finditer line_pattern text) ->
  exists d1 pre blanks post,
    d1 <> [] /\ forallb isdecimal d1 = true
    /\ (group m 1 = d1
        \/ exists d2, d2 <> [] /\ forallb isdecimal d2 = true
                      /\ group m 1 = d1 ++ py "-" ++ d2)
    /\ forallb isspace blanks = true
    /\ text = pre ++ py "l." ++ blanks ++ group m 1 ++ post.
Proof.
  intros H. apply finditer_aux_In_suffix in H.
  destruct H as (pre & c & s & len & cs & E & M & ->).
  unfold match_at, line_pattern, ws_star in M. cbn [Re.seq mt] in M.
  destruct (startswith (c :: s) (py "l.")) eqn:F; [|discriminate].
  apply rep_greedy_Some_run in M. destruct M as (j & _ & Hws & Hlen & M).
  apply rep_greedy_Some_run in M. destruct M as (j2 & Hj2 & Hd1 & Hlen2 & M).
  pose proof (startswith_app _ _ F) as EA.
  set (sA := drop (List.length (py "l.")) (c :: s)) in *.
  set (sB := drop j sA) in *.
  set (p0 := (0 + List.length (py "l.") + j)%nat) in *.
  apply Forall_forallb_true in Hws, Hd1.
  assert (Hrun : take j2 sB <> []).
  { intros Z. rewrite Z in Hlen2. cbn in Hlen2. lia. }
  assert (Short : text = pre ++ py "l." ++ take j sA ++ take j2 sB ++ drop j2 sB).
  { rewrite E, EA. f_equal. f_equal. rewrite (take_drop j2 sB).
    exact (eq_sym (take_drop j sA)). }
  replace (p0 + j2 - p0)%nat with j2 in M by lia.
  assert (None_case :
    Some (p0 + j2, [(1, take j2 sB)])%nat = Some (len, cs) ->
    exists d1 pre0 blanks post : list N,
      d1 <> [] /\ forallb isdecimal d1 = true
      /\ (group (mkMatch (take len (c :: s)) cs) 1 = d1
          \/ exists d2, d2 <> [] /\ forallb isdecimal d2 = true
                        /\ group (mkMatch (take len (c :: s)) cs) 1 = d1 ++ py "-" ++ d2)
      /\ forallb isspace blanks = true
      /\ text = pre0 ++ py "l." ++ blanks
                ++ group (mkMatch (take len (c :: s)) cs) 1 ++ post).
  { intros [= _ <-]. cbn [group groups assoc Nat.eqb default from_option id].
    exists (take j2 sB), pre, (take j sA), (drop j2 sB). auto 6. }
  destruct (startswith (drop j2 sB) (py "-")) eqn:Dash; [|exact (None_case M)].
  match type of M with
  | match ?x with _ => _ end = _ => destruct x as [r|] eqn:R; [|exact (None_case M)]
  end.
  injection M as ->.
  apply rep_greedy_Some_run in R. destruct R as (j3 & Hj3 & Hd2 & Hlen3 & R).
  injection R as _ <-. cbn [group groups assoc Nat.eqb default from_option id].
  apply Forall_forallb_true in Hd2.
  set (sC := drop (List.length (py "-")) (drop j2 sB)) in *.
  clear None_case.
  match goal with
  | |- context [take ?n sB] =>
    replace n with (j2 + (List.length (py "-") + j3))%nat
      by (change (List.length (py "-")) with 1%nat; unfold p0;
          change (List.length (py "l.")) with 2%nat; lia)
  end.
  rewrite take_plus, take_plus, (startswith_take _ _ Dash). fold sC.
  exists (take j2 sB), pre, (take j sA), (drop j3 sC).
  split; [exact Hrun|]. split; [exact Hd1|]. split.
  - right. exists (take j3 sC). split; [|split; [exact Hd2 | reflexivity]].
    intros Z. rewrite Z in Hlen3. cbn in Hlen3. lia.
  - split; [exact Hws|]. rewrite Short. do 3 f_equal. rewrite <- !app_assoc. f_equal.
    rewrite (startswith_app _ _ Dash) at 1. f_equal. fold sC.
    exact (eq_sym (take_drop j3 sC)).
Qed.

Lemma parse_entry_from_text_manuscript (n_entries : nat) (content entry_num : list N)
      (entry : Entry) :
  parse_entry_from_text n_entries content entry_num = Some entry ->
  manuscript entry
  = mkManuscript ((fun m => group m 1) <$> search folio_pattern content)
                 ((fun m => group m 1) <$> search folio_pattern content)
                 ((fun m => group m 1) <$> search line_pattern content).
Proof.
  unfold parse_entry_from_text, parse_entry_from_text_body.
  destruct (if isdigit entry_num then _ else _) as [entry_number|ex];
    cbn [mbind res_bind try_except]; [|discriminate].
  intros [= <-].
  match goal with
  | |- context [extract_main_person_from_text content ?e0] =>
    destruct (extract_main_person_from_text_shape content e0) as (m1 & -> & _)
  end.
  cbn [entryId entryNumber mainPerson familyMembers manuscript edition dates notes places].
  match goal with
  | |- context [extract_family_from_text content ?e1] =>
    destruct (extract_family_from_text_sound content e1) as (added & -> & _)
  end.
  cbn [entryId entryNumber mainPerson familyMembers manuscript edition dates notes places].
  match goal with
  | |- context [extract_places_from_text content ?e2] =>
    destruct (extract_places_from_text_frame content e2) as [(m3 & pl & -> & _) _]
  end.
  cbn [entryId entryNumber mainPerson familyMembers manuscript edition dates notes places].
  unfold extract_manuscript_from_text. cbn [manuscript set_manuscript].
  destruct (search folio_pattern content); destruct (search line_pattern content); reflexivity.
Qed.

Lemma search_In (r : re) (text : list N) (m : rmatch) :
  search r text = Some m -> In m (finditer r text).
Proof.
  unfold search. destruct (finditer r text) as [|x l]; [discriminate|].
  intros [= ->]. left. reflexivity.
Qed.

(** X22: the page of a free-text entry, when there is one, is a non-empty
    run of the letters I, V, X (either case), possibly followed by one r,
    that stands in the text after [f.] and optional blanks; the line is a
    non-empty run of decimal digits, possibly followed by a hyphen and a
    second run, after [l.] and optional blanks.  A text without [f.] gives
    no page, a text without [l.] no line. *)
Theorem free_text_manuscript_reference (n_entries : nat) (content entry_num : list N)
        (entry : Entry) :
  parse_entry_from_text n_entries content entry_num = Some entry ->
  (forall g, ms_page (manuscript entry) = Some g ->
     exists run pre blanks post,
       run <> [] /\ forallb is_roman run = true
       /\ (g = run \/ g = run ++ py "r")
       /\ forallb isspace blanks = true
       /\ content = pre ++ py "f." ++ blanks ++ g ++ post)
  /\ (forall g, ms_line (manuscript entry) = Some g ->
        exists d1 pre blanks post,
          d1 <> [] /\ forallb isdecimal d1 = true
          /\ (g = d1 \/ exists d2, d2 <> [] /\ forallb isdecimal d2 = true
                                   /\ g = d1 ++ py "-" ++ d2)
          /\ forallb isspace blanks = true
          /\ content = pre ++ py "l." ++ blanks ++ g ++ post)
  /\ (contains content (py "f.") = false -> ms_page (manuscript entry) = None)
  /\ (contains content (py "l.") = false -> ms_line (manuscript entry) = None).
Proof.
  intros P. rewrite (parse_entry_from_text_manuscript _ _ _ _ P). cbn [ms_page ms_line].
  assert (A : forall g, (fun m => group m 1) <$> search folio_pattern content = Some g ->
            exists run pre blanks post,
              run <> [] /\ forallb is_roman run = true
              /\ (g = run \/ g = run ++ py "r")
              /\ forallb isspace blanks = true
              /\ content = pre ++ py "f." ++ blanks ++ g ++ post).
  { intros g H. destruct (search folio_pattern content) as [m|] eqn:S; [|discriminate].
    injection H as <-. apply folio_pattern_capture, search_In, S. }
  assert (B : forall g, (fun m => group m 1) <$> search line_pattern content = Some g ->
            exists d1 pre blanks post,
              d1 <> [] /\ forallb isdecimal d1 = true
              /\ (g = d1 \/ exists d2, d2 <> [] /\ forallb isdecimal d2 = true
                                       /\ g = d1 ++ py "-" ++ d2)
              /\ forallb isspace blanks = true
              /\ content = pre ++ py "l." ++ blanks ++ g ++ post).
  { intros g H. destruct (search line_pattern content) as [m|] eqn:S; [|discriminate].
    injection H as <-. apply line_pattern_capture, search_In, S. }
  split; [exact A|]. split; [exact B|]. split.
  - intros C. destruct ((fun m => group m 1) <$> search folio_pattern content) as [g|] eqn:S;
      [|reflexivity].
    destruct (A g eq_refl) as (run & pre & blanks & post & _ & _ & _ & _ & E).
    rewrite E, contains_occurs in C. discriminate.
  - intros C. destruct ((fun m => group m 1) <$> search line_pattern content) as [g|] eqn:S;
      [|reflexivity].
    destruct (B g eq_refl) as (d1 & pre & blanks & post & _ & _ & _ & _ & E).
    rewrite E, contains_occurs in C. discriminate.
Qed.

Lemma free_text_manuscript_reference_witness :
  exists entry,
    parse_entry_from_text 0 (py "გიორგი f. IVr, l. 3-4") (py "1") = Some entry
    /\ ms_page (manuscript entry) = Some (py "IVr")
    /\ ms_line (manuscript entry) = Some (py "3-4")
    /\ exists pre blanks post,
        py "გიორგი f. IVr, l. 3-4" = pre ++ py "f." ++ blanks ++ py "IVr" ++ post.
Proof.
  eexists. split; [vm_compute; reflexivity|].
  split; [vm_compute; reflexivity|]. split; [vm_compute; reflexivity|].
  destruct (free_text_manuscript_reference
              0 (py "გიორგი f. IVr, l. 3-4") (py "1") _ ltac:(vm_compute; reflexivity))
    as (H & _).
  destruct (H (py "IVr") ltac:(vm_compute; reflexivity))
    as (run & pre & blanks & post & _ & _ & _ & _ & E).
  exists pre, blanks, post. exact E.
Defined.

(** ** Structured extraction: places *)

(** X23: the places of a structured entry are the normalized texts of its
    place nodes, in document order, without the empty ones and with
    repetitions kept; the main person's place, when not set before, becomes
    the first of them. *)
Theorem parse_places_in_order (place_elements : list ET.Element) (entry : Entry) :
  let found :=
    List.filter (fun p => negb (str_eqb p []))
                (map (fun el => clean_text (Some (default [] (ET.text el)))) place_elements) in
  places (parse_places place_elements entry) = places entry ++ found
  /\ p_place (mainPerson (parse_places place_elements entry))
     = (if truthy (p_place (mainPerson entry)) then p_place (mainPerson entry)
        else match found with
             | [] => p_place (mainPerson entry)
             | p :: _ => Some p
             end).
Proof.
  cbn zeta. unfold parse_places.
  revert entry. induction place_elements as [|el els IH]; intros entry.
  - cbn [fold_left map List.filter]. rewrite app_nil_r.
    split; [reflexivity|]. destruct (truthy _); reflexivity.
  - cbn [fold_left map List.filter].
    destruct (clean_text (Some (default [] (ET.text el)))) as [|c w] eqn:T.
    + cbn [str_eqb negb]. apply IH.
    + cbn [str_eqb negb].
      destruct (IH (add_place entry (c :: w))) as (H1 & H2).
      rewrite H1, H2. unfold add_place.
      cbn [places mainPerson]. rewrite <- app_assoc. split; [reflexivity|].
      destruct (truthy (p_place (mainPerson entry))) eqn:P.
      * rewrite P. reflexivity.
      * reflexivity.
Qed.
